(** * Toshiba TC358768 DPI-to-DSI bridge: clock solver, register access
      and power sequencing

    A shallow embedding of the bridge driver (register access layer,
    PLL parameter search, timing derivation, bring-up and teardown
    sequences) and the properties of its design description, proved or
    refuted against that embedding. *)

From Stdlib Require Import ZArith List Bool Lia.
Import ListNotations.

Local Open Scope Z_scope.

(** ** Machine integers

    The driver computes on [unsigned] / [u32] and [u64] values.  They are
    modelled as [Z] with the wrap-around of every C operation written
    out. *)

Definition UINT_MAX : Z := 4294967295.

Definition wrap8 (x : Z) : Z := x mod 2 ^ 8.
Definition wrap16 (x : Z) : Z := x mod 2 ^ 16.
Definition wrap32 (x : Z) : Z := x mod 2 ^ 32.
Definition wrap64 (x : Z) : Z := x mod 2 ^ 64.

Definition is_u32 (x : Z) : Prop := 0 <= x < 2 ^ 32.

(** [~x] on a 32-bit unsigned operand. *)
Definition not32 (x : Z) : Z := wrap32 (Z.lnot x).

(** Modelled from the spec: the kernel helper [div_u64(dividend,
    divisor)], a 64-bit by 32-bit unsigned division ("integer division,
    truncating").  C leaves a zero divisor undefined (the kernel traps);
    here the quotient is [Z.div], and the statements below that reach a
    division either show the divisor non-zero or assume it. *)
Definition div_u64 (dividend divisor : Z) : Z := dividend / divisor.

Definition EINVAL : Z := 22.

(** ** Device context ([struct tc358768_drv_data])

    [dev] and [regmap] are handles on the bus, modelled further down;
    [reset_gpio] records whether the optional reset line is wired. *)

Record tc358768_drv_data : Type := mk_drv_data {
  reset_gpio : bool;
  dpi_ndl : Z;
  dsi_ndl : Z;
  fbd : Z;
  prd : Z;
  frs : Z;
  bitclk : Z;
  pixelclock : Z;
  refclk : Z;
  hsw : Z;
  hbp : Z;
  vsw : Z;
  vbp : Z
}.

(** Every numeric field is a [u32] / [unsigned]. *)
Record drv_data_u32 (d : tc358768_drv_data) : Prop := {
  u32_dpi_ndl : is_u32 (dpi_ndl d);
  u32_dsi_ndl : is_u32 (dsi_ndl d);
  u32_pixelclock : is_u32 (pixelclock d);
  u32_refclk : is_u32 (refclk d);
  u32_hsw : is_u32 (hsw d);
  u32_hbp : is_u32 (hbp d);
  u32_vsw : is_u32 (vsw d);
  u32_vbp : is_u32 (vbp d)
}.

(** The assignments at the end of [tc358768_calc_pll]. *)
Definition set_pll (d : tc358768_drv_data) (f p r b : Z) : tc358768_drv_data :=
  {| reset_gpio := reset_gpio d;
     dpi_ndl := dpi_ndl d; dsi_ndl := dsi_ndl d;
     fbd := f; prd := p; frs := r; bitclk := b;
     pixelclock := pixelclock d; refclk := refclk d;
     hsw := hsw d; hbp := hbp d; vsw := vsw d; vbp := vbp d |}.

(** ** Clock transforms *)

Definition tc358768_pll_to_pclk (d : tc358768_drv_data) (pll : Z) : Z :=
  let byteclk := pll / 2 / 4 in
  wrap32 (div_u64 (wrap64 (wrap64 (byteclk * 8) * dsi_ndl d)) (dpi_ndl d)).

Definition tc358768_pclk_to_pll (d : tc358768_drv_data) : Z :=
  let byteclk :=
    wrap32 (div_u64 (wrap64 (pixelclock d * dpi_ndl d))
                    (wrap32 (8 * dsi_ndl d))) in
  wrap32 (wrap32 (byteclk * 4) * 2).

(** ** PLL solver ([tc358768_calc_pll]) *)

Definition frs_limits : list Z :=
  [1000000000; 500000000; 250000000; 125000000; 62500000].

Definition frs_limit (i : Z) : Z := nth (Z.to_nat i) frs_limits 0.

(** The bracket chosen by the first loop: [frs] (or the [UINT_MAX]
    sentinel), [max_pll], [min_pll]. *)
Record frs_choice : Type := mk_frs_choice {
  ch_frs : Z;
  ch_max_pll : Z;
  ch_min_pll : Z
}.

(** [for (i = ...; i < ARRAY_SIZE(frs_limits) - 1; ++i)], with [n]
    iterations left.  [max_pll] and [min_pll] are unset until a bracket
    matches; the sentinel keeps them from being read. *)
Fixpoint frs_loop (n : nat) (i : Z) (target_pll : Z) : frs_choice :=
  match n with
  | O => mk_frs_choice UINT_MAX 0 0
  | S n' =>
      if (target_pll <? frs_limit i) && (target_pll >=? frs_limit (i + 1))
      then mk_frs_choice i (frs_limit i) (frs_limit (i + 1))
      else frs_loop n' (i + 1) target_pll
  end.

Definition select_frs (target_pll : Z) : frs_choice :=
  frs_loop (length frs_limits - 1) 0 target_pll.

(** Locals of the divider search; [loop_prd] and [loop_fbd] are the
    function-scope loop variables [prd] and [fbd], whose final values
    tell where the loops stopped. *)
Record pll_search : Type := mk_pll_search {
  best_diff : Z;
  best_pll : Z;
  best_prd : Z;
  best_fbd : Z;
  loop_prd : Z;
  loop_fbd : Z
}.

Definition pll_divisor (frs prd : Z) : Z :=
  wrap32 (wrap32 (prd + 1) * Z.shiftl 1 frs).

(** Line 294: the candidate frequency, a [u32] cast of a 64-bit quotient. *)
Definition pll_candidate (refclk frs prd fbd : Z) : Z :=
  wrap32 (div_u64 (wrap64 (refclk * wrap32 (fbd + 1))) (pll_divisor frs prd)).

Definition pll_diff (pll target_pll : Z) : Z :=
  wrap32 (Z.max pll target_pll - Z.min pll target_pll).

Definition at_fbd (st : pll_search) (fbd : Z) : pll_search :=
  mk_pll_search (best_diff st) (best_pll st) (best_prd st) (best_fbd st)
                (loop_prd st) fbd.

Definition at_prd (st : pll_search) (prd : Z) : pll_search :=
  mk_pll_search (best_diff st) (best_pll st) (best_prd st) (best_fbd st)
                prd (loop_fbd st).

Section Search.
Variables (refclk_hz frs max_pll min_pll target_pll : Z).

(** Inner loop [for (fbd = ...; fbd < 512; ++fbd)] with [n] iterations
    left. *)
Fixpoint fbd_loop (prd : Z) (n : nat) (fbd : Z) (st : pll_search)
  : pll_search :=
  match n with
  | O => at_fbd st fbd
  | S n' =>
      let pll := pll_candidate refclk_hz frs prd fbd in
      if (pll >=? max_pll) || (pll <? min_pll)
      then fbd_loop prd n' (fbd + 1) st
      else
        let diff := pll_diff pll target_pll in
        let st' :=
          if diff <? best_diff st
          then mk_pll_search diff pll prd fbd (loop_prd st) (loop_fbd st)
          else st in
        if best_diff st' =? 0
        then at_fbd st' fbd
        else fbd_loop prd n' (fbd + 1) st'
  end.

(** Outer loop [for (prd = ...; prd < 16; ++prd)] with [n] iterations
    left. *)
Fixpoint prd_loop (n : nat) (prd : Z) (st : pll_search) : pll_search :=
  match n with
  | O => at_prd st prd
  | S n' =>
      let st' := fbd_loop prd 512 0 (at_prd st prd) in
      if best_diff st' =? 0
      then st'
      else prd_loop n' (prd + 1) st'
  end.

Definition pll_search_run : pll_search :=
  prd_loop 16 0 (mk_pll_search UINT_MAX 0 0 0 0 0).
End Search.

(** The two failure exits of the solver.  Both return [-EINVAL]; they
    differ in the [dev_err] line: "could not find frs value" and
    "could not find suitable PLL setup". *)
Inductive pll_error : Type :=
  | OutOfRange
  | NoSolution.

Inductive pll_result : Type :=
  | PllOk (d : tc358768_drv_data)
  | PllErr (e : pll_error).

Definition pll_errno (r : pll_result) : Z :=
  match r with
  | PllOk _ => 0
  | PllErr _ => - EINVAL
  end.

Definition tc358768_calc_pll (d : tc358768_drv_data) : pll_result :=
  let target_pll := tc358768_pclk_to_pll d in
  let c := select_frs target_pll in
  if ch_frs c =? UINT_MAX then PllErr OutOfRange
  else
    let st := pll_search_run (refclk d) (ch_frs c) (ch_max_pll c)
                             (ch_min_pll c) target_pll in
    if best_diff st =? UINT_MAX then PllErr NoSolution
    else PllOk (set_pll d (best_fbd st) (best_prd st) (ch_frs c)
                        (best_pll st / 2)).

(** The configuration set up by the probe routine. *)
Definition probe_data : tc358768_drv_data :=
  {| reset_gpio := true;
     dpi_ndl := 24; dsi_ndl := 4;
     fbd := 0; prd := 0; frs := 0; bitclk := 0;
     pixelclock := 154900000; refclk := 154900000 / 4;
     hsw := 1; hbp := 60; vsw := 1; vbp := 25 |}.


(** ** Bus model

    The register map moves 16-bit values at 16-bit addresses
    ([tc358768_regmap_config]: [reg_bits = 16], [val_bits = 16]).  The
    device behind it is modelled as a store of 16-bit words.  The
    outcome of the [n]-th transaction on the bus is given by an oracle
    [bus_ret : nat -> Z] (zero for success, anything else an error code);
    a failed transaction leaves the store as it was. *)

Definition TC358768_SYSCTL : Z := 0x0002.
Definition TC358768_CONFCTL : Z := 0x0004.
Definition TC358768_VSDLY : Z := 0x0006.
Definition TC358768_DATAFMT : Z := 0x0008.
Definition TC358768_PLLCTL0 : Z := 0x0016.
Definition TC358768_PLLCTL1 : Z := 0x0018.
Definition TC358768_PP_MISC : Z := 0x0032.
Definition TC358768_DSITX_DT : Z := 0x0050.
Definition TC358768_CLW_CNTRL : Z := 0x0140.
Definition TC358768_D0W_CNTRL : Z := 0x0144.
Definition TC358768_D1W_CNTRL : Z := 0x0148.
Definition TC358768_D2W_CNTRL : Z := 0x014C.
Definition TC358768_D3W_CNTRL : Z := 0x0150.
Definition TC358768_STARTCNTRL : Z := 0x0204.
Definition TC358768_LINEINITCNT : Z := 0x0210.
Definition TC358768_LPTXTIMECNT : Z := 0x0214.
Definition TC358768_TCLK_HEADERCNT : Z := 0x0218.
Definition TC358768_TCLK_TRAILCNT : Z := 0x021C.
Definition TC358768_THS_HEADERCNT : Z := 0x0220.
Definition TC358768_TWAKEUP : Z := 0x0224.
Definition TC358768_TCLK_POSTCNT : Z := 0x0228.
Definition TC358768_THS_TRAILCNT : Z := 0x022C.
Definition TC358768_HSTXVREGEN : Z := 0x0234.
Definition TC358768_TXOPTIONCNTRL : Z := 0x0238.
Definition TC358768_BTACNTRL1 : Z := 0x023C.
Definition TC358768_DSI_CONFW : Z := 0x0500.
Definition TC358768_DSI_START : Z := 0x0518.
Definition TC358768_DSICMD_TX : Z := 0x0600.
Definition TC358768_DSICMD_TYPE : Z := 0x0602.
Definition TC358768_DSICMD_WC : Z := 0x0604.
Definition TC358768_DSICMD_WD0 : Z := 0x0610.
Definition TC358768_DSI_EVENT : Z := 0x0620.
Definition TC358768_DSI_VSW : Z := 0x0622.
Definition TC358768_DSI_VBPR : Z := 0x0624.
Definition TC358768_DSI_VACT : Z := 0x0626.
Definition TC358768_DSI_HSW : Z := 0x0628.
Definition TC358768_DSI_HBPR : Z := 0x062A.
Definition TC358768_DSI_HACT : Z := 0x062C.

(** Constants of [<video/mipi_display.h>], a header the driver includes
    and that is not among the sources at hand; the sequences take them
    as a parameter. *)
Record mipi_display : Type := mk_mipi_display {
  MIPI_DSI_DCS_SHORT_WRITE : Z;
  MIPI_DSI_DCS_SHORT_WRITE_PARAM : Z;
  MIPI_DSI_TURN_ON_PERIPHERAL : Z;
  MIPI_DCS_EXIT_SLEEP_MODE : Z;
  MIPI_DCS_SET_PIXEL_FORMAT : Z;
  MIPI_DCS_PIXEL_FMT_24BIT : Z
}.

(** Their values in the MIPI DSI and DCS standards. *)
Definition mipi_std : mipi_display :=
  mk_mipi_display 0x05 0x15 0x32 0x11 0x3A 7.

Inductive read_result : Type :=
  | ReadOk (val : Z)
  | ReadErr (ret : Z).

(** What an observer of the driver sees: transactions on the bus, the
    driver's [dev_dbg] lines, sleeps and the reset line. *)
Inductive event : Type :=
  | BusWrite (reg val ret : Z)
  | BusRead (reg : Z) (res : read_result)
  | DbgWr16 (reg val : Z)
  | DbgWr32 (reg val : Z)
  | DbgUpd (reg orig tmp : Z)
  | DbgPll (refclk fbd prd frs : Z)
  | DbgClk (pll bitclk byteclk pclk : Z)
  | Usleep (min max : Z)
  | Msleep (msecs : Z)
  | GpioSet (value : Z).

Record bus : Type := mk_bus {
  regs : Z -> Z;
  ntx : nat
}.

Definition store_set (m : Z -> Z) (a v : Z) : Z -> Z :=
  fun a' => if a' =? a then v else m a'.

(** Result of running a piece of the driver: its C return value, the bus
    afterwards and the events it produced, oldest first. *)
Record outcome (A : Type) : Type := mk_outcome {
  value : A;
  final : bus;
  trace : list event
}.
Arguments mk_outcome {A} _ _ _.
Arguments value {A} _.
Arguments final {A} _.
Arguments trace {A} _.

Definition M (A : Type) : Type := bus -> outcome A.

Definition ret {A : Type} (a : A) : M A := fun s => mk_outcome a s [].

Definition bind {A B : Type} (m : M A) (k : A -> M B) : M B :=
  fun s =>
    let o1 := m s in
    let o2 := k (value o1) (final o1) in
    mk_outcome (value o2) (final o2) (trace o1 ++ trace o2).

Definition emit (e : event) : M unit := fun s => mk_outcome tt s [e].

Notation "x <- m ;; k" := (bind m (fun x => k))
  (at level 61, m at next level, right associativity).
Notation "m ;; k" := (bind m (fun _ => k))
  (at level 61, right associativity).

(** A [dev_dbg] line of the driver (the file defines [DEBUG]). *)
Definition dev_dbg (e : event) : M unit := emit e.

(** Modelled from the spec: the sleep primitive, "a blocking delay
    accepting a minimum bound (and, for some steps, a maximum bound
    used only as a scheduling hint)"; [usleep_range] takes microseconds,
    [msleep] milliseconds.  Time itself is not modelled: a sleep is an
    event of the trace. *)
Definition usleep_range (min max : Z) : M unit := emit (Usleep min max).
Definition msleep (msecs : Z) : M unit := emit (Msleep msecs).

(** Modelled from the spec: reset line control, an "optional
    boolean-level GPIO". *)
Definition gpiod_set_value_cansleep (v : Z) : M unit := emit (GpioSet v).

Section Driver.
Variable bus_ret : nat -> Z.
Variable mipi : mipi_display.

(** Modelled from the spec: the bus transport [regmap_write], "write16(
    address, value) -> Result" whose "failures are opaque I/O errors".
    One transaction; address and value are cut to the 16 bits of
    [tc358768_regmap_config]; it returns what the oracle says and
    stores the value on success. *)
Definition regmap_write (reg val : Z) : M Z := fun s =>
  let r := bus_ret (ntx s) in
  let a := wrap16 reg in
  let v := wrap16 val in
  mk_outcome r
    (mk_bus (if r =? 0 then store_set (regs s) a v else regs s)
            (S (ntx s)))
    [BusWrite a v r].

(** Modelled from the spec: the bus transport [regmap_read],
    "read16(address) -> Result<value>".  One transaction; on failure the
    caller's variable is left unassigned. *)
Definition regmap_read (reg : Z) : M read_result := fun s =>
  let r := bus_ret (ntx s) in
  let a := wrap16 reg in
  let res := if r =? 0 then ReadOk (wrap16 (regs s a)) else ReadErr r in
  mk_outcome res (mk_bus (regs s) (S (ntx s))) [BusRead a res].

Definition tc358768_write (reg val : Z) : M Z :=
  if (reg <? 0x100) || (reg >=? 0x600) then
    dev_dbg (DbgWr16 reg val) ;;
    regmap_write reg val
  else
    dev_dbg (DbgWr32 reg val) ;;
    r <- regmap_write reg val ;;
    if negb (r =? 0) then ret r
    else regmap_write (wrap32 (reg + 2)) (Z.shiftr val 16).

Definition tc358768_read (reg : Z) : M read_result :=
  if (reg <? 0x100) || (reg >=? 0x600) then regmap_read reg
  else
    r1 <- regmap_read reg ;;
    match r1 with
    | ReadErr r => ret (ReadErr r)
    | ReadOk v1 =>
        r2 <- regmap_read (wrap32 (reg + 2)) ;;
        match r2 with
        | ReadErr r => ret (ReadErr r)
        | ReadOk v2 => ret (ReadOk (Z.lor v1 (wrap32 (Z.shiftl v2 16))))
        end
    end.

Definition tc358768_update_bits (reg mask val : Z) : M Z :=
  r <- tc358768_read reg ;;
  match r with
  | ReadErr e => ret e
  | ReadOk orig =>
      let tmp := Z.land orig (not32 mask) in
      let tmp := Z.lor tmp (Z.land val mask) in
      dev_dbg (DbgUpd reg orig tmp) ;;
      if negb (tmp =? orig) then tc358768_write reg tmp
      else ret 0
  end.

Definition tc358768_dsi_xfer_short (data_id data0 data1 : Z) : M Z :=
  let data_id := wrap8 data_id in
  let data0 := wrap8 data0 in
  let data1 := wrap8 data1 in
  let packet_type := 0x10 in
  let word_count := 0 in
  tc358768_write TC358768_DSICMD_TYPE
    (Z.lor (Z.shiftl packet_type 8) data_id) ;;
  tc358768_write TC358768_DSICMD_WC (Z.land word_count 0xf) ;;
  tc358768_write TC358768_DSICMD_WD0 (Z.lor (Z.shiftl data1 8) data0) ;;
  tc358768_write TC358768_DSICMD_TX 1 ;;
  ret 0.

Definition tc358768_sw_reset : M unit :=
  tc358768_write TC358768_SYSCTL 1 ;;
  tc358768_write TC358768_SYSCTL 0 ;;
  ret tt.

Definition pllctl1 (frs cken : Z) : Z :=
  Z.lor (Z.lor (Z.lor (Z.lor (wrap32 (Z.shiftl frs 10)) (Z.shiftl 0x2 8))
                      (Z.shiftl cken 4))
               (Z.shiftl 1 1))
        (Z.shiftl 1 0).

Definition tc358768_setup_pll (d : tc358768_drv_data) : M unit :=
  let fbd := fbd d in
  let prd := prd d in
  let frs := frs d in
  dev_dbg (DbgPll (refclk d) fbd prd frs) ;;
  dev_dbg (DbgClk (wrap32 (bitclk d * 2)) (bitclk d) (bitclk d / 4)
                  (tc358768_pll_to_pclk d (wrap32 (bitclk d * 2)))) ;;
  tc358768_write TC358768_PLLCTL0 (Z.lor (wrap32 (Z.shiftl prd 12)) fbd) ;;
  tc358768_write TC358768_PLLCTL1 (pllctl1 frs 0) ;;
  usleep_range 1000 2000 ;;
  tc358768_write TC358768_PLLCTL1 (pllctl1 frs 1) ;;
  ret tt.

(** The two timing values computed by [tc358768_power_on]. *)
Definition dsi_vsw_value (d : tc358768_drv_data) : Z :=
  wrap32 (vsw d + vbp d).

Definition dsi_hsw_value (d : tc358768_drv_data) : Z :=
  wrap32 (div_u64
            (wrap64 (wrap64 (wrap32 (hsw d + hbp d) * (bitclk d / 4))
                     * dsi_ndl d))
            (pixelclock d)).

Definition dsi_confw (opcode : Z) (bits : Z) : Z :=
  Z.lor (Z.lor (Z.shiftl opcode 29) (Z.shiftl 0x3 24)) bits.

Definition tc358768_power_on (d : tc358768_drv_data) : M unit :=
  tc358768_sw_reset ;;
  tc358768_setup_pll d ;;
  tc358768_write TC358768_VSDLY 1 ;;
  tc358768_write TC358768_DATAFMT
    (Z.lor (Z.lor (Z.lor (Z.shiftl 0x3 4) (Z.shiftl 1 2)) (Z.shiftl 1 1))
           (Z.shiftl 1 0)) ;;
  tc358768_write TC358768_DSITX_DT 0x003e ;;
  tc358768_write TC358768_CLW_CNTRL 0x0000 ;;
  tc358768_write TC358768_D0W_CNTRL 0x0000 ;;
  tc358768_write TC358768_D1W_CNTRL 0x0000 ;;
  tc358768_write TC358768_D2W_CNTRL 0x0000 ;;
  tc358768_write TC358768_D3W_CNTRL 0x0000 ;;
  tc358768_write TC358768_LINEINITCNT 0x00002c88 ;;
  tc358768_write TC358768_LPTXTIMECNT 0x00000005 ;;
  tc358768_write TC358768_TCLK_HEADERCNT 0x00001f06 ;;
  tc358768_write TC358768_TCLK_TRAILCNT 0x00000003 ;;
  tc358768_write TC358768_THS_HEADERCNT 0x00000606 ;;
  tc358768_write TC358768_TWAKEUP 0x00004a88 ;;
  tc358768_write TC358768_TCLK_POSTCNT 0x0000000b ;;
  tc358768_write TC358768_THS_TRAILCNT 0x00000004 ;;
  tc358768_write TC358768_HSTXVREGEN 0x0000001f ;;
  tc358768_write TC358768_TXOPTIONCNTRL 0x1 ;;
  tc358768_dsi_xfer_short (MIPI_DSI_DCS_SHORT_WRITE mipi)
                          (MIPI_DCS_EXIT_SLEEP_MODE mipi) 0 ;;
  tc358768_write TC358768_BTACNTRL1 (Z.lor (Z.shiftl 0x5 16) 0x5) ;;
  tc358768_write TC358768_STARTCNTRL 0x1 ;;
  tc358768_write TC358768_DSI_EVENT 1 ;;
  tc358768_write TC358768_DSI_VSW (dsi_vsw_value d) ;;
  tc358768_write TC358768_DSI_VBPR 0 ;;
  tc358768_write TC358768_DSI_VACT 1920 ;;
  tc358768_write TC358768_DSI_HSW (dsi_hsw_value d) ;;
  tc358768_write TC358768_DSI_HBPR 0 ;;
  tc358768_write TC358768_DSI_HACT (1200 * 3) ;;
  tc358768_write TC358768_DSI_START 0x1 ;;
  tc358768_write TC358768_DSI_CONFW (dsi_confw 5 0xa7) ;;
  tc358768_write TC358768_DSI_CONFW (dsi_confw 6 0x8000) ;;
  tc358768_update_bits TC358768_PP_MISC (Z.shiftl 0x3 14) 0 ;;
  tc358768_update_bits TC358768_CONFCTL (Z.shiftl 1 6) (Z.shiftl 1 6) ;;
  ret tt.

Definition tc358768_power_off : M unit :=
  tc358768_update_bits TC358768_PP_MISC (Z.shiftl 1 15) (Z.shiftl 1 15) ;;
  msleep 50 ;;
  tc358768_update_bits TC358768_CONFCTL (Z.shiftl 1 6) 0 ;;
  tc358768_update_bits TC358768_PP_MISC (Z.shiftl 1 14) (Z.shiftl 1 14) ;;
  ret tt.

(** [tc358768_enable] returns the C return value together with the
    device context, which [tc358768_calc_pll] updates on success. *)
Definition tc358768_enable (d : tc358768_drv_data)
  : M (Z * tc358768_drv_data) :=
  match tc358768_calc_pll d with
  | PllErr e => ret (pll_errno (PllErr e), d)
  | PllOk d' =>
      (if reset_gpio d' then gpiod_set_value_cansleep 1 else ret tt) ;;
      usleep_range 1000 2000 ;;
      tc358768_power_on d' ;;
      tc358768_dsi_xfer_short (MIPI_DSI_TURN_ON_PERIPHERAL mipi) 0 0 ;;
      tc358768_dsi_xfer_short (MIPI_DSI_DCS_SHORT_WRITE_PARAM mipi)
                              (MIPI_DCS_SET_PIXEL_FORMAT mipi)
                              (MIPI_DCS_PIXEL_FMT_24BIT mipi) ;;
      ret (0, d')
  end.

Definition tc358768_disable (d : tc358768_drv_data) : M unit :=
  tc358768_power_off ;;
  (if reset_gpio d then gpiod_set_value_cansleep 0 else ret tt) ;;
  ret tt.
End Driver.

(** A bus on which every transaction succeeds, and a device whose
    registers all read zero. *)
Definition no_fault : nat -> Z := fun _ => 0.
Definition bus0 : bus := mk_bus (fun _ => 0) 0.

Definition EIO : Z := 5.
(** A bus whose [k]-th transaction alone fails. *)
Definition fault_at (k : nat) : nat -> Z :=
  fun n => if Nat.eqb n k then - EIO else 0.


(** ** Vocabulary of the statements *)

(** The pairs [(prd, fbd)] the search ranges over. *)
Definition in_grid (p f : Z) : Prop := 0 <= p < 16 /\ 0 <= f < 512.

(** Loop order of the nested search: [(p, f)] is reached strictly before,
    respectively no later than, [(p', f')]. *)
Definition loop_before (p f p' f' : Z) : Prop := p < p' \/ (p = p' /\ f < f').
Definition loop_le (p f p' f' : Z) : Prop := p < p' \/ (p = p' /\ f <= f').

Definition in_bracket (min_pll max_pll pll : Z) : Prop :=
  min_pll <= pll < max_pll.

(** How the search ended: on an exact match at the pair where both
    loops were left, or after the whole grid. *)
Definition stopped_at_match (st : pll_search) : Prop :=
  best_diff st = 0 /\ in_grid (loop_prd st) (loop_fbd st)
  /\ best_prd st = loop_prd st /\ best_fbd st = loop_fbd st.

Definition ran_to_end (st : pll_search) : Prop :=
  best_diff st <> 0 /\ loop_prd st = 16 /\ loop_fbd st = 512.

Section SearchSpec.
Variables (refclk_hz frs max_pll min_pll target_pll : Z).

Definition cand (p f : Z) : Z := pll_candidate refclk_hz frs p f.
Definition dist (p f : Z) : Z := Z.abs (cand p f - target_pll).
Definition usable (p f : Z) : Prop := in_bracket min_pll max_pll (cand p f).

(** The pairs visited before the loops reach [(P, F)]. *)
Definition visited (P F p f : Z) : Prop :=
  in_grid p f /\ loop_before p f P F.

(** [st] records the first closest usable candidate among the pairs
    in [V], or the sentinel when [V] has none. *)
Definition summarises (V : Z -> Z -> Prop) (st : pll_search) : Prop :=
  (best_diff st = UINT_MAX /\ forall p f, V p f -> ~ usable p f)
  \/ (V (best_prd st) (best_fbd st)
      /\ usable (best_prd st) (best_fbd st)
      /\ best_pll st = cand (best_prd st) (best_fbd st)
      /\ best_diff st = dist (best_prd st) (best_fbd st)
      /\ forall p f, V p f -> usable p f ->
           best_diff st <= dist p f
           /\ (dist p f = best_diff st ->
               loop_le (best_prd st) (best_fbd st) p f)).
End SearchSpec.

(** [(bp, bf)] is usable and no usable pair of the grid is strictly
    closer to the target; among equally close pairs it comes first in
    loop order. *)
Definition closest_first (r s mx mn t bp bf : Z) : Prop :=
  in_grid bp bf /\ usable r s mx mn bp bf
  /\ forall p f, in_grid p f -> usable r s mx mn p f ->
       dist r s t bp bf <= dist r s t p f
       /\ (dist r s t p f = dist r s t bp bf -> loop_le bp bf p f).

(** The frequency the design description assigns to a divider triple. *)
Definition pll_formula (refclk fbd prd frs : Z) : Z :=
  refclk * (fbd + 1) / ((prd + 1) * 2 ^ frs).

(** The search as the design description has it, on the frequency of
    the formula: [(bp, bf)] is a pair of the grid whose frequency lies
    in the bracket, no such pair is strictly closer to the target, and
    among equally close ones it comes first in loop order. *)
Definition formula_closest_first (r s mx mn t bp bf : Z) : Prop :=
  in_grid bp bf /\ in_bracket mn mx (pll_formula r bf bp s)
  /\ forall p f, in_grid p f -> in_bracket mn mx (pll_formula r f p s) ->
       Z.abs (pll_formula r bf bp s - t) <= Z.abs (pll_formula r f p s - t)
       /\ (Z.abs (pll_formula r f p s - t) = Z.abs (pll_formula r bf bp s - t)
           -> loop_le bp bf p f).

(** A test that holds on the whole grid. *)
Definition grid_all (P : Z -> Z -> bool) : bool :=
  forallb (fun p => forallb (fun f => P (Z.of_nat p) (Z.of_nat f))
                            (seq 0 512))
          (seq 0 16).

(** The boolean form of [formula_closest_first] at one pair [(p, f)]. *)
Definition formula_not_closer (r s mx mn t bp bf p f : Z) : bool :=
  let c := pll_formula r f p s in
  let b := pll_formula r bf bp s in
  negb ((mn <=? c) && (c <? mx))
  || ((Z.abs (b - t) <? Z.abs (c - t))
      || ((Z.abs (b - t) =? Z.abs (c - t))
          && ((bp <? p) || ((bp =? p) && (bf <=? f))))).

(** A configuration with the probe's reference clock and lane counts
    and a 99 MHz pixel clock. *)
Definition data_99mhz : tc358768_drv_data :=
  {| reset_gpio := true;
     dpi_ndl := 24; dsi_ndl := 4;
     fbd := 0; prd := 0; frs := 0; bitclk := 0;
     pixelclock := 99000000; refclk := 38725000;
     hsw := 1; hbp := 60; vsw := 1; vbp := 25 |}.

(** The probe's configuration with an 800 MHz pixel clock. *)
Definition data_800mhz : tc358768_drv_data :=
  {| reset_gpio := true;
     dpi_ndl := 24; dsi_ndl := 4;
     fbd := 0; prd := 0; frs := 0; bitclk := 0;
     pixelclock := 800000000; refclk := 200000000;
     hsw := 1; hbp := 60; vsw := 1; vbp := 25 |}.

(** The probe's configuration with an 8 MHz pixel clock. *)
Definition data_8mhz : tc358768_drv_data :=
  {| reset_gpio := true;
     dpi_ndl := 24; dsi_ndl := 4;
     fbd := 0; prd := 0; frs := 0; bitclk := 0;
     pixelclock := 8000000; refclk := 2000000;
     hsw := 1; hbp := 60; vsw := 1; vbp := 25 |}.

(** Strictly positive clocks and lane counts. *)
Definition valid_config (d : tc358768_drv_data) : Prop :=
  0 < pixelclock d /\ 0 < refclk d /\ 0 < dpi_ndl d /\ 0 < dsi_ndl d.

(** The error bound of the clock round trip: the pixel clock is never
    overshot, and the first and second truncation lose less than
    [8 * dsi_ndl] and [dpi_ndl] in units of [1 / dpi_ndl] Hz. *)
Definition round_trip_bound (d : tc358768_drv_data) (pclk : Z) : Prop :=
  pclk <= pixelclock d
  /\ (pixelclock d - pclk) * dpi_ndl d <= (8 * dsi_ndl d - 1) + (dpi_ndl d - 1).

(** Projections of a trace. *)
Definition is_bus_write (e : event) : bool :=
  match e with BusWrite _ _ _ => true | _ => false end.

Definition is_bus_read (e : event) : bool :=
  match e with BusRead _ _ => true | _ => false end.

Definition bus_writes (t : list event) : list event := filter is_bus_write t.
Definition bus_reads (t : list event) : list event := filter is_bus_read t.

(** The value [tc358768_update_bits] computes from what it read. *)
Definition rmw_value (orig mask val : Z) : Z :=
  Z.lor (Z.land orig (not32 mask)) (Z.land val mask).

Definition is_sleep (e : event) : bool :=
  match e with Usleep _ _ | Msleep _ => true | _ => false end.

(** The events of one [tc358768_write] whose first and second
    transactions return [r] and [r']. *)
Definition write_events (reg val r r' : Z) : list event :=
  if (reg <? 0x100) || (reg >=? 0x600)
  then [DbgWr16 reg val; BusWrite (wrap16 reg) (wrap16 val) r]
  else DbgWr32 reg val
       :: BusWrite (wrap16 reg) (wrap16 val) r
       :: (if r =? 0
           then [BusWrite (wrap16 (wrap32 (reg + 2)))
                          (wrap16 (Z.shiftr val 16)) r']
           else []).

(** The view [f] of a trace shows nothing of register [reg], nor of its
    high half at [reg + 2] when it is a 32-bit one. *)
Definition quiet (f : event -> bool) (reg : Z) : Prop :=
  (forall v, f (DbgWr16 reg v) = false)
  /\ (forall v, f (DbgWr32 reg v) = false)
  /\ (forall o t, f (DbgUpd reg o t) = false)
  /\ (forall v r, f (BusWrite (wrap16 reg) v r) = false)
  /\ (forall res, f (BusRead (wrap16 reg) res) = false)
  /\ ((reg <? 0x100) || (reg >=? 0x600) = false ->
      (forall v r, f (BusWrite (wrap16 (wrap32 (reg + 2))) v r) = false)
      /\ (forall res, f (BusRead (wrap16 (wrap32 (reg + 2))) res) = false)).

(** The open-loop part of a trace: write requests other than the two
    closing read-modify-writes, sleeps and the reset line. *)
Definition is_step (e : event) : bool :=
  match e with
  | DbgWr16 r _ | DbgWr32 r _ =>
      negb (r =? TC358768_PP_MISC) && negb (r =? TC358768_CONFCTL)
  | Usleep _ _ | Msleep _ | GpioSet _ => true
  | _ => false
  end.

Definition is_write_request (e : event) : bool :=
  match e with DbgWr16 _ _ | DbgWr32 _ _ => true | _ => false end.

(** A trace in which every write request is followed by its own bus
    transactions and by nothing more: the low half or the 16-bit word
    once, and the high half once when the low half went through. *)
Inductive served : list event -> Prop :=
  | served_nil : served []
  | served_wr16 (reg val r : Z) (t : list event) :
      served t ->
      served (DbgWr16 reg val :: BusWrite (wrap16 reg) (wrap16 val) r :: t)
  | served_wr32_low (reg val r : Z) (t : list event) :
      r <> 0 -> served t ->
      served (DbgWr32 reg val :: BusWrite (wrap16 reg) (wrap16 val) r :: t)
  | served_wr32 (reg val r : Z) (t : list event) :
      served t ->
      served (DbgWr32 reg val
              :: BusWrite (wrap16 reg) (wrap16 val) 0
              :: BusWrite (wrap16 (wrap32 (reg + 2)))
                          (wrap16 (Z.shiftr val 16)) r
              :: t)
  | served_other (e : event) (t : list event) :
      is_bus_write e = false -> is_write_request e = false ->
      served t -> served (e :: t).

(** The short-packet transfer as a list of write requests. *)
Definition xfer_short_steps (data_id data0 data1 : Z) : list event :=
  [DbgWr16 TC358768_DSICMD_TYPE (Z.lor (Z.shiftl 0x10 8) (wrap8 data_id));
   DbgWr16 TC358768_DSICMD_WC 0;
   DbgWr16 TC358768_DSICMD_WD0
           (Z.lor (Z.shiftl (wrap8 data1) 8) (wrap8 data0));
   DbgWr16 TC358768_DSICMD_TX 1].

(** The bring-up sequence in program order. *)
Definition power_on_steps (mipi : mipi_display) (d : tc358768_drv_data)
  : list event :=
  [DbgWr16 TC358768_SYSCTL 1;
   DbgWr16 TC358768_SYSCTL 0;
   DbgWr16 TC358768_PLLCTL0 (Z.lor (wrap32 (Z.shiftl (prd d) 12)) (fbd d));
   DbgWr16 TC358768_PLLCTL1 (pllctl1 (frs d) 0);
   Usleep 1000 2000;
   DbgWr16 TC358768_PLLCTL1 (pllctl1 (frs d) 1);
   DbgWr16 TC358768_VSDLY 1;
   DbgWr16 TC358768_DATAFMT 0x37;
   DbgWr16 TC358768_DSITX_DT 0x3e;
   DbgWr32 TC358768_CLW_CNTRL 0;
   DbgWr32 TC358768_D0W_CNTRL 0;
   DbgWr32 TC358768_D1W_CNTRL 0;
   DbgWr32 TC358768_D2W_CNTRL 0;
   DbgWr32 TC358768_D3W_CNTRL 0;
   DbgWr32 TC358768_LINEINITCNT 0x2c88;
   DbgWr32 TC358768_LPTXTIMECNT 0x5;
   DbgWr32 TC358768_TCLK_HEADERCNT 0x1f06;
   DbgWr32 TC358768_TCLK_TRAILCNT 0x3;
   DbgWr32 TC358768_THS_HEADERCNT 0x606;
   DbgWr32 TC358768_TWAKEUP 0x4a88;
   DbgWr32 TC358768_TCLK_POSTCNT 0xb;
   DbgWr32 TC358768_THS_TRAILCNT 0x4;
   DbgWr32 TC358768_HSTXVREGEN 0x1f;
   DbgWr32 TC358768_TXOPTIONCNTRL 0x1]
  ++ xfer_short_steps (MIPI_DSI_DCS_SHORT_WRITE mipi)
                      (MIPI_DCS_EXIT_SLEEP_MODE mipi) 0
  ++ [DbgWr32 TC358768_BTACNTRL1 0x50005;
      DbgWr32 TC358768_STARTCNTRL 0x1;
      DbgWr16 TC358768_DSI_EVENT 1;
      DbgWr16 TC358768_DSI_VSW (dsi_vsw_value d);
      DbgWr16 TC358768_DSI_VBPR 0;
      DbgWr16 TC358768_DSI_VACT 1920;
      DbgWr16 TC358768_DSI_HSW (dsi_hsw_value d);
      DbgWr16 TC358768_DSI_HBPR 0;
      DbgWr16 TC358768_DSI_HACT 3600;
      DbgWr32 TC358768_DSI_START 0x1;
      DbgWr32 TC358768_DSI_CONFW 0xA30000A7;
      DbgWr32 TC358768_DSI_CONFW 0xC3008000].

Definition enable_steps (mipi : mipi_display) (d : tc358768_drv_data)
  : list event :=
  (if reset_gpio d then [GpioSet 1] else [])
  ++ [Usleep 1000 2000]
  ++ power_on_steps mipi d
  ++ xfer_short_steps (MIPI_DSI_TURN_ON_PERIPHERAL mipi) 0 0
  ++ xfer_short_steps (MIPI_DSI_DCS_SHORT_WRITE_PARAM mipi)
                      (MIPI_DCS_SET_PIXEL_FORMAT mipi)
                      (MIPI_DCS_PIXEL_FMT_24BIT mipi).

(** ** The sequences as data

    The bring-up and teardown sequences never look at what an access
    returns, so each is the run of a list of accesses.  The lists follow
    the phases of the design description; [enable_runs] below shows
    that running them is what the driver functions do. *)
Inductive access : Type :=
  | AWrite (reg val : Z)
  | AUpdate (reg mask val : Z)
  | AEmit (e : event).

Definition run_access (bus_ret : nat -> Z) (a : access) : M unit := fun s =>
  match a with
  | AWrite reg val =>
      let o := tc358768_write bus_ret reg val s in
      mk_outcome tt (final o) (trace o)
  | AUpdate reg mask val =>
      let o := tc358768_update_bits bus_ret reg mask val s in
      mk_outcome tt (final o) (trace o)
  | AEmit e => emit e s
  end.

Fixpoint run_accesses (bus_ret : nat -> Z) (l : list access) : M unit :=
  match l with
  | [] => ret tt
  | a :: l' => run_access bus_ret a ;; run_accesses bus_ret l'
  end.

Definition xfer_short_accesses (data_id data0 data1 : Z) : list access :=
  [AWrite TC358768_DSICMD_TYPE (Z.lor (Z.shiftl 0x10 8) (wrap8 data_id));
   AWrite TC358768_DSICMD_WC (Z.land 0 0xf);
   AWrite TC358768_DSICMD_WD0 (Z.lor (Z.shiftl (wrap8 data1) 8) (wrap8 data0));
   AWrite TC358768_DSICMD_TX 1].

Definition reset_accesses : list access :=
  [AWrite TC358768_SYSCTL 1; AWrite TC358768_SYSCTL 0].

Definition pll_accesses (d : tc358768_drv_data) : list access :=
  [AEmit (DbgPll (refclk d) (fbd d) (prd d) (frs d));
   AEmit (DbgClk (wrap32 (bitclk d * 2)) (bitclk d) (bitclk d / 4)
                 (tc358768_pll_to_pclk d (wrap32 (bitclk d * 2))));
   AWrite TC358768_PLLCTL0 (Z.lor (wrap32 (Z.shiftl (prd d) 12)) (fbd d));
   AWrite TC358768_PLLCTL1 (pllctl1 (frs d) 0);
   AEmit (Usleep 1000 2000);
   AWrite TC358768_PLLCTL1 (pllctl1 (frs d) 1)].

Definition format_accesses : list access :=
  [AWrite TC358768_VSDLY 1;
   AWrite TC358768_DATAFMT
     (Z.lor (Z.lor (Z.lor (Z.shiftl 0x3 4) (Z.shiftl 1 2)) (Z.shiftl 1 1))
            (Z.shiftl 1 0));
   AWrite TC358768_DSITX_DT 0x003e].

Definition phy_accesses : list access :=
  [AWrite TC358768_CLW_CNTRL 0x0000;
   AWrite TC358768_D0W_CNTRL 0x0000;
   AWrite TC358768_D1W_CNTRL 0x0000;
   AWrite TC358768_D2W_CNTRL 0x0000;
   AWrite TC358768_D3W_CNTRL 0x0000].

Definition timing_accesses : list access :=
  [AWrite TC358768_LINEINITCNT 0x00002c88;
   AWrite TC358768_LPTXTIMECNT 0x00000005;
   AWrite TC358768_TCLK_HEADERCNT 0x00001f06;
   AWrite TC358768_TCLK_TRAILCNT 0x00000003;
   AWrite TC358768_THS_HEADERCNT 0x00000606;
   AWrite TC358768_TWAKEUP 0x00004a88;
   AWrite TC358768_TCLK_POSTCNT 0x0000000b;
   AWrite TC358768_THS_TRAILCNT 0x00000004;
   AWrite TC358768_HSTXVREGEN 0x0000001f;
   AWrite TC358768_TXOPTIONCNTRL 0x1].

Definition start_accesses : list access :=
  [AWrite TC358768_BTACNTRL1 (Z.lor (Z.shiftl 0x5 16) 0x5);
   AWrite TC358768_STARTCNTRL 0x1].

Definition video_accesses (d : tc358768_drv_data) : list access :=
  [AWrite TC358768_DSI_EVENT 1;
   AWrite TC358768_DSI_VSW (dsi_vsw_value d);
   AWrite TC358768_DSI_VBPR 0;
   AWrite TC358768_DSI_VACT 1920;
   AWrite TC358768_DSI_HSW (dsi_hsw_value d);
   AWrite TC358768_DSI_HBPR 0;
   AWrite TC358768_DSI_HACT (1200 * 3)].

Definition confw_accesses : list access :=
  [AWrite TC358768_DSI_START 0x1;
   AWrite TC358768_DSI_CONFW (dsi_confw 5 0xa7);
   AWrite TC358768_DSI_CONFW (dsi_confw 6 0x8000)].

Definition pipe_accesses : list access :=
  [AUpdate TC358768_PP_MISC (Z.shiftl 0x3 14) 0;
   AUpdate TC358768_CONFCTL (Z.shiftl 1 6) (Z.shiftl 1 6)].

Definition power_on_accesses (mipi : mipi_display) (d : tc358768_drv_data)
  : list access :=
  reset_accesses ++ pll_accesses d ++ format_accesses ++ phy_accesses
  ++ timing_accesses
  ++ xfer_short_accesses (MIPI_DSI_DCS_SHORT_WRITE mipi)
                         (MIPI_DCS_EXIT_SLEEP_MODE mipi) 0
  ++ start_accesses ++ video_accesses d ++ confw_accesses ++ pipe_accesses.

Definition panel_accesses (mipi : mipi_display) : list access :=
  xfer_short_accesses (MIPI_DSI_TURN_ON_PERIPHERAL mipi) 0 0
  ++ xfer_short_accesses (MIPI_DSI_DCS_SHORT_WRITE_PARAM mipi)
                         (MIPI_DCS_SET_PIXEL_FORMAT mipi)
                         (MIPI_DCS_PIXEL_FMT_24BIT mipi).

Definition enable_accesses (mipi : mipi_display) (d : tc358768_drv_data)
  : list access :=
  (if reset_gpio d then [AEmit (GpioSet 1)] else [])
  ++ [AEmit (Usleep 1000 2000)]
  ++ power_on_accesses mipi d ++ panel_accesses mipi.

(** [m] leaves the trace and the bus that running [l] leaves. *)
Definition agrees {A : Type} (bus_ret : nat -> Z) (m : M A)
           (l : list access) : Prop :=
  forall s, trace (m s) = trace (run_accesses bus_ret l s)
            /\ final (m s) = final (run_accesses bus_ret l s).

(** A view of a trace chosen by register address [p], and by [q] on the
    events that carry no address. *)
Definition reg_view (p : Z -> bool) (q : event -> bool) (e : event) : bool :=
  match e with
  | BusWrite a _ _ | BusRead a _ | DbgWr16 a _ | DbgWr32 a _
  | DbgUpd a _ _ => p a
  | _ => q e
  end.

(** The view shows nothing of an access. *)
Definition hidden (p : Z -> bool) (q : event -> bool) (a : access) : bool :=
  match a with
  | AWrite reg _ | AUpdate reg _ _ =>
      negb (p reg) && negb (p (wrap16 reg))
      && ((reg <? 0x100) || (reg >=? 0x600)
          || negb (p (wrap16 (wrap32 (reg + 2)))))
  | AEmit e => negb (reg_view p q e)
  end.

(** The steps a list of accesses leaves in the open-loop view. *)
Definition step_of (a : access) : list event :=
  match a with
  | AWrite reg val =>
      if (reg <? 0x100) || (reg >=? 0x600)
      then [DbgWr16 reg val] else [DbgWr32 reg val]
  | AUpdate _ _ _ => []
  | AEmit e => filter is_step [e]
  end.

Definition step_ok (a : access) : bool :=
  match a with
  | AWrite reg _ =>
      negb (reg =? TC358768_PP_MISC) && negb (reg =? TC358768_CONFCTL)
  | AUpdate reg _ _ =>
      (reg =? TC358768_PP_MISC) || (reg =? TC358768_CONFCTL)
  | AEmit e => negb (is_bus_write e) && negb (is_write_request e)
  end.

(** The views used below: one register, the PLL control register with
    the sleeps, and the two halves of the DSI configuration word. *)
Definition none (e : event) : bool := false.

Definition at_reg (r : Z) : event -> bool := reg_view (fun a => a =? r) none.

Definition pll_view : event -> bool :=
  reg_view (fun a => a =? TC358768_PLLCTL1) is_sleep.

Definition confw_view : event -> bool :=
  reg_view (fun a => (a =? TC358768_DSI_CONFW)
                     || (a =? TC358768_DSI_CONFW + 2)) none.

(** The probe's configuration with a vertical sync width at the top of
    its 32-bit range. *)
Definition data_wide_vsync : tc358768_drv_data :=
  {| reset_gpio := true;
     dpi_ndl := 24; dsi_ndl := 4;
     fbd := 0; prd := 0; frs := 0; bitclk := 0;
     pixelclock := 154900000; refclk := 38725000;
     hsw := 1; hbp := 60; vsw := 4294967295; vbp := 1 |}.

(** The events of one [tc358768_update_bits] on a 16-bit register whose
    read returns [res] and whose write, if there is one, returns [r]:
    the read; after a read that succeeded, the merged value; and the
    write request with its one transaction when the merged value
    differs from what was read.  Nothing follows a failed read. *)
Definition update_events (reg mask val : Z) (res : read_result) (r : Z)
  : list event :=
  BusRead (wrap16 reg) res
  :: match res with
     | ReadErr _ => []
     | ReadOk orig =>
         let tmp := rmw_value orig mask val in
         DbgUpd reg orig tmp
         :: (if tmp =? orig then []
             else [DbgWr16 reg tmp; BusWrite (wrap16 reg) (wrap16 tmp) r])
     end.

(** The trace is the sequence [l] served access by access, in order and
    each access once, whatever the transactions return: a write leaves
    the events of [write_events] (the high half of a 32-bit write only
    after a low half that went through), an update of a 16-bit
    register those of [update_events], any other step itself; nothing
    else is in the trace. *)
Inductive follows : list access -> list event -> Prop :=
  | follows_nil : follows [] []
  | follows_write (reg val r r' : Z) (l : list access) (t : list event) :
      follows l t ->
      follows (AWrite reg val :: l) (write_events reg val r r' ++ t)
  | follows_update (reg mask val : Z) (res : read_result) (r : Z)
                   (l : list access) (t : list event) :
      (reg <? 0x100) || (reg >=? 0x600) = true ->
      (forall e, res = ReadErr e -> e <> 0) ->
      follows l t ->
      follows (AUpdate reg mask val :: l)
              (update_events reg mask val res r ++ t)
  | follows_emit (e : event) (l : list access) (t : list event) :
      follows l t -> follows (AEmit e :: l) (e :: t).

(** An access that puts no read on the bus. *)
Definition no_read (a : access) : bool :=
  match a with
  | AWrite _ _ => true
  | AUpdate _ _ _ => false
  | AEmit e => negb (is_bus_read e)
  end.

(** ** Vocabulary of the further properties *)

(** Teardown as a list of accesses. *)
Definition power_off_accesses : list access :=
  [AUpdate TC358768_PP_MISC (Z.shiftl 1 15) (Z.shiftl 1 15);
   AEmit (Msleep 50);
   AUpdate TC358768_CONFCTL (Z.shiftl 1 6) 0;
   AUpdate TC358768_PP_MISC (Z.shiftl 1 14) (Z.shiftl 1 14)].

Definition disable_accesses (d : tc358768_drv_data) : list access :=
  power_off_accesses ++ (if reset_gpio d then [AEmit (GpioSet 0)] else []).

(** The addresses an access can store to. *)
Definition access_addresses (a : access) : list Z :=
  match a with
  | AWrite reg _ | AUpdate reg _ _ =>
      if (reg <? 0x100) || (reg >=? 0x600) then [wrap16 reg]
      else [wrap16 reg; wrap16 (wrap32 (reg + 2))]
  | AEmit _ => []
  end.

(** Every register address bring-up names, with the high halves of the
    32-bit ones. *)
Definition enable_registers : list Z :=
  [0x0002; 0x0004; 0x0006; 0x0008; 0x0016; 0x0018; 0x0032; 0x0050;
   0x0140; 0x0142; 0x0144; 0x0146; 0x0148; 0x014A; 0x014C; 0x014E;
   0x0150; 0x0152;
   0x0204; 0x0206; 0x0210; 0x0212; 0x0214; 0x0216; 0x0218; 0x021A;
   0x021C; 0x021E; 0x0220; 0x0222; 0x0224; 0x0226; 0x0228; 0x022A;
   0x022C; 0x022E; 0x0234; 0x0236; 0x0238; 0x023A; 0x023C; 0x023E;
   0x0500; 0x0502; 0x0518; 0x051A;
   0x0600; 0x0602; 0x0604; 0x0610;
   0x0620; 0x0622; 0x0624; 0x0626; 0x0628; 0x062A; 0x062C].

Definition is_bus_event (e : event) : bool :=
  is_bus_write e || is_bus_read e.

Definition is_gpio (e : event) : bool :=
  match e with GpioSet _ => true | _ => false end.

(** The least and the greatest number of bus transactions of an
    access. *)
Definition tx_min (a : access) : nat :=
  match a with
  | AWrite _ _ | AUpdate _ _ _ => 1
  | AEmit e => if is_bus_event e then 1 else 0
  end.

Definition tx_max (a : access) : nat :=
  match a with
  | AWrite reg _ => if (reg <? 0x100) || (reg >=? 0x600) then 1 else 2
  | AUpdate reg _ _ => if (reg <? 0x100) || (reg >=? 0x600) then 2 else 4
  | AEmit e => if is_bus_event e then 1 else 0
  end.

(** The number of bus transactions of an access on a bus without
    errors, at least. *)
Definition tx_clean (a : access) : nat :=
  match a with
  | AWrite reg _ => if (reg <? 0x100) || (reg >=? 0x600) then 1 else 2
  | AUpdate reg _ _ => if (reg <? 0x100) || (reg >=? 0x600) then 1 else 2
  | AEmit e => if is_bus_event e then 1 else 0
  end.

Definition sum_nat (l : list nat) : nat := fold_right Nat.add 0%nat l.

(** Bring-up up to the two closing read-modify-writes, and bring-up
    after the software reset. *)
Definition before_pipe_accesses (mipi : mipi_display)
           (d : tc358768_drv_data) : list access :=
  (if reset_gpio d then [AEmit (GpioSet 1)] else [])
  ++ AEmit (Usleep 1000 2000) :: reset_accesses ++ pll_accesses d
  ++ format_accesses ++ phy_accesses ++ timing_accesses
  ++ xfer_short_accesses (MIPI_DSI_DCS_SHORT_WRITE mipi)
                         (MIPI_DCS_EXIT_SLEEP_MODE mipi) 0
  ++ start_accesses ++ video_accesses d ++ confw_accesses.

Definition after_reset_accesses (mipi : mipi_display)
           (d : tc358768_drv_data) : list access :=
  pll_accesses d ++ format_accesses ++ phy_accesses ++ timing_accesses
  ++ xfer_short_accesses (MIPI_DSI_DCS_SHORT_WRITE mipi)
                         (MIPI_DCS_EXIT_SLEEP_MODE mipi) 0
  ++ start_accesses ++ video_accesses d ++ confw_accesses
  ++ pipe_accesses ++ panel_accesses mipi.

(** The reset line is the only thing this view shows. *)
Definition gpio_view : event -> bool := reg_view (fun _ => false) is_gpio.

(** * Proofs *)

(** ** Machine integers *)

Lemma wrap32_range (x : Z) : 0 <= wrap32 x < 2 ^ 32.
Proof. unfold wrap32. apply Z.mod_pos_bound. lia. Qed.

Lemma wrap32_small (x : Z) : 0 <= x < 2 ^ 32 -> wrap32 x = x.
Proof. intros H. unfold wrap32. now apply Z.mod_small. Qed.

Lemma wrap64_small (x : Z) : 0 <= x < 2 ^ 64 -> wrap64 x = x.
Proof. intros H. unfold wrap64. now apply Z.mod_small. Qed.

Lemma wrap16_range (x : Z) : 0 <= wrap16 x < 2 ^ 16.
Proof. unfold wrap16. apply Z.mod_pos_bound. lia. Qed.

Lemma wrap16_small (x : Z) : 0 <= x < 2 ^ 16 -> wrap16 x = x.
Proof. intros H. unfold wrap16. now apply Z.mod_small. Qed.

Lemma pll_diff_abs (pll t : Z) :
  0 <= pll < 2 ^ 32 -> 0 <= t < 2 ^ 32 -> pll_diff pll t = Z.abs (pll - t).
Proof.
  intros Hp Ht. unfold pll_diff. rewrite wrap32_small; lia.
Qed.

(** Range of a numeral. *)
Ltac u32_const :=
  unfold is_u32; vm_compute; split; [discriminate | reflexivity].

(** ** Bracket selection *)

(** Settles the integer tests of the goal from the hypotheses. *)
Ltac decide_tests :=
  rewrite ?Z.geb_leb;
  repeat match goal with
  | |- context [?a <? ?b] =>
      first [ replace (a <? b) with true by (symmetry; apply Z.ltb_lt; lia)
            | replace (a <? b) with false by (symmetry; apply Z.ltb_ge; lia) ]
  | |- context [?a <=? ?b] =>
      first [ replace (a <=? b) with true by (symmetry; apply Z.leb_le; lia)
            | replace (a <=? b) with false by (symmetry; apply Z.leb_gt; lia) ]
  | |- context [?a =? ?b] =>
      first [ replace (a =? b) with true by (symmetry; apply Z.eqb_eq; lia)
            | replace (a =? b) with false by (symmetry; apply Z.eqb_neq; lia) ]
  end.

Lemma select_frs_cases (t : Z) :
  (500000000 <= t < 1000000000
   /\ select_frs t = mk_frs_choice 0 1000000000 500000000)
  \/ (250000000 <= t < 500000000
      /\ select_frs t = mk_frs_choice 1 500000000 250000000)
  \/ (125000000 <= t < 250000000
      /\ select_frs t = mk_frs_choice 2 250000000 125000000)
  \/ (62500000 <= t < 125000000
      /\ select_frs t = mk_frs_choice 3 125000000 62500000)
  \/ ((t < 62500000 \/ 1000000000 <= t)
      /\ select_frs t = mk_frs_choice UINT_MAX 0 0).
Proof.
  unfold select_frs. cbn [length frs_limits Nat.sub frs_loop].
  change (frs_limit 0) with 1000000000.
  change (frs_limit (0 + 1)) with 500000000.
  change (frs_limit (0 + 1 + 1)) with 250000000.
  change (frs_limit (0 + 1 + 1 + 1)) with 125000000.
  change (frs_limit (0 + 1 + 1 + 1 + 1)) with 62500000.
  change (0 + 1 + 1 + 1) with 3. change (0 + 1 + 1) with 2.
  change (0 + 1) with 1.
  assert (C : 500000000 <= t < 1000000000 \/ 250000000 <= t < 500000000
              \/ 125000000 <= t < 250000000 \/ 62500000 <= t < 125000000
              \/ (t < 62500000 \/ 1000000000 <= t)) by lia.
  destruct C as [C | [C | [C | [C | [C | C]]]]]; decide_tests; cbn [andb];
    auto 10.
Qed.

(** ** Divider search *)

Lemma pll_candidate_range (r s p f : Z) : 0 <= pll_candidate r s p f < 2 ^ 32.
Proof. apply wrap32_range. Qed.

Lemma loop_le_or_before (p f p' f' : Z) :
  loop_le p f p' f' \/ loop_before p' f' p f.
Proof. unfold loop_le, loop_before. lia. Qed.

Section SearchFacts.
Variables (refclk_hz frs max_pll min_pll target_pll : Z).
Hypothesis min_pos : 0 < min_pll.
Hypothesis max_u32 : max_pll <= UINT_MAX.
Hypothesis target_u32 : 0 <= target_pll < 2 ^ 32.

Local Abbreviation c := (cand refclk_hz frs).
Local Abbreviation dst := (dist refclk_hz frs target_pll).
Local Abbreviation ok := (usable refclk_hz frs max_pll min_pll).
Local Abbreviation sums :=
  (summarises refclk_hz frs max_pll min_pll target_pll).
Local Abbreviation inner :=
  (fbd_loop refclk_hz frs max_pll min_pll target_pll).
Local Abbreviation outer :=
  (prd_loop refclk_hz frs max_pll min_pll target_pll).

Lemma dist_nonneg (p f : Z) : 0 <= dst p f.
Proof. unfold dist. lia. Qed.

Lemma usable_diff (p f : Z) :
  ok p f ->
  pll_diff (c p f) target_pll = dst p f /\ dst p f < UINT_MAX.
Proof.
  unfold usable, in_bracket, dist. intros H.
  pose proof (pll_candidate_range refclk_hz frs p f) as R.
  unfold cand in *. rewrite pll_diff_abs by lia.
  unfold UINT_MAX in *. lia.
Qed.

(** Introduction of the second case of [summarises]. *)
Lemma sums_best (V : Z -> Z -> Prop) (st : pll_search) :
  V (best_prd st) (best_fbd st) ->
  ok (best_prd st) (best_fbd st) ->
  best_pll st = c (best_prd st) (best_fbd st) ->
  best_diff st = dst (best_prd st) (best_fbd st) ->
  (forall p f, V p f -> ok p f -> best_diff st <= dst p f) ->
  (forall p f, V p f -> ok p f -> dst p f = best_diff st ->
               loop_le (best_prd st) (best_fbd st) p f) ->
  sums V st.
Proof.
  intros A B C D E G. right.
  refine (conj A (conj B (conj C (conj D _)))).
  intros p f Hv Hu. split; [now apply E | now apply G].
Qed.

Lemma sums_ext (V W : Z -> Z -> Prop) (st st' : pll_search) :
  (forall p f, W p f <-> V p f) ->
  best_diff st' = best_diff st -> best_pll st' = best_pll st ->
  best_prd st' = best_prd st -> best_fbd st' = best_fbd st ->
  sums V st -> sums W st'.
Proof.
  intros HV E1 E2 E3 E4 [[A B] | (A & B & C & D & E)].
  - left. split; [congruence |]. intros p f Hp. apply B. now apply HV.
  - apply sums_best; rewrite ?E1, ?E2, ?E3, ?E4; try assumption.
    + now apply HV.
    + intros p f Hv Hu. apply E; [now apply HV | assumption].
    + intros p f Hv Hu. apply E; [now apply HV | assumption].
Qed.

Lemma visited_next (P F p f : Z) :
  0 <= P < 16 -> 0 <= F < 512 ->
  visited P (F + 1) p f <-> visited P F p f \/ (p = P /\ f = F).
Proof. unfold visited, in_grid, loop_before. lia. Qed.

Lemma visited_row (P p f : Z) :
  visited (P + 1) 0 p f <-> visited P 512 p f.
Proof. unfold visited, in_grid, loop_before. lia. Qed.

(** A pair outside the bracket changes nothing. *)
Lemma sums_skip (P F : Z) (st : pll_search) :
  0 <= P < 16 -> 0 <= F < 512 ->
  ~ ok P F -> sums (visited P F) st -> sums (visited P (F + 1)) st.
Proof.
  intros HP HF Hno [[A B] | (A & B & C & D & E)].
  - left. split; [exact A |]. intros p f Hv.
    apply visited_next in Hv; try assumption.
    destruct Hv as [Hv | [-> ->]]; [now apply B | exact Hno].
  - apply sums_best; try assumption.
    + apply visited_next; auto.
    + intros p f Hv Hu. apply visited_next in Hv; try assumption.
      destruct Hv as [Hv | [-> ->]]; [now apply E | contradiction].
    + intros p f Hv Hu. apply visited_next in Hv; try assumption.
      destruct Hv as [Hv | [-> ->]]; [now apply E | contradiction].
Qed.

(** A usable pair that is not strictly closer leaves the best as it is. *)
Lemma sums_keep (P F : Z) (st : pll_search) :
  0 <= P < 16 -> 0 <= F < 512 ->
  ok P F -> best_diff st <= dst P F ->
  sums (visited P F) st -> sums (visited P (F + 1)) st.
Proof.
  intros HP HF Hok Hle [[A B] | (A & B & C & D & E)].
  - destruct (usable_diff P F Hok) as [_ Hlt]. lia.
  - apply sums_best; try assumption.
    + apply visited_next; auto.
    + intros p f Hv Hu. apply visited_next in Hv; try assumption.
      destruct Hv as [Hv | [-> ->]]; [now apply E | exact Hle].
    + intros p f Hv Hu. apply visited_next in Hv; try assumption.
      destruct Hv as [Hv | [-> ->]]; [now apply E |].
      intros _. destruct A as [_ A]. unfold loop_before, loop_le in *. lia.
Qed.

(** A strictly closer usable pair becomes the best. *)
Lemma sums_take (P F : Z) (st : pll_search) (lp lf : Z) :
  0 <= P < 16 -> 0 <= F < 512 ->
  ok P F -> dst P F < best_diff st ->
  sums (visited P F) st ->
  sums (visited P (F + 1)) (mk_pll_search (dst P F) (c P F) P F lp lf).
Proof.
  intros HP HF Hok Hlt Hs.
  apply sums_best; cbn [best_diff best_pll best_prd best_fbd];
    try assumption; try reflexivity.
  - unfold visited, in_grid, loop_before; lia.
  - intros p f Hv Hu. apply visited_next in Hv; try assumption.
    destruct Hv as [Hv | [-> ->]]; [| lia].
    destruct Hs as [[A B] | (A & B & C & D & E)].
    + exfalso. exact (B p f Hv Hu).
    + destruct (E p f Hv Hu). lia.
  - intros p f Hv Hu. apply visited_next in Hv; try assumption.
    destruct Hv as [Hv | [-> ->]]; [| intros _; unfold loop_le; lia].
    destruct Hs as [[A B] | (A & B & C & D & E)].
    + exfalso. exact (B p f Hv Hu).
    + destruct (E p f Hv Hu). lia.
Qed.

Lemma usable_test (p f : Z) :
  ((c p f >=? max_pll) || (c p f <? min_pll) = false) <-> ok p f.
Proof.
  unfold usable, in_bracket. rewrite orb_false_iff, Z.geb_leb.
  rewrite Z.leb_gt, Z.ltb_ge. lia.
Qed.

(** The inner loop, started at [F] with the pairs before [(P, F)]
    summarised: it stops on an exact match, which is then the best, or
    runs the row to its end. *)
Lemma fbd_loop_spec (P : Z) (HP : 0 <= P < 16) (n : nat) :
  forall (F : Z) (st : pll_search),
    0 <= F -> F + Z.of_nat n = 512 ->
    best_diff st <> 0 -> sums (visited P F) st ->
    let st' := inner P n F st in
    loop_prd st' = loop_prd st
    /\ ((best_diff st' = 0 /\ best_prd st' = P
         /\ best_fbd st' = loop_fbd st' /\ F <= loop_fbd st' < 512
         /\ sums (visited P (loop_fbd st' + 1)) st')
        \/ (best_diff st' <> 0 /\ loop_fbd st' = 512
            /\ sums (visited P 512) st')).
Proof.
  induction n as [| n IH]; intros F st HF Hn Hnz Hs; cbn [fbd_loop].
  - cbn zeta. split; [reflexivity |]. right.
    cbn [at_fbd best_diff loop_fbd].
    split; [assumption | split; [lia |]].
    replace 512 with F by lia.
    revert Hs. apply sums_ext; try reflexivity; tauto.
  - assert (HF' : 0 <= F < 512) by lia.
    fold (c P F).
    destruct ((c P F >=? max_pll) || (c P F <? min_pll)) eqn:T.
    + assert (Hno : ~ ok P F).
      { intros Hok. apply usable_test in Hok. congruence. }
      destruct (IH (F + 1) st) as [E R]; try lia.
      { now apply sums_skip. }
      split; [exact E |].
      destruct R as [(A & B & C & D & G) | R]; [left | right; exact R].
      refine (conj A (conj B (conj C (conj _ G)))). lia.
    + apply usable_test in T. destruct (usable_diff P F T) as [Ed Hlt].
      rewrite Ed.
      destruct (dst P F <? best_diff st) eqn:L.
      * apply Z.ltb_lt in L. cbn [best_diff].
        pose proof (sums_take P F st (loop_prd st) (loop_fbd st)
                              HP HF' T L Hs) as Hs'.
        destruct (dst P F =? 0) eqn:Z0.
        -- apply Z.eqb_eq in Z0. cbn zeta.
           cbn [at_fbd best_diff best_prd best_fbd loop_prd loop_fbd].
           split; [reflexivity |]. left.
           refine (conj Z0 (conj eq_refl (conj eq_refl (conj _ _)))).
           ++ lia.
           ++ revert Hs'. apply sums_ext; try reflexivity; tauto.
        -- apply Z.eqb_neq in Z0.
           destruct (IH (F + 1)
                        (mk_pll_search (dst P F) (c P F) P F
                                       (loop_prd st) (loop_fbd st)))
             as [E R]; try lia; try assumption.
           split; [exact E |].
           destruct R as [(A & B & C & D & G) | R]; [left | right; exact R].
           refine (conj A (conj B (conj C (conj _ G)))). lia.
      * apply Z.ltb_ge in L.
        replace (best_diff st =? 0) with false
          by (symmetry; now apply Z.eqb_neq).
        destruct (IH (F + 1) st) as [E R]; try lia.
        { now apply sums_keep. }
        split; [exact E |].
        destruct R as [(A & B & C & D & G) | R]; [left | right; exact R].
        refine (conj A (conj B (conj C (conj _ G)))). lia.
Qed.
Lemma sums_all_of_match (P F : Z) (st : pll_search) :
  best_diff st = 0 -> best_prd st = P -> best_fbd st = F ->
  sums (visited P (F + 1)) st -> sums in_grid st.
Proof.
  intros Z0 EP EF [[A B] | (A & B & C & D & E)].
  - unfold UINT_MAX in A. lia.
  - apply sums_best; try assumption.
    + apply A.
    + intros p f _ _. rewrite Z0. apply dist_nonneg.
    + intros p f Hg Hu Hd.
      destruct (loop_le_or_before (best_prd st) (best_fbd st) p f)
        as [L | L]; [exact L |].
      apply E; try assumption.
      split; [exact Hg |]. rewrite EP, EF in L.
      unfold loop_before in *. lia.
Qed.

Lemma prd_loop_spec (n : nat) :
  forall (P : Z) (st : pll_search),
    0 <= P -> P + Z.of_nat n = 16 ->
    best_diff st <> 0 -> (P = 0 \/ loop_fbd st = 512) ->
    (0 < n)%nat ->
    sums (visited P 0) st ->
    let st' := outer n P st in
    sums in_grid st' /\ (stopped_at_match st' \/ ran_to_end st').
Proof.
  induction n as [| n IH]; intros P st HP Hn Hnz Hf Hpos Hs; [lia |].
  cbn [prd_loop]. cbn zeta.
  assert (HP' : 0 <= P < 16) by lia.
  assert (Hs0 : sums (visited P 0) (at_prd st P)).
  { revert Hs. apply sums_ext; try reflexivity; tauto. }
  destruct (fbd_loop_spec P HP' 512 0 (at_prd st P)) as [E R];
    try lia; try assumption.
  set (st1 := inner P 512 0 (at_prd st P)) in *.
  cbn [at_prd loop_prd] in E.
  destruct R as [(A & B & C & D & G) | (A & B & G)].
  - replace (best_diff st1 =? 0) with true
      by (symmetry; now apply Z.eqb_eq).
    split.
    + now apply (sums_all_of_match P (loop_fbd st1)).
    + left. unfold stopped_at_match, in_grid. rewrite E. intuition lia.
  - replace (best_diff st1 =? 0) with false
      by (symmetry; now apply Z.eqb_neq).
    assert (G' : sums (visited (P + 1) 0) st1).
    { revert G. apply sums_ext; try reflexivity. apply visited_row. }
    destruct n as [| n'].
    + cbn [prd_loop]. split.
      * revert G'. apply sums_ext; try reflexivity.
        intros p f. unfold visited, in_grid, loop_before. lia.
      * right. unfold ran_to_end.
        cbn [at_prd best_diff loop_prd loop_fbd]. intuition lia.
    + apply IH; try lia; assumption.
Qed.

Lemma pll_search_run_spec :
  let st := pll_search_run refclk_hz frs max_pll min_pll target_pll in
  sums in_grid st /\ (stopped_at_match st \/ ran_to_end st).
Proof.
  unfold pll_search_run. apply prd_loop_spec; try lia.
  - cbn [best_diff]. unfold UINT_MAX. lia.
  - left. split; [reflexivity |].
    intros p f [Hg Hb]. unfold in_grid, loop_before in *. lia.
Qed.
End SearchFacts.

(** ** The solver as a whole *)

Lemma pclk_to_pll_range (d : tc358768_drv_data) :
  0 <= tc358768_pclk_to_pll d < 2 ^ 32.
Proof. apply wrap32_range. Qed.

Lemma select_frs_found (t : Z) :
  ch_frs (select_frs t) <> UINT_MAX ->
  0 <= ch_frs (select_frs t) < 4
  /\ ch_max_pll (select_frs t) = frs_limit (ch_frs (select_frs t))
  /\ ch_min_pll (select_frs t) = frs_limit (ch_frs (select_frs t) + 1)
  /\ 0 < ch_min_pll (select_frs t)
  /\ ch_max_pll (select_frs t) <= UINT_MAX
  /\ ch_min_pll (select_frs t) <= t < ch_max_pll (select_frs t).
Proof.
  destruct (select_frs_cases t)
    as [[R E] | [[R E] | [[R E] | [[R E] | [R E]]]]];
    rewrite E; cbn [ch_frs ch_max_pll ch_min_pll]; intros H;
    try (now contradiction H);
    unfold UINT_MAX; repeat split; try reflexivity; lia.
Qed.

(** The three exits of [tc358768_calc_pll], with what the search
    established on the last two. *)
Lemma calc_pll_cases (d : tc358768_drv_data) :
  let t := tc358768_pclk_to_pll d in
  let ch := select_frs t in
  let st := pll_search_run (refclk d) (ch_frs ch) (ch_max_pll ch)
                           (ch_min_pll ch) t in
  (ch_frs ch = UINT_MAX /\ tc358768_calc_pll d = PllErr OutOfRange)
  \/ (ch_frs ch <> UINT_MAX
      /\ summarises (refclk d) (ch_frs ch) (ch_max_pll ch) (ch_min_pll ch) t
                    in_grid st
      /\ (stopped_at_match st \/ ran_to_end st)
      /\ ((best_diff st = UINT_MAX
           /\ tc358768_calc_pll d = PllErr NoSolution)
          \/ (best_diff st <> UINT_MAX
              /\ tc358768_calc_pll d =
                 PllOk (set_pll d (best_fbd st) (best_prd st) (ch_frs ch)
                                (best_pll st / 2))))).
Proof.
  intros t ch st. unfold tc358768_calc_pll. fold t. fold ch. fold st.
  destruct (ch_frs ch =? UINT_MAX) eqn:E.
  - left. apply Z.eqb_eq in E. now split.
  - right. apply Z.eqb_neq in E. split; [exact E |].
    destruct (select_frs_found t E) as (_ & _ & _ & Hmin & Hmax & _).
    destruct (pll_search_run_spec (refclk d) (ch_frs ch) (ch_max_pll ch)
                (ch_min_pll ch) t Hmin Hmax (pclk_to_pll_range d))
      as [S R].
    split; [exact S |]. split; [exact R |].
    destruct (best_diff st =? UINT_MAX) eqn:B.
    + left. apply Z.eqb_eq in B. now split.
    + right. apply Z.eqb_neq in B. now split.
Qed.

(** On the sentinel the search has seen no usable pair; otherwise its
    best is usable. *)
Lemma summarises_sentinel (r s mx mn t : Z) (V : Z -> Z -> Prop)
      (st : pll_search) :
  0 < mn -> mx <= UINT_MAX -> 0 <= t < 2 ^ 32 ->
  summarises r s mx mn t V st ->
  (best_diff st = UINT_MAX <-> forall p f, V p f -> ~ usable r s mx mn p f).
Proof.
  intros Hmn Hmx Ht [[A B] | (A & B & C & D & E)].
  - tauto.
  - destruct (usable_diff r s mx mn t Hmn Hmx Ht _ _ B) as [_ L].
    split; [lia |]. intros N. exfalso. exact (N _ _ A B).
Qed.

(** What a successful solver run guarantees about the values the code
    computes: the dividers are in range, the 32-bit candidate frequency
    of the chosen pair lies in the selected bracket and [bitclk] is half
    of it. *)
Lemma calc_pll_ok (d d' : tc358768_drv_data) :
  tc358768_calc_pll d = PllOk d' ->
  let ch := select_frs (tc358768_pclk_to_pll d) in
  let pll := pll_candidate (refclk d) (frs d') (prd d') (fbd d') in
  ch_frs ch <> UINT_MAX /\ frs d' = ch_frs ch /\ 0 <= frs d' < 4
  /\ in_grid (prd d') (fbd d')
  /\ ch_min_pll ch <= pll < ch_max_pll ch
  /\ bitclk d' = pll / 2
  /\ d' = set_pll d (fbd d') (prd d') (frs d') (bitclk d').
Proof.
  intros H ch pll.
  destruct (calc_pll_cases d) as [[_ E] | (F & S & _ & [[_ E] | [B E]])];
    try congruence.
  rewrite E in H. injection H as <-. subst pll. fold ch in F, S, B |- *.
  cbn [set_pll fbd prd frs bitclk].
  destruct (select_frs_found _ F) as (R & _ & _ & Hmin & Hmax & _).
  fold ch in R, Hmin, Hmax.
  destruct S as [[A _] | (A & U & C & _)]; [congruence |].
  unfold usable, in_bracket, cand in U. rewrite C.
  unfold cand. repeat split; try assumption; try lia; apply A.
Qed.

(** The divisions of a solver run that succeeds, and of the bring-up
    that follows it, have non-zero divisors. *)
Lemma pll_divisor_pos (frs prd : Z) :
  0 <= frs < 4 -> 0 <= prd < 16 -> 0 < pll_divisor frs prd.
Proof.
  intros Hf Hp. unfold pll_divisor.
  rewrite (wrap32_small (prd + 1)) by lia.
  assert (F : frs = 0 \/ frs = 1 \/ frs = 2 \/ frs = 3) by lia.
  destruct F as [-> | [-> | [-> | ->]]]; cbn [Z.shiftl Pos.iter];
    rewrite wrap32_small; lia.
Qed.

Lemma calc_pll_ok_divisors (d d' : tc358768_drv_data) :
  tc358768_calc_pll d = PllOk d' ->
  pixelclock d' <> 0 /\ dpi_ndl d' <> 0 /\ wrap32 (8 * dsi_ndl d') <> 0.
Proof.
  intros H. destruct (calc_pll_ok d d' H) as (F & _ & _ & _ & _ & _ & E).
  destruct (select_frs_found _ F) as (_ & _ & _ & Hmin & _ & Ht).
  assert (T : tc358768_pclk_to_pll d <> 0).
  { destruct (select_frs_cases (tc358768_pclk_to_pll d))
      as [[R X] | [[R X] | [[R X] | [[R X] | [R X]]]]];
      rewrite X in Hmin, Ht, F; cbn [ch_frs ch_min_pll ch_max_pll] in *;
      lia. }
  rewrite E. cbn [set_pll pixelclock dpi_ndl dsi_ndl].
  unfold tc358768_pclk_to_pll, div_u64 in T.
  repeat split; intros Z0; apply T; rewrite Z0.
  - reflexivity.
  - now rewrite Z.mul_0_r.
  - now rewrite Z.div_0_r.
Qed.

(** ** Claims on the clock solver *)

(** C1 (defect in the code).  A solver run that succeeds should return
    dividers whose frequency [refclk * (fbd + 1) / ((prd + 1) * 2^frs)]
    lies in the selected bracket, with [bitclk] half of it.  With the
    probe's reference clock and lanes and a 99 MHz pixel clock the
    solver returns [fbd = 504], [prd = 3], [frs = 0]: that frequency is
    4,889,031,250 Hz, outside [500e6, 1e9), and [bitclk] is half of its
    low 32 bits. *)
Theorem calc_pll_accepts_wrapped_frequency :
  valid_config data_99mhz /\ drv_data_u32 data_99mhz
  /\ exists d',
      tc358768_calc_pll data_99mhz = PllOk d'
      /\ fbd d' = 504 /\ prd d' = 3 /\ frs d' = 0
      /\ pll_formula (refclk d') (fbd d') (prd d') (frs d') = 4889031250
      /\ ~ (500000000 <= 4889031250 < 1000000000)
      /\ bitclk d' = 297031977
      /\ bitclk d' <> 4889031250 / 2
      /\ bitclk d' = wrap32 4889031250 / 2.
Proof.
  split; [unfold valid_config; cbn; lia |].
  split; [constructor; unfold is_u32; cbn; lia |].
  exists (set_pll data_99mhz 504 3 0 297031977).
  split; [vm_compute; reflexivity |].
  cbn [set_pll fbd prd frs bitclk refclk data_99mhz].
  split; [reflexivity |]. split; [reflexivity |]. split; [reflexivity |].
  split; [vm_compute; reflexivity |]. split; [lia |].
  split; [reflexivity |]. split; vm_compute; [discriminate | reflexivity].
Qed.

(** The probe's configuration: the target is 929,400,000 Hz, in the
    bracket of index 0, matched exactly by [fbd = 23], [prd = 0], and
    [bitclk] is half of it. *)
Example probe_scenario :
  tc358768_pclk_to_pll probe_data = 929400000
  /\ select_frs 929400000 = mk_frs_choice 0 1000000000 500000000
  /\ tc358768_calc_pll probe_data
     = PllOk (set_pll probe_data 23 0 0 464700000)
  /\ pll_formula (refclk probe_data) 23 0 0 = 929400000.
Proof. repeat split; vm_compute; reflexivity. Qed.



(** The search on the values the code compares.  Once a bracket is
    selected, the divider search returns the pair whose 32-bit candidate
    (line 294) is in the bracket and closest to the target, the first
    one in loop order among equally close ones; an exact match leaves
    both loops at the pair where it is found; without any exact match
    the loops visit the whole grid; without any candidate in the bracket
    the solver fails on its no-solution exit. *)
Lemma calc_pll_closest_first (d : tc358768_drv_data) :
  let t := tc358768_pclk_to_pll d in
  let ch := select_frs t in
  let r := refclk d in
  let s := ch_frs ch in
  let mx := ch_max_pll ch in
  let mn := ch_min_pll ch in
  let st := pll_search_run r s mx mn t in
  ch_frs ch <> UINT_MAX ->
  ((forall p f, in_grid p f -> ~ usable r s mx mn p f) ->
   tc358768_calc_pll d = PllErr NoSolution)
  /\ (forall p0 f0, in_grid p0 f0 -> usable r s mx mn p0 f0 ->
      exists d', tc358768_calc_pll d = PllOk d'
                 /\ closest_first r s mx mn t (prd d') (fbd d'))
  /\ (forall p f, in_grid p f -> cand r s p f = t ->
      (forall p' f', in_grid p' f' -> loop_before p' f' p f ->
                     cand r s p' f' <> t) ->
      loop_prd st = p /\ loop_fbd st = f
      /\ best_prd st = p /\ best_fbd st = f)
  /\ ((forall p f, in_grid p f -> cand r s p f <> t) ->
      loop_prd st = 16 /\ loop_fbd st = 512).
Proof.
  intros t ch r s mx mn st F.
  destruct (select_frs_found _ F) as (_ & _ & _ & Hmin & Hmax & Ht).
  fold t in Ht. fold ch in Ht, Hmin, Hmax. fold mx in Ht, Hmax.
  fold mn in Ht, Hmin.
  assert (Hu : 0 <= t < 2 ^ 32) by apply pclk_to_pll_range.
  destruct (calc_pll_cases d) as [[E _] | (_ & S & R & X)];
    [now contradiction F |].
  fold t in S, R, X. fold ch in S, R, X.
  fold r in S, R, X. fold s in S, R, X. fold mx in S, R, X.
  fold mn in S, R, X. fold st in S, R, X.
  pose proof (summarises_sentinel r s mx mn t in_grid st Hmin Hmax Hu S)
    as Sent.
  split; [| split; [| split]].
  - intros Hno. apply (proj2 Sent) in Hno.
    destruct X as [[_ E] | [B _]]; [exact E | contradiction].
  - intros p0 f0 Hg0 Hu0.
    destruct X as [[B _] | [B E]].
    { exfalso. exact (proj1 Sent B p0 f0 Hg0 Hu0). }
    eexists. split; [exact E |]. cbn [set_pll prd fbd].
    destruct S as [[A _] | (A & U & C & D & G)]; [contradiction |].
    split; [exact A |]. split; [exact U |].
    intros p f Hg Hp. rewrite <- D. now apply G.
  - intros p f Hg Hc Hfirst.
    assert (Hp : usable r s mx mn p f).
    { unfold usable, in_bracket. rewrite Hc. exact Ht. }
    assert (Hd : dist r s t p f = 0) by (unfold dist; rewrite Hc; lia).
    destruct S as [[_ A] | (A & U & C & D & G)].
    { exfalso. exact (A p f Hg Hp). }
    destruct (G p f Hg Hp) as [G1 G2].
    pose proof (dist_nonneg r s t (best_prd st) (best_fbd st)) as Hnn.
    assert (Z0 : best_diff st = 0) by lia.
    assert (L : loop_le (best_prd st) (best_fbd st) p f)
      by (apply G2; lia).
    assert (Hb : cand r s (best_prd st) (best_fbd st) = t).
    { rewrite D in Z0. unfold dist in Z0. lia. }
    assert (N : ~ loop_before (best_prd st) (best_fbd st) p f).
    { intros B. exact (Hfirst _ _ A B Hb). }
    assert (Q : best_prd st = p /\ best_fbd st = f).
    { unfold loop_le, loop_before in *. lia. }
    destruct R as [(_ & _ & R1 & R2) | (R1 & _)]; [| contradiction].
    rewrite <- R1, <- R2. tauto.
  - intros Hnone.
    destruct R as [(Z0 & _ & _ & _) | (_ & R1 & R2)]; [| now split].
    exfalso.
    destruct S as [[A _] | (A & U & C & D & G)].
    { unfold UINT_MAX in A. lia. }
    apply (Hnone _ _ A). rewrite D in Z0. unfold dist in Z0. lia.
Qed.

Lemma calc_pll_closest_first_witness :
  exists d', tc358768_calc_pll probe_data = PllOk d'
             /\ closest_first (refclk probe_data) 0 1000000000 500000000
                              929400000 (prd d') (fbd d').
Proof.
  assert (F : ch_frs (select_frs (tc358768_pclk_to_pll probe_data))
              <> UINT_MAX) by (vm_compute; discriminate).
  destruct (calc_pll_closest_first probe_data F) as (_ & B & _).
  apply (B 0 23).
  - unfold in_grid. lia.
  - vm_compute. split; [discriminate | reflexivity].
Defined.

Lemma grid_all_spec (P : Z -> Z -> bool) :
  grid_all P = true -> forall p f, in_grid p f -> P p f = true.
Proof.
  intros H p f [Hp Hf]. unfold grid_all in H. rewrite forallb_forall in H.
  assert (H1 : forallb (fun f0 => P (Z.of_nat (Z.to_nat p)) (Z.of_nat f0))
                       (seq 0 512) = true).
  { apply H. apply in_seq. lia. }
  rewrite forallb_forall in H1.
  assert (H2 : P (Z.of_nat (Z.to_nat p)) (Z.of_nat (Z.to_nat f)) = true).
  { apply H1. apply in_seq. lia. }
  now rewrite !Z2Nat.id in H2 by lia.
Qed.

Lemma formula_not_closer_spec (r s mx mn t bp bf p f : Z) :
  formula_not_closer r s mx mn t bp bf p f = true ->
  in_bracket mn mx (pll_formula r f p s) ->
  Z.abs (pll_formula r bf bp s - t) <= Z.abs (pll_formula r f p s - t)
  /\ (Z.abs (pll_formula r f p s - t) = Z.abs (pll_formula r bf bp s - t)
      -> loop_le bp bf p f).
Proof.
  unfold formula_not_closer, in_bracket, loop_le. cbv zeta.
  set (c := pll_formula r f p s). set (b := pll_formula r bf bp s).
  intros H [B1 B2].
  apply orb_true_iff in H. destruct H as [H | H].
  - apply negb_true_iff, andb_false_iff in H.
    destruct H as [H | H]; [apply Z.leb_gt in H | apply Z.ltb_ge in H]; lia.
  - apply orb_true_iff in H. destruct H as [H | H].
    + apply Z.ltb_lt in H. split; [lia |]. intros E. lia.
    + apply andb_true_iff in H. destruct H as [E H]. apply Z.eqb_eq in E.
      split; [lia |]. intros _.
      apply orb_true_iff in H. destruct H as [H | H].
      * apply Z.ltb_lt in H. now left.
      * apply andb_true_iff in H. destruct H as [H1 H2].
        apply Z.eqb_eq in H1. apply Z.leb_le in H2. now right.
Qed.

(** C4 (defect in the code).  The search should return, among the pairs
    of the grid whose frequency [refclk * (fbd + 1) / ((prd + 1) * 2^frs)]
    lies in the bracket, the one closest to the target, the first in
    loop order among equally close ones.  With the probe's reference
    clock and lanes and a 99 MHz pixel clock the target is 594,000,000
    Hz in the bracket [500e6, 1e9); that pair is [prd = 2], [fbd = 45]
    at 593,783,333 Hz.  The solver returns [prd = 3], [fbd = 504]
    instead: its frequency is 4,889,031,250 Hz, not in the bracket, and
    only its low 32 bits (594,063,954) are close to the target. *)
Theorem calc_pll_prefers_wrapped_candidate :
  let d := data_99mhz in
  let t := tc358768_pclk_to_pll d in
  valid_config d /\ drv_data_u32 d
  /\ t = 594000000
  /\ select_frs t = mk_frs_choice 0 1000000000 500000000
  /\ pll_formula (refclk d) 45 2 0 = 593783333
  /\ formula_closest_first (refclk d) 0 1000000000 500000000 t 2 45
  /\ exists d',
       tc358768_calc_pll d = PllOk d'
       /\ prd d' = 3 /\ fbd d' = 504 /\ frs d' = 0
       /\ pll_formula (refclk d) (fbd d') (prd d') (frs d') = 4889031250
       /\ pll_candidate (refclk d) (frs d') (prd d') (fbd d') = 594063954
       /\ ~ in_bracket 500000000 1000000000
                       (pll_formula (refclk d) (fbd d') (prd d') (frs d'))
       /\ ~ formula_closest_first (refclk d) 0 1000000000 500000000 t
                                  (prd d') (fbd d').
Proof.
  intros d t.
  assert (T : t = 594000000) by (vm_compute; reflexivity).
  split; [unfold valid_config; cbn; lia |].
  split; [constructor; unfold is_u32; cbn; lia |].
  split; [exact T |]. rewrite T.
  split; [vm_compute; reflexivity |].
  split; [vm_compute; reflexivity |].
  split.
  { unfold formula_closest_first.
    refine (conj _ (conj _ _)).
    - unfold in_grid. lia.
    - vm_compute. split; [discriminate | reflexivity].
    - intros p f G B.
      apply (formula_not_closer_spec _ _ _ _ _ _ _ _ _
               (grid_all_spec
                  (formula_not_closer (refclk d) 0 1000000000 500000000
                                      594000000 2 45)
                  ltac:(vm_compute; reflexivity) p f G) B). }
  exists (set_pll data_99mhz 504 3 0 297031977).
  split; [vm_compute; reflexivity |].
  cbn [set_pll fbd prd frs bitclk].
  split; [reflexivity |]. split; [reflexivity |]. split; [reflexivity |].
  assert (F : pll_formula (refclk d) 504 3 0 = 4889031250)
    by (vm_compute; reflexivity).
  split; [exact F |].
  split; [vm_compute; reflexivity |].
  rewrite F. split.
  - unfold in_bracket. lia.
  - intros (_ & B & _). rewrite F in B. unfold in_bracket in B. lia.
Qed.

(** ** Claims on the clock transforms *)

(** Both transforms without wrap-around, for a configuration whose
    scaled clocks fit 32 bits. *)
Lemma pclk_to_pll_exact (d : tc358768_drv_data) :
  drv_data_u32 d -> 0 < dsi_ndl d -> 8 * dsi_ndl d < 2 ^ 32 ->
  pixelclock d * dpi_ndl d / (8 * dsi_ndl d) < 2 ^ 29 ->
  tc358768_pclk_to_pll d
  = pixelclock d * dpi_ndl d / (8 * dsi_ndl d) * 8.
Proof.
  intros U Hs Hs8 Hq. destruct U. unfold is_u32 in *.
  unfold tc358768_pclk_to_pll, div_u64.
  assert (H64 : 0 <= pixelclock d * dpi_ndl d < 2 ^ 64) by nia.
  rewrite (wrap32_small (8 * dsi_ndl d)) by lia.
  rewrite wrap64_small by exact H64.
  assert (Hq0 : 0 <= pixelclock d * dpi_ndl d / (8 * dsi_ndl d))
    by (apply Z.div_pos; lia).
  set (q := pixelclock d * dpi_ndl d / (8 * dsi_ndl d)) in *.
  rewrite (wrap32_small q) by lia.
  rewrite (wrap32_small (q * 4)) by lia.
  rewrite wrap32_small by lia. lia.
Qed.

Lemma pll_to_pclk_exact (d : tc358768_drv_data) (q : Z) :
  drv_data_u32 d -> 0 < dpi_ndl d -> 0 <= q < 2 ^ 29 ->
  q * 8 * dsi_ndl d / dpi_ndl d < 2 ^ 32 ->
  tc358768_pll_to_pclk d (q * 8) = q * 8 * dsi_ndl d / dpi_ndl d.
Proof.
  intros U Hd Hq Hr. destruct U. unfold is_u32 in *.
  unfold tc358768_pll_to_pclk, div_u64.
  replace (q * 8 / 2 / 4) with q.
  2:{ rewrite Z.div_div by lia. change (2 * 4) with 8.
      now rewrite Z.div_mul by lia. }
  assert (0 <= q * 8 * dsi_ndl d < 2 ^ 64) by nia.
  rewrite (wrap64_small (q * 8)) by lia.
  rewrite wrap64_small by lia.
  apply wrap32_small. split; [apply Z.div_pos; lia | lia].
Qed.

(** The two truncations in exact arithmetic. *)
Lemma round_trip_arith (P D S : Z) :
  0 <= P -> 0 < D -> 0 < S ->
  let q := P * D / (8 * S) in
  let r := q * 8 * S / D in
  0 <= r <= P /\ (P - r) * D <= (8 * S - 1) + (D - 1).
Proof.
  intros HP HD HS q r.
  assert (Q1 : q * (8 * S) <= P * D /\ P * D <= q * (8 * S) + (8 * S - 1)).
  { subst q. pose proof (Z.div_mod (P * D) (8 * S)).
    pose proof (Z.mod_pos_bound (P * D) (8 * S)). lia. }
  assert (Q0 : 0 <= q) by (subst q; apply Z.div_pos; nia).
  assert (R1 : r * D <= q * 8 * S /\ q * 8 * S <= r * D + (D - 1)).
  { subst r. pose proof (Z.div_mod (q * 8 * S) D).
    pose proof (Z.mod_pos_bound (q * 8 * S) D). lia. }
  assert (R0 : 0 <= r) by (subst r; apply Z.div_pos; nia).
  split; [| nia]. split; [exact R0 | nia].
Qed.

(** C5 (as amended).  For a configuration with strictly positive clocks
    and lane counts whose scaled values fit the driver's 32-bit
    arithmetic ([8 * dsi_ndl] below [2^32], byte clock below [2^29] so
    that [byteclk * 4 * 2] does not wrap), the forward transform yields
    [byteclk * 8] with [byteclk = pixelclock * dpi_ndl / (8 * dsi_ndl)],
    and transforming back never overshoots the pixel clock and loses at
    most what the two truncations lose:
    [(pixelclock - result) * dpi_ndl <= (8 * dsi_ndl - 1) + (dpi_ndl - 1)]. *)
Theorem pclk_pll_round_trip (d : tc358768_drv_data) :
  drv_data_u32 d -> valid_config d ->
  8 * dsi_ndl d < 2 ^ 32 ->
  pixelclock d * dpi_ndl d / (8 * dsi_ndl d) < 2 ^ 29 ->
  let byteclk := pixelclock d * dpi_ndl d / (8 * dsi_ndl d) in
  tc358768_pclk_to_pll d = byteclk * 4 * 2
  /\ tc358768_pll_to_pclk d (tc358768_pclk_to_pll d)
     = byteclk * 8 * dsi_ndl d / dpi_ndl d
  /\ round_trip_bound d (tc358768_pll_to_pclk d (tc358768_pclk_to_pll d)).
Proof.
  intros U (HP & _ & HD & HS) Hs8 Hq byteclk.
  pose proof (pclk_to_pll_exact d U HS Hs8 Hq) as Fw. fold byteclk in Fw.
  destruct (round_trip_arith (pixelclock d) (dpi_ndl d) (dsi_ndl d))
    as [Hr Hb]; try lia.
  fold byteclk in Hr, Hb.
  assert (Hq0 : 0 <= byteclk) by (apply Z.div_pos; lia).
  assert (Bk : tc358768_pll_to_pclk d (byteclk * 8)
               = byteclk * 8 * dsi_ndl d / dpi_ndl d).
  { apply pll_to_pclk_exact; try assumption; try lia.
    destruct U. unfold is_u32 in *. lia. }
  rewrite Fw. split; [lia |]. split; [exact Bk |].
  rewrite Bk. unfold round_trip_bound. lia.
Qed.

Lemma pclk_pll_round_trip_witness :
  tc358768_pll_to_pclk probe_data (tc358768_pclk_to_pll probe_data)
  = 116175000 * 8 * dsi_ndl probe_data / dpi_ndl probe_data
  /\ round_trip_bound probe_data
       (tc358768_pll_to_pclk probe_data (tc358768_pclk_to_pll probe_data)).
Proof.
  assert (U : drv_data_u32 probe_data)
    by (constructor; unfold is_u32; cbn; lia).
  assert (V : valid_config probe_data) by (unfold valid_config; cbn; lia).
  assert (S8 : 8 * dsi_ndl probe_data < 2 ^ 32) by (cbn; lia).
  assert (Q : pixelclock probe_data * dpi_ndl probe_data
              / (8 * dsi_ndl probe_data) < 2 ^ 29)
    by (vm_compute; reflexivity).
  destruct (pclk_pll_round_trip probe_data U V S8 Q) as (_ & A & B).
  split; [exact A | exact B].
Defined.

(** C5 as stated fails: with an 800 MHz pixel clock on 24 parallel and
    4 serial lanes the forward transform wraps modulo [2^32], and the
    round trip returns 84,172,117 Hz. *)
Lemma pclk_pll_round_trip_overflow :
  valid_config data_800mhz /\ drv_data_u32 data_800mhz
  /\ tc358768_pclk_to_pll data_800mhz = 505032704
  /\ tc358768_pll_to_pclk data_800mhz (tc358768_pclk_to_pll data_800mhz)
     = 84172117
  /\ ~ round_trip_bound data_800mhz
         (tc358768_pll_to_pclk data_800mhz
            (tc358768_pclk_to_pll data_800mhz)).
Proof.
  split; [unfold valid_config; cbn; lia |].
  split; [constructor; unfold is_u32; cbn; lia |].
  split; [vm_compute; reflexivity |].
  split; [vm_compute; reflexivity |].
  replace (tc358768_pll_to_pclk data_800mhz
             (tc358768_pclk_to_pll data_800mhz))
    with 84172117 by (vm_compute; reflexivity).
  unfold round_trip_bound. cbn [pixelclock dpi_ndl dsi_ndl data_800mhz]. lia.
Qed.

(** The round trip is not exact in general: on one parallel and one
    serial lane a 7 Hz pixel clock comes back as 0. *)
Example round_trip_loses :
  tc358768_pll_to_pclk (mk_drv_data true 1 1 0 0 0 0 7 1 0 0 0 0)
    (tc358768_pclk_to_pll (mk_drv_data true 1 1 0 0 0 0 7 1 0 0 0 0)) = 0.
Proof. vm_compute. reflexivity. Qed.

(** ** Register access layer *)

Section BusFacts.
Variable bus_ret : nat -> Z.

Local Abbreviation write := (tc358768_write bus_ret).
Local Abbreviation read := (tc358768_read bus_ret).
Local Abbreviation update_bits := (tc358768_update_bits bus_ret).

Lemma trace_bind {A B : Type} (m : M A) (k : A -> M B) (s : bus) :
  trace (bind m k s) = trace (m s) ++ trace (k (value (m s)) (final (m s))).
Proof. reflexivity. Qed.

Lemma value_bind {A B : Type} (m : M A) (k : A -> M B) (s : bus) :
  value (bind m k s) = value (k (value (m s)) (final (m s))).
Proof. reflexivity. Qed.

Lemma final_bind {A B : Type} (m : M A) (k : A -> M B) (s : bus) :
  final (bind m k s) = final (k (value (m s)) (final (m s))).
Proof. reflexivity. Qed.

(** The width test of [tc358768_write] and [tc358768_read]. *)
Lemma width_test_16 (reg : Z) :
  reg < 0x100 \/ 0x600 <= reg ->
  (reg <? 0x100) || (reg >=? 0x600) = true.
Proof. intros H. rewrite Z.geb_leb. apply orb_true_iff.
       rewrite Z.ltb_lt, Z.leb_le. exact H. Qed.

Lemma width_test_32 (reg : Z) :
  0x100 <= reg < 0x600 ->
  (reg <? 0x100) || (reg >=? 0x600) = false.
Proof. intros H. rewrite Z.geb_leb. apply orb_false_iff.
       rewrite Z.ltb_ge, Z.leb_gt. lia. Qed.

Lemma write16_run (reg val : Z) (s : bus) :
  reg < 0x100 \/ 0x600 <= reg ->
  write reg val s
  = mk_outcome (bus_ret (ntx s))
      (mk_bus (if bus_ret (ntx s) =? 0
               then store_set (regs s) (wrap16 reg) (wrap16 val)
               else regs s)
              (S (ntx s)))
      [DbgWr16 reg val;
       BusWrite (wrap16 reg) (wrap16 val) (bus_ret (ntx s))].
Proof.
  intros H. unfold tc358768_write. rewrite (width_test_16 reg H).
  reflexivity.
Qed.

Lemma write32_run_fail (reg val : Z) (s : bus) :
  0x100 <= reg < 0x600 -> bus_ret (ntx s) <> 0 ->
  write reg val s
  = mk_outcome (bus_ret (ntx s)) (mk_bus (regs s) (S (ntx s)))
      [DbgWr32 reg val;
       BusWrite (wrap16 reg) (wrap16 val) (bus_ret (ntx s))].
Proof.
  intros H F. unfold tc358768_write. rewrite (width_test_32 reg H).
  unfold bind, dev_dbg, emit, regmap_write, ret.
  cbn [value final trace ntx regs app].
  apply Z.eqb_neq in F. rewrite F. reflexivity.
Qed.

Lemma write32_run_ok (reg val : Z) (s : bus) :
  0x100 <= reg < 0x600 -> bus_ret (ntx s) = 0 ->
  write reg val s
  = mk_outcome (bus_ret (S (ntx s)))
      (mk_bus
         (if bus_ret (S (ntx s)) =? 0
          then store_set (store_set (regs s) (wrap16 reg) (wrap16 val))
                         (wrap16 (wrap32 (reg + 2)))
                         (wrap16 (Z.shiftr val 16))
          else store_set (regs s) (wrap16 reg) (wrap16 val))
         (S (S (ntx s))))
      [DbgWr32 reg val;
       BusWrite (wrap16 reg) (wrap16 val) 0;
       BusWrite (wrap16 (wrap32 (reg + 2))) (wrap16 (Z.shiftr val 16))
                (bus_ret (S (ntx s)))].
Proof.
  intros H F. unfold tc358768_write. rewrite (width_test_32 reg H).
  unfold bind, dev_dbg, emit, regmap_write, ret.
  cbn [value final trace ntx regs app].
  rewrite F. reflexivity.
Qed.

Lemma read16_run (reg : Z) (s : bus) :
  reg < 0x100 \/ 0x600 <= reg ->
  read reg s = regmap_read bus_ret reg s.
Proof.
  intros H. unfold tc358768_read. now rewrite (width_test_16 reg H).
Qed.

Lemma read32_run_ok (reg : Z) (s : bus) :
  0x100 <= reg < 0x600 ->
  bus_ret (ntx s) = 0 -> bus_ret (S (ntx s)) = 0 ->
  read reg s
  = mk_outcome
      (ReadOk (Z.lor (wrap16 (regs s (wrap16 reg)))
                     (wrap32 (Z.shiftl
                                (wrap16 (regs s (wrap16 (wrap32 (reg + 2)))))
                                16))))
      (mk_bus (regs s) (S (S (ntx s))))
      [BusRead (wrap16 reg) (ReadOk (wrap16 (regs s (wrap16 reg))));
       BusRead (wrap16 (wrap32 (reg + 2)))
               (ReadOk (wrap16 (regs s (wrap16 (wrap32 (reg + 2))))))].
Proof.
  intros H F1 F2. unfold tc358768_read. rewrite (width_test_32 reg H).
  unfold bind, regmap_read, ret.
  cbn [value final trace ntx regs app]. rewrite F1.
  cbn [Z.eqb value final trace ntx regs app]. rewrite F2. reflexivity.
Qed.

(** A 32-bit value is its low half or-ed with its high half moved up. *)
Lemma halves_join (val : Z) :
  0 <= val < 2 ^ 32 ->
  Z.lor (wrap16 val) (wrap32 (Z.shiftl (wrap16 (Z.shiftr val 16)) 16))
  = val.
Proof.
  intros H. unfold wrap16, wrap32.
  assert (Hh : 0 <= Z.shiftr val 16 < 2 ^ 16).
  { rewrite Z.shiftr_div_pow2 by lia. split.
    - apply Z.div_pos; lia.
    - apply Z.div_lt_upper_bound; lia. }
  rewrite (Z.mod_small (Z.shiftr val 16)) by exact Hh.
  rewrite (Z.mod_small (Z.shiftl _ _)).
  2:{ rewrite Z.shiftl_mul_pow2 by lia. lia. }
  apply Z.bits_inj'. intros n Hn.
  rewrite Z.lor_spec.
  destruct (Z.ltb_spec n 16) as [L | L].
  - rewrite Z.mod_pow2_bits_low by lia.
    rewrite Z.shiftl_spec_low by lia. apply orb_false_r.
  - rewrite Z.mod_pow2_bits_high by lia.
    rewrite Z.shiftl_spec by lia. rewrite Z.shiftr_spec by lia.
    cbn [orb]. f_equal. lia.
Qed.
End BusFacts.

Lemma shiftr16_range (val : Z) :
  0 <= val < 2 ^ 32 -> 0 <= Z.shiftr val 16 < 2 ^ 16.
Proof.
  intros H. rewrite Z.shiftr_div_pow2 by lia. split.
  - apply Z.div_pos; lia.
  - apply Z.div_lt_upper_bound; lia.
Qed.

Lemma shiftl16_range (h : Z) :
  0 <= h < 2 ^ 16 -> 0 <= Z.shiftl h 16 < 2 ^ 32.
Proof. intros H. rewrite Z.shiftl_mul_pow2 by lia. lia. Qed.

(** C7.  Addresses below 0x100 or from 0x600 up are written and read in
    one 16-bit transaction.  The addresses in between take two: the low
    half at the address, then (when the first transaction succeeded) the
    high half at address + 2; a read joins the halves as
    [low | (high << 16)], and on a bus without errors reading back a
    32-bit register just written returns the value written. *)
Theorem register_width_dispatch
        (bus_ret : nat -> Z) (reg val : Z) (s : bus) :
  is_u32 reg -> is_u32 val ->
  let w := tc358768_write bus_ret reg val s in
  let rd := tc358768_read bus_ret reg s in
  let n := ntx s in
  (reg < 0x100 \/ 0x600 <= reg ->
   trace w = [DbgWr16 reg val; BusWrite (wrap16 reg) (wrap16 val) (bus_ret n)]
   /\ value w = bus_ret n
   /\ trace rd = [BusRead (wrap16 reg) (value rd)])
  /\ (0x100 <= reg < 0x600 ->
      let lo := wrap16 val in
      let hi := Z.shiftr val 16 in
      let l := wrap16 (regs s reg) in
      let h := wrap16 (regs s (reg + 2)) in
      (bus_ret n <> 0 ->
       trace w = [DbgWr32 reg val; BusWrite reg lo (bus_ret n)]
       /\ value w = bus_ret n)
      /\ (bus_ret n = 0 ->
          trace w = [DbgWr32 reg val; BusWrite reg lo 0;
                     BusWrite (reg + 2) hi (bus_ret (S n))]
          /\ value w = bus_ret (S n))
      /\ (bus_ret n = 0 -> bus_ret (S n) = 0 ->
          trace rd = [BusRead reg (ReadOk l); BusRead (reg + 2) (ReadOk h)]
          /\ value rd = ReadOk (Z.lor l (Z.shiftl h 16)))
      /\ (bus_ret n = 0 -> bus_ret (S n) = 0 ->
          bus_ret (S (S n)) = 0 -> bus_ret (S (S (S n))) = 0 ->
          value (tc358768_read bus_ret reg (final w)) = ReadOk val)).
Proof.
  intros Hr Hv w rd n. unfold is_u32 in Hr, Hv. split.
  - intros H16. subst w rd n.
    rewrite write16_run by exact H16. rewrite read16_run by exact H16.
    cbn [trace value]. unfold regmap_read. cbn [trace value]. auto.
  - intros H32 lo hi l h.
    assert (A1 : wrap16 reg = reg) by (apply wrap16_small; lia).
    assert (A2 : wrap16 (wrap32 (reg + 2)) = reg + 2).
    { rewrite wrap32_small by lia. apply wrap16_small; lia. }
    assert (A3 : wrap16 (Z.shiftr val 16) = Z.shiftr val 16).
    { apply wrap16_small. now apply shiftr16_range. }
    split; [| split; [| split]].
    + intros F. subst w n. rewrite write32_run_fail by assumption.
      cbn [trace value]. rewrite A1. auto.
    + intros F. subst w n. rewrite write32_run_ok by assumption.
      cbn [trace value]. rewrite A1, A2, A3. auto.
    + intros F1 F2. subst rd n. rewrite read32_run_ok by assumption.
      cbn [trace value]. rewrite A1, A2. fold l. fold h.
      rewrite (wrap32_small (Z.shiftl h 16)).
      * auto.
      * apply shiftl16_range. apply wrap16_range.
    + intros F1 F2 F3 F4. subst w n.
      rewrite write32_run_ok by assumption. cbn [final].
      rewrite read32_run_ok; cbn [ntx regs]; try assumption.
      cbn [value]. rewrite F2. cbn [Z.eqb]. rewrite A1, A2.
      unfold store_set.
      replace (reg =? reg + 2) with false by (symmetry; apply Z.eqb_neq; lia).
      rewrite !Z.eqb_refl.
      rewrite (wrap16_small (wrap16 val)) by apply wrap16_range.
      rewrite (wrap16_small (wrap16 (Z.shiftr val 16))) by apply wrap16_range.
      f_equal. now apply halves_join.
Qed.

Lemma register_width_dispatch_witness :
  trace (tc358768_write no_fault TC358768_DSI_HACT 3600 bus0)
  = [DbgWr16 TC358768_DSI_HACT 3600; BusWrite 0x062C 3600 0]
  /\ trace (tc358768_write no_fault TC358768_DSI_CONFW 0xA30000A7 bus0)
     = [DbgWr32 TC358768_DSI_CONFW 0xA30000A7; BusWrite 0x0500 0x00A7 0;
        BusWrite 0x0502 0xA300 0]
  /\ value (tc358768_read no_fault TC358768_DSI_CONFW
              (final (tc358768_write no_fault TC358768_DSI_CONFW
                                     0xA30000A7 bus0)))
     = ReadOk 0xA30000A7.
Proof.
  assert (U1 : is_u32 TC358768_DSI_HACT) by u32_const.
  assert (U2 : is_u32 TC358768_DSI_CONFW) by u32_const.
  assert (U3 : is_u32 3600) by u32_const.
  assert (U4 : is_u32 0xA30000A7) by u32_const.
  split; [| split].
  - apply (register_width_dispatch no_fault _ 3600 bus0 U1 U3).
    right. unfold TC358768_DSI_HACT. lia.
  - apply (register_width_dispatch no_fault _ _ bus0 U2 U4);
      [unfold TC358768_DSI_CONFW; lia | reflexivity].
  - apply (register_width_dispatch no_fault _ _ bus0 U2 U4);
      [unfold TC358768_DSI_CONFW; lia | reflexivity ..].
Defined.

Section AccessFacts.
Variable bus_ret : nat -> Z.

Local Abbreviation write := (tc358768_write bus_ret).
Local Abbreviation read := (tc358768_read bus_ret).
Local Abbreviation update_bits := (tc358768_update_bits bus_ret).

(** A read puts one or two read transactions on the bus and nothing
    else, and leaves the registers alone; it fails only with a non-zero
    code. *)
Lemma read_shape (reg : Z) (s : bus) :
  bus_reads (trace (read reg s)) = trace (read reg s)
  /\ bus_writes (trace (read reg s)) = []
  /\ (1 <= length (trace (read reg s)) <= 2)%nat
  /\ regs (final (read reg s)) = regs s
  /\ (forall e, value (read reg s) = ReadErr e -> e <> 0).
Proof.
  unfold tc358768_read, bind, regmap_read, ret.
  destruct ((reg <? 256) || (reg >=? 1536));
    cbn [value final trace regs ntx app].
  - destruct (bus_ret (ntx s) =? 0) eqn:E; cbn; repeat split; try lia;
      intros e [= <-]; now apply Z.eqb_neq.
  - destruct (bus_ret (ntx s) =? 0) eqn:E1;
      cbn [value final trace regs ntx app].
    + destruct (bus_ret (S (ntx s)) =? 0) eqn:E2; cbn; repeat split;
        try lia; intros e [= <-]; now apply Z.eqb_neq.
    + cbn; repeat split; try lia; intros e [= <-]; now apply Z.eqb_neq.
Qed.

(** A write puts no read on the bus, and one or two write
    transactions. *)
Lemma write_shape (reg val : Z) (s : bus) :
  bus_reads (trace (write reg val s)) = []
  /\ (1 <= length (bus_writes (trace (write reg val s))) <= 2)%nat.
Proof.
  unfold tc358768_write, bind, regmap_write, dev_dbg, emit, ret.
  destruct ((reg <? 256) || (reg >=? 1536));
    cbn [value final trace regs ntx app].
  - cbn. split; [reflexivity | lia].
  - destruct (bus_ret (ntx s) =? 0); cbn; (split; [reflexivity | lia]).
Qed.

Lemma update_bits_run (reg mask val : Z) (s : bus) :
  update_bits reg mask val s
  = match value (read reg s) with
    | ReadErr e => mk_outcome e (final (read reg s)) (trace (read reg s))
    | ReadOk orig =>
        let tmp := rmw_value orig mask val in
        if tmp =? orig
        then mk_outcome 0 (final (read reg s))
                        (trace (read reg s) ++ [DbgUpd reg orig tmp])
        else
          let w := write reg tmp (final (read reg s)) in
          mk_outcome (value w) (final w)
                     (trace (read reg s) ++ DbgUpd reg orig tmp :: trace w)
    end.
Proof.
  unfold tc358768_update_bits, bind. fold (read reg s).
  destruct (value (read reg s)) as [orig | e].
  - fold (rmw_value orig mask val). cbn zeta.
    destruct (rmw_value orig mask val =? orig);
      cbn [negb ret dev_dbg emit value final trace]; reflexivity.
  - unfold ret. cbn [value final trace]. now rewrite app_nil_r.
Qed.
End AccessFacts.

(** C8.  [tc358768_update_bits] reads the register once, computes
    [(orig & ~mask) | (val & mask)], and writes it back only when it
    differs from what was read.  A failed read returns its error code
    with no write put on the bus; a failed write returns its error
    code; nothing is tried twice. *)
Theorem update_bits_read_modify_write
        (bus_ret : nat -> Z) (reg mask val : Z) (s : bus) :
  let rd := tc358768_read bus_ret reg s in
  let ub := tc358768_update_bits bus_ret reg mask val s in
  bus_reads (trace ub) = trace rd
  /\ (length (bus_reads (trace ub)) <= 2)%nat
  /\ (length (bus_writes (trace ub)) <= 2)%nat
  /\ match value rd with
     | ReadErr e =>
         e <> 0 /\ value ub = e /\ trace ub = trace rd
         /\ bus_writes (trace ub) = [] /\ regs (final ub) = regs s
     | ReadOk orig =>
         let tmp := Z.lor (Z.land orig (not32 mask)) (Z.land val mask) in
         (tmp = orig ->
          value ub = 0 /\ trace ub = trace rd ++ [DbgUpd reg orig tmp]
          /\ bus_writes (trace ub) = [] /\ regs (final ub) = regs s)
         /\ (tmp <> orig ->
             let w := tc358768_write bus_ret reg tmp (final rd) in
             value ub = value w /\ final ub = final w
             /\ trace ub = trace rd ++ DbgUpd reg orig tmp :: trace w
             /\ bus_writes (trace ub) = bus_writes (trace w))
     end.
Proof.
  intros rd ub.
  destruct (read_shape bus_ret reg s) as (R1 & R2 & R3 & R4 & R5).
  fold rd in R1, R2, R3, R4, R5.
  assert (E := update_bits_run bus_ret reg mask val s).
  fold ub in E. fold rd in E.
  destruct (value rd) as [orig | e] eqn:V.
  - fold (rmw_value orig mask val). cbn zeta in E |- *.
    destruct (rmw_value orig mask val =? orig) eqn:T; rewrite E;
      cbn [value final trace].
    + apply Z.eqb_eq in T. unfold bus_reads, bus_writes in *.
      rewrite !filter_app, R1, R2.
      cbn [filter is_bus_read is_bus_write app length].
      rewrite app_nil_r.
      repeat split; try lia; try assumption; try reflexivity;
        contradiction.
    + apply Z.eqb_neq in T.
      destruct (write_shape bus_ret reg (rmw_value orig mask val) (final rd))
        as [W1 W2].
      unfold bus_reads, bus_writes in *.
      rewrite !filter_app, R1, R2.
      cbn [filter is_bus_read is_bus_write app].
      rewrite W1, app_nil_r.
      repeat split; try lia; try assumption; try reflexivity;
        contradiction.
  - rewrite E. cbn [value final trace].
    unfold bus_reads, bus_writes in *. rewrite R1, R2. cbn [length].
    repeat split; try lia; try assumption; try reflexivity.
    now apply R5.
Qed.

Lemma update_bits_read_modify_write_witness :
  let rd := tc358768_read no_fault TC358768_CONFCTL bus0 in
  let ub := tc358768_update_bits no_fault TC358768_CONFCTL 0x40 0x40 bus0 in
  let w := tc358768_write no_fault TC358768_CONFCTL 0x40 (final rd) in
  value ub = value w /\ final ub = final w
  /\ trace ub = trace rd ++ DbgUpd TC358768_CONFCTL 0 0x40 :: trace w
  /\ bus_writes (trace ub) = bus_writes (trace w).
Proof.
  intros rd ub w.
  destruct (update_bits_read_modify_write no_fault TC358768_CONFCTL
                                          0x40 0x40 bus0)
    as (_ & _ & _ & X).
  change (value (tc358768_read no_fault TC358768_CONFCTL bus0))
    with (ReadOk 0) in X.
  cbv beta iota zeta in X. destruct X as [_ X].
  apply X. vm_compute. discriminate.
Defined.

(** ** Teardown *)

Lemma rmw_bits (orig mask val i : Z) :
  0 <= i < 32 ->
  Z.testbit (rmw_value orig mask val) i
  = if Z.testbit mask i then Z.testbit val i else Z.testbit orig i.
Proof.
  intros Hi. unfold rmw_value, not32, wrap32.
  rewrite Z.lor_spec, !Z.land_spec.
  rewrite Z.mod_pow2_bits_low by lia. rewrite Z.lnot_spec by lia.
  destruct (Z.testbit mask i), (Z.testbit val i), (Z.testbit orig i);
    reflexivity.
Qed.

Lemma wrap16_bits (x i : Z) :
  0 <= i < 16 -> Z.testbit (wrap16 x) i = Z.testbit x i.
Proof. intros Hi. unfold wrap16. apply Z.mod_pow2_bits_low. lia. Qed.

Section UpdateStore.
Variable bus_ret : nat -> Z.
Variables (reg mask val : Z).
Hypothesis reg16 : reg < 0x100 \/ 0x600 <= reg.
Hypothesis reg_addr : 0 <= reg < 2 ^ 16.

Local Abbreviation ub := (tc358768_update_bits bus_ret reg mask val).

(** On a 16-bit register [tc358768_update_bits] either leaves the store
    as it is or installs the merged value; without bus errors it
    installs it whenever it differs from what the register holds. *)
Lemma update_bits16_store (s : bus) :
  let orig := wrap16 (regs s reg) in
  let tmp := rmw_value orig mask val in
  (regs (final (ub s)) = regs s
   \/ regs (final (ub s)) = store_set (regs s) reg (wrap16 tmp))
  /\ (bus_ret (ntx s) = 0 -> bus_ret (S (ntx s)) = 0 ->
      regs (final (ub s))
      = if tmp =? orig then regs s
        else store_set (regs s) reg (wrap16 tmp)).
Proof.
  intros orig tmp. rewrite update_bits_run, read16_run by exact reg16.
  unfold regmap_read. cbn [value final trace].
  rewrite (wrap16_small reg) by exact reg_addr. fold orig.
  destruct (bus_ret (ntx s) =? 0) eqn:E1.
  - cbn zeta. fold tmp. destruct (tmp =? orig) eqn:T.
    + cbn [final regs]. split; [now left | reflexivity].
    + cbn zeta. rewrite write16_run by exact reg16.
      cbn [final regs ntx]. rewrite (wrap16_small reg) by exact reg_addr.
      destruct (bus_ret (S (ntx s)) =? 0) eqn:E2.
      * split; [now right | reflexivity].
      * split; [now left |]. intros _ F. apply Z.eqb_neq in E2.
        contradiction.
  - cbn [final regs]. split; [now left |]. intros F. apply Z.eqb_neq in E1.
    contradiction.
Qed.

(** Only the masked bits of that one register can change, and without
    bus errors they take the bits of [val]. *)
Lemma update_bits16_frame (s : bus) :
  (forall a, a <> reg -> regs (final (ub s)) a = regs s a)
  /\ (forall i, 0 <= i < 16 -> Z.testbit mask i = false ->
      Z.testbit (regs (final (ub s)) reg) i = Z.testbit (regs s reg) i)
  /\ (bus_ret (ntx s) = 0 -> bus_ret (S (ntx s)) = 0 ->
      forall i, 0 <= i < 16 -> Z.testbit mask i = true ->
      Z.testbit (regs (final (ub s)) reg) i = Z.testbit val i).
Proof.
  destruct (update_bits16_store s) as [C N]. cbn zeta in C, N.
  split; [| split].
  - intros a Ha. destruct C as [-> | ->]; [reflexivity |].
    unfold store_set. now replace (a =? reg) with false
      by (symmetry; now apply Z.eqb_neq).
  - intros i Hi Hm. destruct C as [-> | ->]; [reflexivity |].
    unfold store_set. rewrite Z.eqb_refl.
    rewrite wrap16_bits by exact Hi. rewrite rmw_bits by lia.
    rewrite Hm. now apply wrap16_bits.
  - intros F1 F2 i Hi Hm. rewrite (N F1 F2).
    destruct (_ =? _) eqn:T.
    + apply Z.eqb_eq in T.
      rewrite <- (wrap16_bits (regs s reg)) by exact Hi.
      rewrite <- T at 1. rewrite rmw_bits by lia. now rewrite Hm.
    + unfold store_set. rewrite Z.eqb_refl.
      rewrite wrap16_bits by exact Hi. rewrite rmw_bits by lia.
      now rewrite Hm.
Qed.
End UpdateStore.

Lemma update_bits16_writes (bus_ret : nat -> Z) (reg mask val : Z) (s : bus) :
  reg < 0x100 \/ 0x600 <= reg -> 0 <= reg < 2 ^ 16 ->
  forall r v c,
    In (BusWrite r v c) (trace (tc358768_update_bits bus_ret reg mask val s)) ->
    r = reg /\ v = wrap16 (rmw_value (wrap16 (regs s reg)) mask val).
Proof.
  intros H16 Ha r v c. rewrite update_bits_run, read16_run by exact H16.
  unfold regmap_read. cbn [value final trace].
  rewrite (wrap16_small reg) by exact Ha.
  destruct (bus_ret (ntx s) =? 0).
  - cbn zeta. destruct (_ =? _).
    + cbn [trace app In]. intros [H | [H | []]]; discriminate.
    + cbn zeta. rewrite write16_run by exact H16.
      rewrite (wrap16_small reg) by exact Ha.
      cbn [trace app In]. intros [H | [H | [H | [H | []]]]];
        try discriminate.
      injection H as <- <- _. now split.
  - cbn [trace In]. intros [H | []]. discriminate.
Qed.

Lemma shiftl1_bit (k i : Z) :
  0 <= k -> Z.testbit (Z.shiftl 1 k) i = (k =? i).
Proof. intros Hk. rewrite Z.shiftl_1_l. now apply Z.pow2_bits_eqb. Qed.

(** C10.  Teardown is three masked read-modify-writes in the order
    frame-stop set (PP_MISC bit 15), pixel-pipe-enable clear (CONFCTL
    bit 6), pointer-reset set (PP_MISC bit 14), with the 50 ms sleep
    after the first.  Whatever the bus does, no other bit of these two
    registers and no other register changes, and every write on the bus
    goes to one of the two; without bus errors the three bits end up
    set, cleared and set. *)
Theorem power_off_frame (bus_ret : nat -> Z) (s : bus) :
  let ub := tc358768_update_bits bus_ret in
  let s1 := final (ub TC358768_PP_MISC (Z.shiftl 1 15) (Z.shiftl 1 15) s) in
  let s2 := final (ub TC358768_CONFCTL (Z.shiftl 1 6) 0 s1) in
  let o := tc358768_power_off bus_ret s in
  trace o
  = trace (ub TC358768_PP_MISC (Z.shiftl 1 15) (Z.shiftl 1 15) s)
    ++ Msleep 50
       :: trace (ub TC358768_CONFCTL (Z.shiftl 1 6) 0 s1)
    ++ trace (ub TC358768_PP_MISC (Z.shiftl 1 14) (Z.shiftl 1 14) s2)
  /\ (forall r v c, In (BusWrite r v c) (trace o) ->
      r = TC358768_PP_MISC \/ r = TC358768_CONFCTL)
  /\ (forall a, a <> TC358768_PP_MISC -> a <> TC358768_CONFCTL ->
      regs (final o) a = regs s a)
  /\ (forall i, 0 <= i < 16 -> i <> 15 -> i <> 14 ->
      Z.testbit (regs (final o) TC358768_PP_MISC) i
      = Z.testbit (regs s TC358768_PP_MISC) i)
  /\ (forall i, 0 <= i < 16 -> i <> 6 ->
      Z.testbit (regs (final o) TC358768_CONFCTL) i
      = Z.testbit (regs s TC358768_CONFCTL) i)
  /\ ((forall k, bus_ret k = 0) ->
      Z.testbit (regs (final o) TC358768_PP_MISC) 15 = true
      /\ Z.testbit (regs (final o) TC358768_CONFCTL) 6 = false
      /\ Z.testbit (regs (final o) TC358768_PP_MISC) 14 = true).
Proof.
  intros ub s1 s2 o.
  assert (Hm : TC358768_PP_MISC < 0x100 \/ 0x600 <= TC358768_PP_MISC)
    by (unfold TC358768_PP_MISC; lia).
  assert (Hc : TC358768_CONFCTL < 0x100 \/ 0x600 <= TC358768_CONFCTL)
    by (unfold TC358768_CONFCTL; lia).
  assert (Am : 0 <= TC358768_PP_MISC < 2 ^ 16)
    by (unfold TC358768_PP_MISC; lia).
  assert (Ac : 0 <= TC358768_CONFCTL < 2 ^ 16)
    by (unfold TC358768_CONFCTL; lia).
  assert (Ne : TC358768_CONFCTL <> TC358768_PP_MISC) by discriminate.
  destruct (update_bits16_frame bus_ret TC358768_PP_MISC (Z.shiftl 1 15)
              (Z.shiftl 1 15) Hm Am s) as (F1 & B1 & N1).
  fold ub in F1, B1, N1. fold s1 in F1, B1, N1.
  destruct (update_bits16_frame bus_ret TC358768_CONFCTL (Z.shiftl 1 6)
              0 Hc Ac s1) as (F2 & B2 & N2).
  fold ub in F2, B2, N2. fold s2 in F2, B2, N2.
  destruct (update_bits16_frame bus_ret TC358768_PP_MISC (Z.shiftl 1 14)
              (Z.shiftl 1 14) Hm Am s2) as (F3 & B3 & N3).
  fold ub in F3, B3, N3.
  assert (Eo : final o
               = final (ub TC358768_PP_MISC (Z.shiftl 1 14) (Z.shiftl 1 14)
                           s2)) by reflexivity.
  assert (Et : trace o
               = trace (ub TC358768_PP_MISC (Z.shiftl 1 15) (Z.shiftl 1 15) s)
                 ++ Msleep 50
                    :: trace (ub TC358768_CONFCTL (Z.shiftl 1 6) 0 s1)
                 ++ trace (ub TC358768_PP_MISC (Z.shiftl 1 14)
                              (Z.shiftl 1 14) s2)).
  { subst o. unfold tc358768_power_off. rewrite !trace_bind.
    cbn [msleep emit ret trace final value app]. now rewrite app_nil_r. }
  rewrite Eo. split; [exact Et |]. split; [| split; [| split; [| split]]].
  - intros r v c. rewrite Et. rewrite in_app_iff. cbn [In].
    rewrite in_app_iff. intros [H | [H | [H | H]]]; try discriminate.
    + left. eapply update_bits16_writes; eassumption.
    + right. eapply update_bits16_writes; eassumption.
    + left. eapply update_bits16_writes; eassumption.
  - intros a H1 H2. rewrite F3, F2, F1 by assumption. reflexivity.
  - intros i Hi H15 H14.
    rewrite B3; [| exact Hi | rewrite shiftl1_bit by lia; now apply Z.eqb_neq].
    rewrite F2 by (intros E; now apply Ne).
    apply B1; [exact Hi |].
    rewrite shiftl1_bit by lia. apply Z.eqb_neq. lia.
  - intros i Hi H6. rewrite F3 by exact Ne.
    rewrite B2; [| exact Hi | rewrite shiftl1_bit by lia; apply Z.eqb_neq; lia].
    now rewrite F1 by exact Ne.
  - intros NF. split; [| split].
    + rewrite B3 by (try lia; reflexivity).
      rewrite F2 by (intros E; now apply Ne).
      rewrite N1; auto; try lia; reflexivity.
    + rewrite F3 by exact Ne. rewrite N2; auto; try lia; reflexivity.
    + rewrite N3; auto; try lia; reflexivity.
Qed.

Lemma power_off_frame_witness :
  Z.testbit (regs (final (tc358768_power_off no_fault bus0))
                  TC358768_PP_MISC) 15 = true
  /\ Z.testbit (regs (final (tc358768_power_off no_fault bus0))
                     TC358768_CONFCTL) 6 = false
  /\ Z.testbit (regs (final (tc358768_power_off no_fault bus0))
                     TC358768_PP_MISC) 14 = true
  /\ Z.testbit (regs (final (tc358768_power_off no_fault bus0))
                     TC358768_PP_MISC) 3
     = Z.testbit (regs bus0 TC358768_PP_MISC) 3.
Proof.
  destruct (power_off_frame no_fault bus0) as (_ & _ & _ & B & _ & N).
  destruct N as (N1 & N2 & N3); [intros k; reflexivity |].
  split; [exact N1 | split; [exact N2 | split; [exact N3 | apply B; lia]]].
Defined.

(** ** Traces of the sequences *)

Section TraceFacts.
Variable bus_ret : nat -> Z.
Variable mipi : mipi_display.

Local Abbreviation write := (tc358768_write bus_ret).
Local Abbreviation update_bits := (tc358768_update_bits bus_ret).

Lemma trace_write (reg val : Z) (s : bus) :
  trace (write reg val s)
  = write_events reg val (bus_ret (ntx s)) (bus_ret (S (ntx s))).
Proof.
  unfold tc358768_write, write_events, bind, regmap_write, dev_dbg, emit, ret.
  destruct ((reg <? 256) || (reg >=? 1536));
    cbn [value final trace regs ntx app]; [reflexivity |].
  destruct (bus_ret (ntx s) =? 0); reflexivity.
Qed.

Lemma filter_write_events_quiet (f : event -> bool) (reg val r r' : Z) :
  quiet f reg -> filter f (write_events reg val r r') = [].
Proof.
  intros (Q1 & Q2 & _ & Q3 & _ & Q4). unfold write_events.
  destruct ((reg <? 256) || (reg >=? 1536)); cbn [filter].
  - now rewrite Q1, Q3.
  - destruct (Q4 eq_refl) as [Q5 _].
    rewrite Q2, Q3. destruct (r =? 0); cbn [filter]; now rewrite ?Q5.
Qed.

Lemma filter_write_quiet (f : event -> bool) (reg val : Z) (s : bus) :
  quiet f reg -> filter f (trace (write reg val s)) = [].
Proof. intros Q. rewrite trace_write. now apply filter_write_events_quiet. Qed.

Lemma filter_read_quiet (f : event -> bool) (reg : Z) (s : bus) :
  quiet f reg -> filter f (trace (tc358768_read bus_ret reg s)) = [].
Proof.
  intros (_ & _ & _ & _ & Q5 & Q7).
  unfold tc358768_read, bind, regmap_read, ret.
  destruct ((reg <? 256) || (reg >=? 1536));
    cbn [value final trace regs ntx app filter].
  - now rewrite Q5.
  - destruct (Q7 eq_refl) as [_ Q6].
    destruct (bus_ret (ntx s) =? 0);
      cbn [value final trace regs ntx app filter]; rewrite ?Q5.
    + destruct (bus_ret (S (ntx s)) =? 0);
        cbn [value final trace regs ntx app filter]; now rewrite ?Q6.
    + reflexivity.
Qed.

Lemma filter_update_bits_quiet (f : event -> bool) (reg mask val : Z)
      (s : bus) :
  quiet f reg -> filter f (trace (update_bits reg mask val s)) = [].
Proof.
  intros Q. rewrite update_bits_run.
  pose proof (filter_read_quiet f reg s Q) as R.
  assert (Q3 : forall o t, f (DbgUpd reg o t) = false) by apply Q.
  destruct (value (tc358768_read bus_ret reg s)) as [orig | e].
  - cbn zeta. destruct (_ =? _); cbn [trace].
    + rewrite filter_app, R. cbn [filter app]. now rewrite Q3.
    + rewrite filter_app, R. cbn [filter app]. rewrite Q3.
      now apply filter_write_quiet.
  - exact R.
Qed.

(** Each access puts its request and its transactions on the trace once. *)
Lemma served_app (a b : list event) : served a -> served b -> served (a ++ b).
Proof.
  intros Ha Hb. induction Ha; cbn [app]; try (constructor; assumption).
  exact Hb.
Qed.

Lemma served_write (reg val : Z) (s : bus) : served (trace (write reg val s)).
Proof.
  rewrite trace_write. unfold write_events.
  destruct ((reg <? 256) || (reg >=? 1536)).
  - apply served_wr16. constructor.
  - destruct (bus_ret (ntx s) =? 0) eqn:E.
    + apply Z.eqb_eq in E. rewrite E. apply served_wr32. constructor.
    + apply Z.eqb_neq in E. apply served_wr32_low; [exact E | constructor].
Qed.

Lemma served_one (e : event) :
  is_bus_write e = false -> is_write_request e = false -> served [e].
Proof.
  intros H1 H2. apply served_other; [exact H1 | exact H2 | constructor].
Qed.

Lemma served_read (reg : Z) (s : bus) :
  served (trace (tc358768_read bus_ret reg s)).
Proof.
  unfold tc358768_read, bind, regmap_read, ret.
  destruct ((reg <? 256) || (reg >=? 1536));
    cbn [value final trace regs ntx app].
  - apply served_one; [reflexivity | reflexivity].
  - destruct (bus_ret (ntx s) =? 0);
      cbn [value final trace regs ntx app].
    + destruct (bus_ret (S (ntx s)) =? 0);
        cbn [value final trace regs ntx app];
        repeat (apply served_other; [reflexivity | reflexivity |]);
        constructor.
    + apply served_one; [reflexivity | reflexivity].
Qed.

Lemma served_update_bits (reg mask val : Z) (s : bus) :
  served (trace (update_bits reg mask val s)).
Proof.
  rewrite update_bits_run.
  pose proof (served_read reg s) as R.
  destruct (value (tc358768_read bus_ret reg s)) as [orig | e];
    [| exact R].
  cbn zeta. destruct (_ =? _); cbn [trace]; apply served_app; try exact R.
  - apply served_one; [reflexivity | reflexivity].
  - apply served_other; [reflexivity | reflexivity | apply served_write].
Qed.
End TraceFacts.

(** ** The sequences are runs of their access lists *)

Section Runs.
Variable bus_ret : nat -> Z.
Variable mipi : mipi_display.

Local Abbreviation run := (run_accesses bus_ret).

Lemma trace_run_cons (a : access) (l : list access) (s : bus) :
  trace (run (a :: l) s)
  = trace (run_access bus_ret a s)
    ++ trace (run l (final (run_access bus_ret a s))).
Proof. reflexivity. Qed.

Lemma final_run_cons (a : access) (l : list access) (s : bus) :
  final (run (a :: l) s) = final (run l (final (run_access bus_ret a s))).
Proof. reflexivity. Qed.

Lemma trace_run_app (l1 l2 : list access) (s : bus) :
  trace (run (l1 ++ l2) s)
  = trace (run l1 s) ++ trace (run l2 (final (run l1 s))).
Proof.
  revert s. induction l1 as [| a l1 IH]; intros s; [reflexivity |].
  cbn [app]. rewrite !trace_run_cons, final_run_cons, IH.
  now rewrite app_assoc.
Qed.

Lemma final_run_app (l1 l2 : list access) (s : bus) :
  final (run (l1 ++ l2) s) = final (run l2 (final (run l1 s))).
Proof.
  revert s. induction l1 as [| a l1 IH]; intros s; [reflexivity |].
  cbn [app]. now rewrite !final_run_cons, IH.
Qed.

Lemma agrees_ret {A : Type} (a : A) : agrees bus_ret (ret a) [].
Proof. intros s. split; reflexivity. Qed.

Lemma agrees_seq {A B : Type} (m : M A) (k : M B) (l1 l2 : list access) :
  agrees bus_ret m l1 -> agrees bus_ret k l2 ->
  agrees bus_ret (m ;; k) (l1 ++ l2).
Proof.
  intros H1 H2 s. rewrite trace_run_app, final_run_app.
  rewrite trace_bind, final_bind.
  destruct (H1 s) as [T1 F1]. rewrite T1, F1.
  destruct (H2 (final (run l1 s))) as [T2 F2]. now rewrite T2, F2.
Qed.

Lemma agrees_access {A : Type} (m : M A) (a : access) :
  (forall s, trace (m s) = trace (run_access bus_ret a s)
             /\ final (m s) = final (run_access bus_ret a s)) ->
  agrees bus_ret m [a].
Proof.
  intros H s. destruct (H s) as [T F].
  rewrite trace_run_cons, final_run_cons. cbn [run_accesses ret trace final].
  now rewrite app_nil_r.
Qed.

Lemma agrees_write (reg val : Z) :
  agrees bus_ret (tc358768_write bus_ret reg val) [AWrite reg val].
Proof. apply agrees_access. intros s. split; reflexivity. Qed.

Lemma agrees_update (reg mask val : Z) :
  agrees bus_ret (tc358768_update_bits bus_ret reg mask val)
         [AUpdate reg mask val].
Proof. apply agrees_access. intros s. split; reflexivity. Qed.

Lemma agrees_emit (e : event) : agrees bus_ret (emit e) [AEmit e].
Proof. apply agrees_access. intros s. split; reflexivity. Qed.

Lemma agrees_cons {A B : Type} (m : M A) (k : M B) (a : access)
      (l : list access) :
  agrees bus_ret m [a] -> agrees bus_ret k l ->
  agrees bus_ret (m ;; k) (a :: l).
Proof. intros H1 H2. now apply (agrees_seq m k [a] l). Qed.

(** One step of a sequence against the head of its list. *)
Ltac agrees_step :=
  first [ apply agrees_ret
        | apply agrees_cons;
          [ first [ apply agrees_write | apply agrees_update
                  | apply agrees_emit ] | ] ].

Lemma xfer_short_runs (data_id data0 data1 : Z) :
  agrees bus_ret (tc358768_dsi_xfer_short bus_ret data_id data0 data1)
         (xfer_short_accesses data_id data0 data1).
Proof.
  unfold tc358768_dsi_xfer_short, xfer_short_accesses. cbv zeta.
  repeat agrees_step.
Qed.

Lemma sw_reset_runs : agrees bus_ret (tc358768_sw_reset bus_ret) reset_accesses.
Proof. unfold tc358768_sw_reset, reset_accesses. repeat agrees_step. Qed.

Lemma setup_pll_runs (d : tc358768_drv_data) :
  agrees bus_ret (tc358768_setup_pll bus_ret d) (pll_accesses d).
Proof.
  unfold tc358768_setup_pll, pll_accesses, dev_dbg, usleep_range. cbv zeta.
  repeat agrees_step.
Qed.

Lemma power_on_runs (d : tc358768_drv_data) :
  agrees bus_ret (tc358768_power_on bus_ret mipi d) (power_on_accesses mipi d).
Proof.
  unfold tc358768_power_on, power_on_accesses.
  apply agrees_seq; [apply sw_reset_runs |].
  apply agrees_seq; [apply setup_pll_runs |].
  unfold format_accesses, phy_accesses, timing_accesses. cbn [app].
  do 18 agrees_step.
  apply agrees_seq; [apply xfer_short_runs |].
  unfold start_accesses, video_accesses, confw_accesses, pipe_accesses.
  cbn [app]. repeat agrees_step.
Qed.

Lemma enable_runs (d d' : tc358768_drv_data) (s : bus) :
  tc358768_calc_pll d = PllOk d' ->
  value (tc358768_enable bus_ret mipi d s) = (0, d')
  /\ trace (tc358768_enable bus_ret mipi d s)
     = trace (run (enable_accesses mipi d') s).
Proof.
  intros H. unfold tc358768_enable. rewrite H.
  split; [reflexivity |].
  assert (G : agrees bus_ret
                ((if reset_gpio d' then gpiod_set_value_cansleep 1
                  else ret tt) ;;
                 usleep_range 1000 2000 ;;
                 tc358768_power_on bus_ret mipi d' ;;
                 tc358768_dsi_xfer_short bus_ret
                   (MIPI_DSI_TURN_ON_PERIPHERAL mipi) 0 0 ;;
                 tc358768_dsi_xfer_short bus_ret
                   (MIPI_DSI_DCS_SHORT_WRITE_PARAM mipi)
                   (MIPI_DCS_SET_PIXEL_FORMAT mipi)
                   (MIPI_DCS_PIXEL_FMT_24BIT mipi) ;;
                 ret (0, d'))
                (enable_accesses mipi d')).
  { unfold enable_accesses, panel_accesses.
    apply agrees_seq.
    { destruct (reset_gpio d'); [apply agrees_emit | apply agrees_ret]. }
    apply agrees_seq; [apply agrees_emit |].
    apply agrees_seq; [apply power_on_runs |].
    apply agrees_seq; [apply xfer_short_runs |].
    rewrite <- (app_nil_r (xfer_short_accesses _ _ _)).
    apply agrees_seq; [apply xfer_short_runs | apply agrees_ret]. }
  apply G.
Qed.
End Runs.

(** ** Views of a run *)

Section Views.
Variable bus_ret : nat -> Z.

Local Abbreviation run := (run_accesses bus_ret).

Lemma trace_run_nil (s : bus) : trace (run [] s) = [].
Proof. reflexivity. Qed.

Lemma trace_run_write (reg val : Z) (s : bus) :
  trace (run_access bus_ret (AWrite reg val) s)
  = write_events reg val (bus_ret (ntx s)) (bus_ret (S (ntx s))).
Proof. apply trace_write. Qed.

Lemma trace_run_emit (e : event) (s : bus) :
  trace (run_access bus_ret (AEmit e) s) = [e].
Proof. reflexivity. Qed.

Lemma hidden_quiet (p : Z -> bool) (q : event -> bool) (reg : Z) :
  negb (p reg) && negb (p (wrap16 reg))
  && ((reg <? 0x100) || (reg >=? 0x600)
      || negb (p (wrap16 (wrap32 (reg + 2))))) = true ->
  quiet (reg_view p q) reg.
Proof.
  intros H. apply andb_true_iff in H. destruct H as [H H3].
  apply andb_true_iff in H. destruct H as [H1 H2].
  apply negb_true_iff in H1, H2.
  unfold quiet, reg_view.
  refine (conj _ (conj _ (conj _ (conj _ (conj _ _))))); intros;
    try assumption.
  rewrite H in H3. cbn [orb] in H3. apply negb_true_iff in H3.
  split; intros; exact H3.
Qed.

Lemma filter_access_hidden (p : Z -> bool) (q : event -> bool)
      (a : access) (s : bus) :
  hidden p q a = true ->
  filter (reg_view p q) (trace (run_access bus_ret a s)) = [].
Proof.
  destruct a as [reg val | reg mask val | e]; cbn [hidden]; intros H.
  - apply filter_write_quiet. now apply hidden_quiet.
  - apply filter_update_bits_quiet. now apply hidden_quiet.
  - rewrite trace_run_emit. cbn [filter].
    apply negb_true_iff in H. now rewrite H.
Qed.

Lemma filter_run_hidden (p : Z -> bool) (q : event -> bool)
      (l : list access) :
  forallb (hidden p q) l = true ->
  forall s, filter (reg_view p q) (trace (run l s)) = [].
Proof.
  induction l as [| a l IH]; intros H s; [reflexivity |].
  cbn [forallb] in H. apply andb_true_iff in H. destruct H as [Ha Hl].
  rewrite trace_run_cons, filter_app.
  rewrite filter_access_hidden by exact Ha. now rewrite IH.
Qed.

(** A view that sees only the middle of a run. *)
Lemma filter_run_middle (p : Z -> bool) (q : event -> bool)
      (l1 l2 l3 : list access) (s : bus) :
  forallb (hidden p q) l1 = true -> forallb (hidden p q) l3 = true ->
  filter (reg_view p q) (trace (run (l1 ++ l2 ++ l3) s))
  = filter (reg_view p q) (trace (run l2 (final (run l1 s)))).
Proof.
  intros H1 H3. rewrite !trace_run_app, !filter_app.
  rewrite (filter_run_hidden p q l1 H1), (filter_run_hidden p q l3 H3).
  now rewrite app_nil_r.
Qed.

Lemma served_run (l : list access) :
  forallb step_ok l = true -> forall s, served (trace (run l s)).
Proof.
  induction l as [| a l IH]; intros H s; [constructor |].
  cbn [forallb] in H. apply andb_true_iff in H. destruct H as [Ha Hl].
  rewrite trace_run_cons. apply served_app; [| now apply IH].
  destruct a as [reg val | reg mask val | e].
  - apply served_write.
  - apply served_update_bits.
  - rewrite trace_run_emit. cbn [step_ok] in Ha.
    apply andb_true_iff in Ha. destruct Ha as [H1 H2].
    apply negb_true_iff in H1, H2. now apply served_one.
Qed.

Lemma filter_none (f g : event -> bool) (t : list event) :
  (forall e, g e = true -> f e = false) ->
  filter g t = t -> filter f t = [].
Proof.
  intros H. induction t as [| e t IH]; [reflexivity |].
  cbn [filter]. destruct (g e) eqn:G.
  - intros [= E]. rewrite (H e G). now apply IH.
  - intros E. exfalso.
    assert (L : (length (filter g t) <= length t)%nat)
      by apply filter_length_le.
    rewrite E in L. cbn [length] in L. lia.
Qed.

Lemma steps_write (reg val r r' : Z) :
  negb (reg =? TC358768_PP_MISC) && negb (reg =? TC358768_CONFCTL) = true ->
  filter is_step (write_events reg val r r') = step_of (AWrite reg val).
Proof.
  intros H. unfold write_events, step_of.
  destruct ((reg <? 256) || (reg >=? 1536)); cbn [filter is_step];
    rewrite H; [reflexivity |].
  destruct (r =? 0); reflexivity.
Qed.

Lemma steps_update (reg mask val : Z) (s : bus) :
  (reg =? TC358768_PP_MISC) || (reg =? TC358768_CONFCTL) = true ->
  filter is_step (trace (tc358768_update_bits bus_ret reg mask val s)) = [].
Proof.
  intros H. rewrite update_bits_run.
  assert (Hn : negb (reg =? TC358768_PP_MISC)
               && negb (reg =? TC358768_CONFCTL) = false).
  { rewrite <- negb_orb, H. reflexivity. }
  assert (R : filter is_step (trace (tc358768_read bus_ret reg s)) = []).
  { apply (filter_none is_step is_bus_read).
    - intros [] E; try discriminate E. reflexivity.
    - apply read_shape. }
  destruct (value (tc358768_read bus_ret reg s)) as [orig | e];
    [| exact R].
  cbn zeta. destruct (rmw_value orig mask val =? orig); cbn [trace];
    rewrite filter_app, R; [reflexivity |].
  cbn [app filter is_step]. rewrite trace_write. unfold write_events.
  destruct ((reg <? 256) || (reg >=? 1536)); cbn [filter is_step];
    rewrite Hn; [reflexivity |].
  destruct (bus_ret _ =? 0); reflexivity.
Qed.

Lemma steps_run (l : list access) :
  forallb step_ok l = true ->
  forall s, filter is_step (trace (run l s)) = flat_map step_of l.
Proof.
  induction l as [| a l IH]; intros H s; [reflexivity |].
  cbn [forallb] in H. apply andb_true_iff in H. destruct H as [Ha Hl].
  rewrite trace_run_cons, filter_app. cbn [flat_map].
  rewrite (IH Hl). f_equal.
  destruct a as [reg val | reg mask val | e]; cbn [step_ok] in Ha.
  - rewrite trace_run_write. now apply steps_write.
  - now apply steps_update.
  - reflexivity.
Qed.
End Views.

Lemma filter_write16_shown (p : Z -> bool) (q : event -> bool)
      (reg val r r' : Z) :
  (reg <? 0x100) || (reg >=? 0x600) = true ->
  p reg = true -> p (wrap16 reg) = true ->
  filter (reg_view p q) (write_events reg val r r')
  = [DbgWr16 reg val; BusWrite (wrap16 reg) (wrap16 val) r].
Proof.
  intros W P1 P2. unfold write_events. rewrite W.
  cbn [filter reg_view]. now rewrite P1, P2.
Qed.

Lemma filter_write32_shown (p : Z -> bool) (q : event -> bool)
      (reg val r r' : Z) :
  (reg <? 0x100) || (reg >=? 0x600) = false ->
  p reg = true -> p (wrap16 reg) = true ->
  p (wrap16 (wrap32 (reg + 2))) = true ->
  filter (reg_view p q) (write_events reg val r r')
  = DbgWr32 reg val
    :: BusWrite (wrap16 reg) (wrap16 val) r
    :: (if r =? 0
        then [BusWrite (wrap16 (wrap32 (reg + 2)))
                       (wrap16 (Z.shiftr val 16)) r']
        else []).
Proof.
  intros W P1 P2 P3. unfold write_events. rewrite W.
  cbn [filter reg_view]. rewrite P1, P2.
  destruct (r =? 0); cbn [filter reg_view]; now rewrite ?P3.
Qed.

(** Unfolds the trace of a short run and applies the view to each
    access. *)
Ltac view_run :=
  rewrite ?trace_run_cons, ?trace_run_nil, ?trace_run_write,
    ?trace_run_emit, ?filter_app;
  repeat first
    [ rewrite filter_write_events_quiet by (apply hidden_quiet; reflexivity)
    | rewrite filter_write16_shown by reflexivity
    | rewrite filter_write32_shown by reflexivity ].

Lemma power_on_split_video (mipi : mipi_display) (d : tc358768_drv_data) :
  power_on_accesses mipi d
  = (reset_accesses ++ pll_accesses d ++ format_accesses ++ phy_accesses
     ++ timing_accesses
     ++ xfer_short_accesses (MIPI_DSI_DCS_SHORT_WRITE mipi)
                            (MIPI_DCS_EXIT_SLEEP_MODE mipi) 0
     ++ start_accesses)
    ++ video_accesses d ++ (confw_accesses ++ pipe_accesses).
Proof. unfold power_on_accesses. now rewrite <- !app_assoc. Qed.

(** What [tc358768_power_on] sends to the two sync-width registers. *)
Lemma power_on_sync_writes (bus_ret : nat -> Z) (mipi : mipi_display)
      (d : tc358768_drv_data) (s : bus) :
  (exists r,
      filter (at_reg TC358768_DSI_VSW)
             (trace (tc358768_power_on bus_ret mipi d s))
      = [DbgWr16 TC358768_DSI_VSW (dsi_vsw_value d);
         BusWrite TC358768_DSI_VSW (wrap16 (dsi_vsw_value d)) r])
  /\ (exists r,
      filter (at_reg TC358768_DSI_HSW)
             (trace (tc358768_power_on bus_ret mipi d s))
      = [DbgWr16 TC358768_DSI_HSW (dsi_hsw_value d);
         BusWrite TC358768_DSI_HSW (wrap16 (dsi_hsw_value d)) r]).
Proof.
  destruct (power_on_runs bus_ret mipi d s) as [T _]. rewrite T.
  rewrite power_on_split_video. unfold at_reg.
  split.
  - rewrite filter_run_middle by reflexivity.
    unfold video_accesses. view_run. cbn [filter app].
    eexists. reflexivity.
  - rewrite filter_run_middle by reflexivity.
    unfold video_accesses. view_run. cbn [filter app].
    eexists. reflexivity.
Qed.

(** ** Claims on the bring-up sequence *)

(** C6 (as amended).  Bring-up requests one write to each sync-width
    register: the 32-bit value [vsw + vbp] for the vertical one, and for
    the horizontal one
    [(hsw + hbp) * (bitclk / 4) * dsi_ndl / pixelclock] computed with a
    32-bit sum, a 64-bit product and a 32-bit quotient; the 16-bit
    register receives the low half.  Whenever the exact values fit the
    16-bit registers (and the horizontal sum and product fit 32 and 64
    bits) the registers receive exactly [vsw + vbp] and the truncated
    quotient. *)
Theorem power_on_sync_widths (bus_ret : nat -> Z) (mipi : mipi_display)
        (d : tc358768_drv_data) (s : bus) :
  let t := trace (tc358768_power_on bus_ret mipi d s) in
  let vs := vsw d + vbp d in
  let hs := (hsw d + hbp d) * (bitclk d / 4) * dsi_ndl d / pixelclock d in
  (exists r,
      filter (at_reg TC358768_DSI_VSW) t
      = [DbgWr16 TC358768_DSI_VSW (wrap32 vs);
         BusWrite TC358768_DSI_VSW (wrap16 (wrap32 vs)) r])
  /\ (exists r,
      filter (at_reg TC358768_DSI_HSW) t
      = [DbgWr16 TC358768_DSI_HSW (dsi_hsw_value d);
         BusWrite TC358768_DSI_HSW (wrap16 (dsi_hsw_value d)) r])
  /\ (drv_data_u32 d -> vs < 2 ^ 16 ->
      wrap32 vs = vs /\ wrap16 (wrap32 vs) = vs)
  /\ (drv_data_u32 d -> is_u32 (bitclk d) -> 0 < pixelclock d ->
      hsw d + hbp d < 2 ^ 32 ->
      (hsw d + hbp d) * (bitclk d / 4) * dsi_ndl d < 2 ^ 64 ->
      hs < 2 ^ 16 ->
      dsi_hsw_value d = hs /\ wrap16 (dsi_hsw_value d) = hs).
Proof.
  intros t vs hs.
  destruct (power_on_sync_writes bus_ret mipi d s) as [V H].
  split; [exact V |]. split; [exact H |]. split.
  - intros U Hv. destruct U. unfold is_u32 in *. subst vs.
    rewrite wrap32_small by lia. split; [reflexivity |].
    apply wrap16_small. lia.
  - intros U Ub Hp Hs Hm Hq. destruct U. unfold is_u32 in *.
    assert (B4 : 0 <= bitclk d / 4 < 2 ^ 32).
    { split; [apply Z.div_pos; lia | apply Z.div_lt_upper_bound; lia]. }
    subst hs. unfold dsi_hsw_value, div_u64.
    set (q := bitclk d / 4) in *.
    assert (P1 : 0 <= (hsw d + hbp d) * q < 2 ^ 64) by nia.
    assert (P2 : 0 <= (hsw d + hbp d) * q * dsi_ndl d) by nia.
    assert (Q0 : 0 <= (hsw d + hbp d) * q * dsi_ndl d / pixelclock d)
      by (apply Z.div_pos; lia).
    rewrite (wrap32_small (hsw d + hbp d)) by lia.
    rewrite (wrap64_small ((hsw d + hbp d) * q)) by exact P1.
    rewrite wrap64_small by lia.
    rewrite wrap32_small by lia.
    split; [reflexivity |]. apply wrap16_small. lia.
Qed.

Lemma power_on_sync_widths_witness :
  wrap16 (wrap32 (vsw probe_data + vbp probe_data)) = 26
  /\ wrap16 (dsi_hsw_value (set_pll probe_data 23 0 0 464700000)) = 183.
Proof.
  pose (d := set_pll probe_data 23 0 0 464700000).
  assert (U : drv_data_u32 d) by (constructor; u32_const).
  assert (Ub : is_u32 (bitclk d)) by u32_const.
  destruct (power_on_sync_widths no_fault mipi_std d bus0)
    as (_ & _ & V & H).
  split.
  - apply (V U). reflexivity.
  - apply (H U Ub); reflexivity.
Defined.

(** C6 as stated fails where the 32-bit sum wraps: with
    [vsw = 4294967295] and [vbp = 1] the value requested for, and
    written to, the vertical sync-width register is 0. *)
Lemma power_on_vsw_wraps :
  let o := tc358768_enable no_fault mipi_std data_wide_vsync bus0 in
  valid_config data_wide_vsync /\ drv_data_u32 data_wide_vsync
  /\ fst (value o) = 0
  /\ filter (at_reg TC358768_DSI_VSW) (trace o)
     = [DbgWr16 TC358768_DSI_VSW 0; BusWrite TC358768_DSI_VSW 0 0]
  /\ vsw data_wide_vsync + vbp data_wide_vsync = 4294967296.
Proof.
  split; [unfold valid_config; cbn; lia |].
  split; [constructor; u32_const |].
  split; [vm_compute; reflexivity |].
  split; vm_compute; reflexivity.
Qed.

Lemma enable_split_pll (mipi : mipi_display) (d : tc358768_drv_data) :
  enable_accesses mipi d
  = (if reset_gpio d then [AEmit (GpioSet 1)] else [])
    ++ (AEmit (Usleep 1000 2000) :: reset_accesses ++ pll_accesses d)
    ++ (format_accesses ++ phy_accesses ++ timing_accesses
        ++ xfer_short_accesses (MIPI_DSI_DCS_SHORT_WRITE mipi)
                               (MIPI_DCS_EXIT_SLEEP_MODE mipi) 0
        ++ start_accesses ++ video_accesses d ++ confw_accesses
        ++ pipe_accesses ++ panel_accesses mipi).
Proof.
  unfold enable_accesses, power_on_accesses. cbn [app].
  now rewrite <- !app_assoc.
Qed.

Lemma enable_split_confw (mipi : mipi_display) (d : tc358768_drv_data) :
  enable_accesses mipi d
  = ((if reset_gpio d then [AEmit (GpioSet 1)] else [])
     ++ AEmit (Usleep 1000 2000) :: reset_accesses ++ pll_accesses d
     ++ format_accesses ++ phy_accesses ++ timing_accesses
     ++ xfer_short_accesses (MIPI_DSI_DCS_SHORT_WRITE mipi)
                            (MIPI_DCS_EXIT_SLEEP_MODE mipi) 0
     ++ start_accesses ++ video_accesses d)
    ++ confw_accesses ++ (pipe_accesses ++ panel_accesses mipi).
Proof.
  unfold enable_accesses, power_on_accesses. cbn [app].
  now rewrite <- !app_assoc.
Qed.

Lemma pllctl1_bits (frs cken : Z) :
  0 <= frs < 4 -> 0 <= cken <= 1 ->
  0 <= pllctl1 frs cken < 2 ^ 16
  /\ Z.testbit (pllctl1 frs cken) 0 = true
  /\ Z.testbit (pllctl1 frs cken) 4 = Z.testbit cken 0.
Proof.
  intros Hf Hc.
  assert (F : frs = 0 \/ frs = 1 \/ frs = 2 \/ frs = 3) by lia.
  assert (C : cken = 0 \/ cken = 1) by lia.
  destruct F as [-> | [-> | [-> | ->]]]; destruct C as [-> | ->];
    vm_compute; repeat split; congruence.
Qed.

(** C9.  Whatever the bus does, the trace of a bring-up that passed the
    solver shows: the PLL control register written first with the
    clock-output bit (bit 4) clear and the enable bit set, then a sleep
    of 1000 to 2000 microseconds, then written with bit 4 set, and
    nothing else on that register; and the DSI configuration word
    requested first with the set opcode (5 in bits 31:29), then with the
    clear opcode (6), each request followed by its low half and, when
    that half went through, its high half carrying the opcode. *)
Theorem enable_sequencing_order (bus_ret : nat -> Z) (mipi : mipi_display)
        (d d' : tc358768_drv_data) (s : bus) :
  tc358768_calc_pll d = PllOk d' ->
  let t := trace (tc358768_enable bus_ret mipi d s) in
  let v0 := pllctl1 (frs d') 0 in
  let v1 := pllctl1 (frs d') 1 in
  (exists r0 r1,
      filter pll_view t
      = [Usleep 1000 2000;
         DbgWr16 TC358768_PLLCTL1 v0; BusWrite TC358768_PLLCTL1 v0 r0;
         Usleep 1000 2000;
         DbgWr16 TC358768_PLLCTL1 v1; BusWrite TC358768_PLLCTL1 v1 r1])
  /\ (Z.testbit v0 0 = true /\ Z.testbit v0 4 = false
      /\ Z.testbit v1 0 = true /\ Z.testbit v1 4 = true)
  /\ (exists ra rb rc rd,
      filter confw_view t
      = DbgWr32 TC358768_DSI_CONFW 0xA30000A7
        :: BusWrite 0x0500 0x00A7 ra
        :: (if ra =? 0 then [BusWrite 0x0502 0xA300 rb] else [])
        ++ DbgWr32 TC358768_DSI_CONFW 0xC3008000
           :: BusWrite 0x0500 0x8000 rc
           :: (if rc =? 0 then [BusWrite 0x0502 0xC300 rd] else []))
  /\ (Z.shiftr 0xA30000A7 29 = 5 /\ Z.shiftr 0xA300 13 = 5
      /\ Z.shiftr 0xC3008000 29 = 6 /\ Z.shiftr 0xC300 13 = 6).
Proof.
  intros H t v0 v1.
  destruct (enable_runs bus_ret mipi d d' s H) as [_ T].
  destruct (calc_pll_ok d d' H) as (_ & _ & Hf & _).
  destruct (pllctl1_bits (frs d') 0 Hf) as (R0 & A0 & B0); [lia |].
  destruct (pllctl1_bits (frs d') 1 Hf) as (R1 & A1 & B1); [lia |].
  fold v0 in R0, A0, B0. fold v1 in R1, A1, B1.
  split; [| split; [| split]].
  - subst t. rewrite T, enable_split_pll. unfold pll_view.
    rewrite filter_run_middle;
      [| destruct (reset_gpio d'); reflexivity | reflexivity].
    unfold reset_accesses, pll_accesses. cbn [app]. view_run.
    cbn [filter reg_view is_sleep app]. fold v0. fold v1.
    rewrite (wrap16_small v0) by exact R0.
    rewrite (wrap16_small v1) by exact R1.
    eexists. eexists. reflexivity.
  - repeat split; assumption.
  - subst t. rewrite T, enable_split_confw. unfold confw_view.
    rewrite filter_run_middle;
      [| destruct (reset_gpio d'); reflexivity | reflexivity].
    unfold confw_accesses. view_run.
    cbn [filter app]. rewrite app_nil_r. do 4 eexists. reflexivity.
  - repeat split; reflexivity.
Qed.

Lemma enable_sequencing_order_witness :
  exists r0 r1,
    filter pll_view
           (trace (tc358768_enable (fault_at 7) mipi_std probe_data bus0))
    = [Usleep 1000 2000;
       DbgWr16 TC358768_PLLCTL1 0x203; BusWrite TC358768_PLLCTL1 0x203 r0;
       Usleep 1000 2000;
       DbgWr16 TC358768_PLLCTL1 0x213; BusWrite TC358768_PLLCTL1 0x213 r1].
Proof.
  assert (H : tc358768_calc_pll probe_data
              = PllOk (set_pll probe_data 23 0 0 464700000))
    by (vm_compute; reflexivity).
  exact (proj1 (enable_sequencing_order (fault_at 7) mipi_std probe_data _
                                        bus0 H)).
Defined.

Lemma enable_split_pipe (mipi : mipi_display) (d : tc358768_drv_data) :
  enable_accesses mipi d
  = before_pipe_accesses mipi d ++ pipe_accesses ++ panel_accesses mipi.
Proof.
  unfold enable_accesses, power_on_accesses, before_pipe_accesses.
  cbn [app]. now rewrite <- !app_assoc.
Qed.

(** *** Every access is served once *)

Section Follows.
Variable bus_ret : nat -> Z.

Local Abbreviation run := (run_accesses bus_ret).

Lemma update_bits16_trace (reg mask val : Z) (s : bus) :
  reg < 0x100 \/ 0x600 <= reg ->
  trace (tc358768_update_bits bus_ret reg mask val s)
  = update_events reg mask val (value (tc358768_read bus_ret reg s))
                  (bus_ret (S (ntx s))).
Proof.
  intros H. rewrite update_bits_run, read16_run by exact H.
  unfold regmap_read, update_events. cbn [value final trace].
  destruct (bus_ret (ntx s) =? 0); [| reflexivity].
  cbn zeta.
  destruct (rmw_value (wrap16 (regs s (wrap16 reg))) mask val
            =? wrap16 (regs s (wrap16 reg))); [reflexivity |].
  cbn zeta. rewrite write16_run by exact H. reflexivity.
Qed.

Lemma step_ok_update16 (reg mask val : Z) :
  step_ok (AUpdate reg mask val) = true ->
  (reg <? 0x100) || (reg >=? 0x600) = true /\ (reg < 0x100 \/ 0x600 <= reg).
Proof.
  cbn [step_ok]. intros H. apply orb_true_iff in H.
  destruct H as [H | H]; apply Z.eqb_eq in H; subst reg;
    (split; [reflexivity | left; reflexivity]).
Qed.

Lemma follows_run (l : list access) :
  forallb step_ok l = true -> forall s, follows l (trace (run l s)).
Proof.
  induction l as [| a l IH]; intros H s; [constructor |].
  cbn [forallb] in H. apply andb_true_iff in H. destruct H as [Ha Hl].
  rewrite trace_run_cons.
  destruct a as [reg val | reg mask val | e].
  - rewrite trace_run_write. apply follows_write. now apply IH.
  - destruct (step_ok_update16 reg mask val Ha) as [W W'].
    cbn [run_access trace final].
    rewrite update_bits16_trace by exact W'.
    apply follows_update; [exact W | | now apply IH].
    apply read_shape.
  - rewrite trace_run_emit. cbn [app]. apply follows_emit. now apply IH.
Qed.

Lemma bus_reads_run (l : list access) :
  forallb no_read l = true -> forall s, bus_reads (trace (run l s)) = [].
Proof.
  induction l as [| a l IH]; intros H s; [reflexivity |].
  cbn [forallb] in H. apply andb_true_iff in H. destruct H as [Ha Hl].
  rewrite trace_run_cons. unfold bus_reads. rewrite filter_app.
  fold (bus_reads (trace (run l (final (run_access bus_ret a s))))).
  rewrite (IH Hl), app_nil_r.
  destruct a as [reg val | reg mask val | e].
  - apply write_shape.
  - discriminate Ha.
  - rewrite trace_run_emit. cbn [filter]. cbn [no_read] in Ha.
    apply negb_true_iff in Ha. now rewrite Ha.
Qed.

Lemma bus_reads_update_events (reg mask val : Z) (res : read_result)
      (r : Z) :
  bus_reads (update_events reg mask val res r) = [BusRead (wrap16 reg) res].
Proof.
  unfold update_events, bus_reads. destruct res as [orig | e];
    [| reflexivity].
  cbn zeta. destruct (rmw_value orig mask val =? orig); reflexivity.
Qed.

Lemma filter_update_events_shown (p : Z -> bool) (q : event -> bool)
      (reg mask val : Z) (res : read_result) (r : Z) :
  p reg = true -> p (wrap16 reg) = true ->
  filter (reg_view p q) (update_events reg mask val res r)
  = update_events reg mask val res r.
Proof.
  intros P1 P2. unfold update_events. destruct res as [orig | e];
    cbn [filter reg_view]; rewrite P2; [| reflexivity].
  cbn zeta. rewrite P1.
  destruct (rmw_value orig mask val =? orig); cbn [filter reg_view];
    now rewrite ?P1, ?P2.
Qed.

(** What a run shows of a 16-bit update in its middle. *)
Lemma view_run_update (p : Z -> bool) (q : event -> bool)
      (l1 l3 : list access) (reg mask val : Z) (s : bus) :
  reg < 0x100 \/ 0x600 <= reg ->
  p reg = true -> p (wrap16 reg) = true ->
  forallb (hidden p q) l1 = true -> forallb (hidden p q) l3 = true ->
  filter (reg_view p q)
         (trace (run (l1 ++ [AUpdate reg mask val] ++ l3) s))
  = update_events reg mask val
      (value (tc358768_read bus_ret reg (final (run l1 s))))
      (bus_ret (S (ntx (final (run l1 s))))).
Proof.
  intros W P1 P2 H1 H3. rewrite filter_run_middle by assumption.
  rewrite trace_run_cons, trace_run_nil, app_nil_r.
  cbn [run_access trace]. rewrite update_bits16_trace by exact W.
  now apply filter_update_events_shown.
Qed.
End Follows.

Lemma enable_accesses_steps (mipi : mipi_display) (d : tc358768_drv_data) :
  forallb step_ok (enable_accesses mipi d) = true
  /\ flat_map step_of (enable_accesses mipi d) = enable_steps mipi d.
Proof.
  unfold enable_accesses, enable_steps.
  destruct (reset_gpio d); split; reflexivity.
Qed.

(** The two closing updates in the middle of bring-up, and what
    surrounds them. *)
Lemma enable_pipe_hidden (mipi : mipi_display) (d : tc358768_drv_data) :
  forallb (hidden (fun a => a =? TC358768_PP_MISC) none)
          (before_pipe_accesses mipi d) = true
  /\ forallb (hidden (fun a => a =? TC358768_CONFCTL) none)
             (before_pipe_accesses mipi d) = true
  /\ forallb no_read (before_pipe_accesses mipi d) = true
  /\ forallb no_read (panel_accesses mipi) = true.
Proof.
  unfold before_pipe_accesses.
  destruct (reset_gpio d); refine (conj _ (conj _ (conj _ _)));
    reflexivity.
Qed.

(** C2 (as amended).  A bus error during bring-up is not propagated and
    does not stop the sequence.  Once the solver has succeeded,
    [tc358768_enable] returns 0 whatever the bus returns, and its trace
    is the bring-up sequence served access by access, in program order
    and each access once: every write request is followed by its own
    bus transactions and no more (a failed low half only drops the high
    half of the same 32-bit write), and each of the two closing
    read-modify-writes is one read followed, only if the read succeeded
    and the merged value differs, by one write (a failed read only drops
    the write of the same update).  Nothing is retried: the trace holds
    nothing else, and the two reads are the only ones on the bus.  Only
    a solver failure surfaces to the caller, as [-EINVAL] and before
    anything is put on the bus (the solver's division being defined). *)
Theorem enable_ignores_bus_errors (bus_ret : nat -> Z) (mipi : mipi_display)
        (d : tc358768_drv_data) (s : bus) :
  let o := tc358768_enable bus_ret mipi d s in
  (forall d', tc358768_calc_pll d = PllOk d' ->
     value o = (0, d')
     /\ filter is_step (trace o) = enable_steps mipi d'
     /\ served (trace o)
     /\ follows (enable_accesses mipi d') (trace o)
     /\ exists res1 r1 res2 r2,
          filter (at_reg TC358768_PP_MISC) (trace o)
          = update_events TC358768_PP_MISC (Z.shiftl 0x3 14) 0 res1 r1
          /\ filter (at_reg TC358768_CONFCTL) (trace o)
             = update_events TC358768_CONFCTL (Z.shiftl 1 6) (Z.shiftl 1 6)
                             res2 r2
          /\ bus_reads (trace o)
             = [BusRead TC358768_PP_MISC res1;
                BusRead TC358768_CONFCTL res2])
  /\ (wrap32 (8 * dsi_ndl d) <> 0 ->
      forall e, tc358768_calc_pll d = PllErr e ->
      value o = (- EINVAL, d) /\ trace o = [] /\ final o = s).
Proof.
  intros o. subst o. split.
  - intros d' H.
    destruct (enable_runs bus_ret mipi d d' s H) as [V T].
    destruct (enable_accesses_steps mipi d') as [Ok St].
    destruct (enable_pipe_hidden mipi d') as (H1 & H2 & N1 & N2).
    split; [exact V |]. rewrite T.
    split; [rewrite steps_run by exact Ok; exact St |].
    split; [now apply served_run |].
    split; [now apply follows_run |].
    rewrite enable_split_pipe. unfold pipe_accesses.
    set (B := before_pipe_accesses mipi d') in *.
    set (U1 := AUpdate TC358768_PP_MISC (Z.shiftl 3 14) 0).
    set (U2 := AUpdate TC358768_CONFCTL (Z.shiftl 1 6) (Z.shiftl 1 6)).
    set (S1 := final (run_accesses bus_ret B s)).
    set (S2 := final (run_accesses bus_ret [U1] S1)).
    exists (value (tc358768_read bus_ret TC358768_PP_MISC S1)),
           (bus_ret (S (ntx S1))),
           (value (tc358768_read bus_ret TC358768_CONFCTL S2)),
           (bus_ret (S (ntx S2))).
    refine (conj _ (conj _ _)).
    + unfold at_reg.
      apply (view_run_update bus_ret _ none B (U2 :: panel_accesses mipi));
        first [ reflexivity | exact H1 | left; reflexivity ].
    + unfold at_reg.
      change (B ++ [U1; U2] ++ panel_accesses mipi)
        with (B ++ [U1] ++ [U2] ++ panel_accesses mipi).
      rewrite (app_assoc B [U1]). unfold U2.
      rewrite (view_run_update bus_ret (fun a => a =? TC358768_CONFCTL)
                 none (B ++ [U1]) (panel_accesses mipi) TC358768_CONFCTL
                 (Z.shiftl 1 6) (Z.shiftl 1 6) s);
        [ now rewrite final_run_app | left; reflexivity | reflexivity
        | reflexivity | rewrite forallb_app, H2; reflexivity
        | reflexivity ].
    + change (B ++ [U1; U2] ++ panel_accesses mipi)
        with (B ++ [U1] ++ [U2] ++ panel_accesses mipi).
      rewrite !trace_run_app. unfold bus_reads. rewrite !filter_app.
      fold S1. fold S2.
      change (filter is_bus_read) with bus_reads.
      rewrite (bus_reads_run bus_ret B N1).
      rewrite (bus_reads_run bus_ret (panel_accesses mipi) N2).
      rewrite !trace_run_cons, !trace_run_nil, !app_nil_r.
      unfold U1, U2. cbn [run_access trace].
      rewrite !update_bits16_trace by (left; reflexivity).
      rewrite !bus_reads_update_events. reflexivity.
  - intros _ e H. unfold tc358768_enable. rewrite H.
    repeat split; reflexivity.
Qed.

Lemma enable_ignores_bus_errors_witness :
  value (tc358768_enable (fault_at 0) mipi_std probe_data bus0)
  = (0, set_pll probe_data 23 0 0 464700000)
  /\ served (trace (tc358768_enable (fault_at 0) mipi_std probe_data bus0))
  /\ follows (enable_accesses mipi_std (set_pll probe_data 23 0 0 464700000))
             (trace (tc358768_enable (fault_at 0) mipi_std probe_data bus0))
  /\ value (tc358768_enable (fault_at 0) mipi_std data_8mhz bus0)
     = (- EINVAL, data_8mhz).
Proof.
  assert (H : tc358768_calc_pll probe_data
              = PllOk (set_pll probe_data 23 0 0 464700000))
    by (vm_compute; reflexivity).
  assert (H' : tc358768_calc_pll data_8mhz = PllErr OutOfRange)
    by (vm_compute; reflexivity).
  assert (D : wrap32 (8 * dsi_ndl data_8mhz) <> 0)
    by (vm_compute; discriminate).
  destruct (enable_ignores_bus_errors (fault_at 0) mipi_std probe_data bus0)
    as [A _].
  destruct (A _ H) as (V & _ & S & F & _).
  destruct (enable_ignores_bus_errors (fault_at 0) mipi_std data_8mhz bus0)
    as [_ B].
  destruct (B D _ H') as (V' & _).
  split; [exact V | split; [exact S | split; [exact F | exact V']]].
Defined.

(** C2 as stated fails: when the very first register write of bring-up
    fails, 67 further writes are still put on the bus, starting with the
    next one of the sequence, and [tc358768_enable] returns 0. *)
Lemma enable_continues_after_bus_error :
  let o := tc358768_enable (fault_at 0) mipi_std probe_data bus0 in
  nth_error (trace o) 3 = Some (BusWrite TC358768_SYSCTL 1 (- EIO))
  /\ nth_error (trace o) 5 = Some (BusWrite TC358768_SYSCTL 0 0)
  /\ length (bus_writes (skipn 4 (trace o))) = 67%nat
  /\ fst (value o) = 0.
Proof. vm_compute. repeat split; reflexivity. Qed.

(** * Further properties of the driver *)

(** ** Register access: widths, frames and failures *)

Lemma lor_u32 (a b : Z) :
  0 <= a < 2 ^ 32 -> 0 <= b < 2 ^ 32 -> 0 <= Z.lor a b < 2 ^ 32.
Proof.
  intros Ha Hb. split; [apply Z.lor_nonneg; lia |].
  destruct (Z.eq_dec (Z.lor a b) 0) as [E | N]; [rewrite E; lia |].
  assert (P : 0 < Z.lor a b).
  { assert (0 <= Z.lor a b) by (apply Z.lor_nonneg; lia). lia. }
  apply Z.log2_lt_pow2; [exact P |].
  rewrite Z.log2_lor by lia.
  assert (La : Z.log2 a < 32).
  { destruct (Z.eq_dec a 0) as [-> | Na]; [cbn; lia |].
    apply Z.log2_lt_pow2; lia. }
  assert (Lb : Z.log2 b < 32).
  { destruct (Z.eq_dec b 0) as [-> | Nb]; [cbn; lia |].
    apply Z.log2_lt_pow2; lia. }
  lia.
Qed.

(** X1.  A read returns a value of the register's width (below [2^16]
    for a 16-bit address, below [2^32] otherwise), whatever the store
    holds; it changes no register and takes one or two transactions. *)
Theorem read_value_range (bus_ret : nat -> Z) (reg : Z) (s : bus) :
  let rd := tc358768_read bus_ret reg s in
  (forall v, value rd = ReadOk v ->
     0 <= v < 2 ^ 32
     /\ ((reg <? 0x100) || (reg >=? 0x600) = true -> v < 2 ^ 16))
  /\ (forall a, regs (final rd) a = regs s a)
  /\ (S (ntx s) <= ntx (final rd) <= S (S (ntx s)))%nat
  /\ ((reg <? 0x100) || (reg >=? 0x600) = true ->
      ntx (final rd) = S (ntx s)).
Proof.
  intros rd. subst rd.
  unfold tc358768_read, bind, regmap_read, ret.
  destruct ((reg <? 256) || (reg >=? 1536)) eqn:W;
    cbn [value final trace regs ntx].
  - split; [| split; [reflexivity | split; [lia | reflexivity]]].
    intros v. destruct (bus_ret (ntx s) =? 0); [| discriminate].
    intros [= <-]. pose proof (wrap16_range (regs s (wrap16 reg))).
    split; [lia | intros _; lia].
  - destruct (bus_ret (ntx s) =? 0); cbn [value final trace regs ntx].
    + destruct (bus_ret (S (ntx s)) =? 0); cbn [value final trace regs ntx].
      * split; [| split; [reflexivity | split; [lia | discriminate]]].
        intros v [= <-]. split; [| discriminate].
        apply lor_u32; [| apply wrap32_range].
        pose proof (wrap16_range (regs s (wrap16 reg))). lia.
      * split; [| split; [reflexivity | split; [lia | discriminate]]].
        intros v. discriminate.
    + split; [| split; [reflexivity | split; [lia | discriminate]]].
      intros v. discriminate.
Qed.

(** X2.  A write changes no register but its own (and, for a 32-bit
    address, the one at address + 2); when its first transaction fails
    it changes nothing at all and returns that error. *)
Theorem write_frame (bus_ret : nat -> Z) (reg val : Z) (s : bus) :
  let w := tc358768_write bus_ret reg val s in
  (forall a, a <> wrap16 reg ->
     ((reg <? 0x100) || (reg >=? 0x600) = true
      \/ a <> wrap16 (wrap32 (reg + 2))) ->
     regs (final w) a = regs s a)
  /\ (bus_ret (ntx s) <> 0 ->
      value w = bus_ret (ntx s) /\ forall a, regs (final w) a = regs s a).
Proof.
  intros w. subst w.
  unfold tc358768_write, bind, regmap_write, dev_dbg, emit, ret.
  destruct ((reg <? 256) || (reg >=? 1536)) eqn:W;
    cbn [value final trace regs ntx].
  - split.
    + intros a Ha _. destruct (bus_ret (ntx s) =? 0); [| reflexivity].
      unfold store_set. now replace (a =? wrap16 reg) with false
        by (symmetry; now apply Z.eqb_neq).
    + intros F. apply Z.eqb_neq in F. rewrite F. now split.
  - destruct (bus_ret (ntx s) =? 0) eqn:E;
      cbn [negb value final trace regs ntx].
    + split; [| intros F; apply Z.eqb_eq in E; contradiction].
      intros a Ha [Hw | Hb]; [discriminate |].
      destruct (bus_ret (S (ntx s)) =? 0); unfold store_set;
        repeat match goal with
        | |- context [a =? ?x] =>
            replace (a =? x) with false by (symmetry; now apply Z.eqb_neq)
        end; reflexivity.
    + split; [intros; reflexivity | intros _; now split].
Qed.

Lemma write_frame_witness :
  regs (final (tc358768_write no_fault TC358768_DSI_CONFW 0xA30000A7 bus0))
       TC358768_DSI_START = regs bus0 TC358768_DSI_START
  /\ value (tc358768_write (fault_at 0) TC358768_DSI_CONFW 0xA30000A7 bus0)
     = - EIO.
Proof.
  split.
  - destruct (write_frame no_fault TC358768_DSI_CONFW 0xA30000A7 bus0)
      as [A _].
    apply A; [discriminate | right; discriminate].
  - destruct (write_frame (fault_at 0) TC358768_DSI_CONFW 0xA30000A7 bus0)
      as [_ B].
    apply B. discriminate.
Defined.

Lemma read_value_range_witness :
  0 <= 0xA30000A7 < 2 ^ 32
  /\ ntx (final (tc358768_read no_fault TC358768_CONFCTL bus0)) = 1%nat.
Proof.
  destruct (read_value_range no_fault TC358768_DSI_CONFW
              (final (tc358768_write no_fault TC358768_DSI_CONFW
                                     0xA30000A7 bus0)))
    as (A & _).
  destruct (read_value_range no_fault TC358768_CONFCTL bus0)
    as (_ & _ & _ & B).
  split; [apply (A 0xA30000A7); reflexivity | apply B; reflexivity].
Defined.

(** X3.  On a 16-bit address a write that succeeds stores the low 16
    bits of the value: reading the register back returns
    [val mod 2^16], which is the value written exactly when that value
    is below [2^16]; higher bits are dropped without an error. *)
Theorem write16_read_back (bus_ret : nat -> Z) (reg val : Z) (s : bus) :
  reg < 0x100 \/ 0x600 <= reg ->
  bus_ret (ntx s) = 0 -> bus_ret (S (ntx s)) = 0 ->
  let w := tc358768_write bus_ret reg val s in
  value w = 0
  /\ value (tc358768_read bus_ret reg (final w)) = ReadOk (val mod 2 ^ 16)
  /\ (0 <= val < 2 ^ 16 ->
      value (tc358768_read bus_ret reg (final w)) = ReadOk val)
  /\ (2 ^ 16 <= val ->
      value (tc358768_read bus_ret reg (final w)) <> ReadOk val).
Proof.
  intros H16 F1 F2 w. subst w.
  rewrite write16_run by exact H16. cbn [value final].
  rewrite read16_run by exact H16. unfold regmap_read.
  cbn [value ntx regs]. rewrite F1, F2. cbn [Z.eqb].
  unfold store_set. rewrite Z.eqb_refl.
  rewrite (wrap16_small (wrap16 val)) by apply wrap16_range.
  fold (wrap16 val). pose proof (wrap16_range val) as R.
  split; [reflexivity |]. split; [reflexivity |]. split.
  - intros Hv. now rewrite wrap16_small.
  - intros Hv [= E]. lia.
Qed.

Lemma write16_read_back_witness :
  value (tc358768_read no_fault TC358768_DSI_VSW
           (final (tc358768_write no_fault TC358768_DSI_VSW 65562 bus0)))
  = ReadOk 26.
Proof.
  apply (write16_read_back no_fault TC358768_DSI_VSW 65562 bus0);
    [right; unfold TC358768_DSI_VSW; lia | reflexivity | reflexivity].
Defined.

(** X4.  A 32-bit write whose low half goes through and whose high half
    fails returns the error and leaves the register torn: the low word
    is the new one, the high word the old one, and a later read that
    succeeds returns that mixture. *)
Theorem write32_torn (bus_ret : nat -> Z) (reg val : Z) (s : bus) :
  0x100 <= reg < 0x600 ->
  bus_ret (ntx s) = 0 -> bus_ret (S (ntx s)) <> 0 ->
  let w := tc358768_write bus_ret reg val s in
  value w = bus_ret (S (ntx s))
  /\ regs (final w) reg = val mod 2 ^ 16
  /\ regs (final w) (reg + 2) = regs s (reg + 2)
  /\ (bus_ret (S (S (ntx s))) = 0 -> bus_ret (S (S (S (ntx s)))) = 0 ->
      value (tc358768_read bus_ret reg (final w))
      = ReadOk (Z.lor (val mod 2 ^ 16)
                      (Z.shiftl (regs s (reg + 2) mod 2 ^ 16) 16))).
Proof.
  intros H32 F1 F2 w. subst w.
  assert (A1 : wrap16 reg = reg) by (apply wrap16_small; lia).
  assert (A2 : wrap16 (wrap32 (reg + 2)) = reg + 2).
  { rewrite wrap32_small by lia. apply wrap16_small; lia. }
  rewrite write32_run_ok by assumption. cbn [value final regs].
  apply Z.eqb_neq in F2. rewrite F2. rewrite A1.
  unfold store_set. rewrite Z.eqb_refl.
  replace (reg + 2 =? reg) with false by (symmetry; apply Z.eqb_neq; lia).
  fold (wrap16 val).
  split; [reflexivity |]. split; [reflexivity |]. split; [reflexivity |].
  intros F3 F4.
  rewrite read32_run_ok; cbn [ntx regs]; try assumption.
  cbn [value]. rewrite A1, A2. rewrite Z.eqb_refl.
  replace (reg + 2 =? reg) with false by (symmetry; apply Z.eqb_neq; lia).
  rewrite (wrap16_small (wrap16 val)) by apply wrap16_range.
  rewrite wrap32_small
    by (apply shiftl16_range; apply wrap16_range).
  reflexivity.
Qed.

Lemma write32_torn_witness :
  value (tc358768_write (fault_at 1) TC358768_DSI_CONFW 0xA30000A7 bus0)
  = - EIO
  /\ value (tc358768_read (fault_at 1) TC358768_DSI_CONFW
              (final (tc358768_write (fault_at 1) TC358768_DSI_CONFW
                                     0xA30000A7 bus0)))
     = ReadOk 0xA7.
Proof.
  destruct (write32_torn (fault_at 1) TC358768_DSI_CONFW 0xA30000A7 bus0)
    as (A & _ & _ & B);
    [unfold TC358768_DSI_CONFW; lia | reflexivity | discriminate |].
  split; [exact A | apply B; reflexivity].
Defined.

(** A read that succeeds returns a 32-bit value. *)
Lemma read_ok_u32 (bus_ret : nat -> Z) (reg : Z) (s : bus) :
  forall v, value (tc358768_read bus_ret reg s) = ReadOk v ->
            0 <= v < 2 ^ 32.
Proof.
  unfold tc358768_read, bind, regmap_read, ret.
  destruct ((reg <? 256) || (reg >=? 1536)); cbn [value final trace regs ntx].
  - intros v. destruct (bus_ret (ntx s) =? 0); [| discriminate].
    intros [= <-]. pose proof (wrap16_range (regs s (wrap16 reg))). lia.
  - destruct (bus_ret (ntx s) =? 0); cbn [value final trace regs ntx];
      [| discriminate].
    destruct (bus_ret (S (ntx s)) =? 0); cbn [value final trace regs ntx];
      [| discriminate].
    intros v [= <-]. apply lor_u32; [| apply wrap32_range].
    pose proof (wrap16_range (regs s (wrap16 reg))). lia.
Qed.

(** A write stores at its own addresses only. *)
Lemma write_regs_frame (bus_ret : nat -> Z) (reg val : Z) (s : bus) (a : Z) :
  ~ In a (access_addresses (AWrite reg val)) ->
  regs (final (tc358768_write bus_ret reg val s)) a = regs s a.
Proof.
  unfold access_addresses, tc358768_write, bind, regmap_write, dev_dbg,
    emit, ret.
  destruct ((reg <? 256) || (reg >=? 1536));
    cbn [value final trace regs ntx In]; intros N.
  - destruct (bus_ret (ntx s) =? 0); [| reflexivity].
    unfold store_set. replace (a =? wrap16 reg) with false; [reflexivity |].
    symmetry. apply Z.eqb_neq. intros E. apply N. left. now symmetry.
  - assert (N1 : (a =? wrap16 reg) = false).
    { apply Z.eqb_neq. intros E. apply N. left. now symmetry. }
    assert (N2 : (a =? wrap16 (wrap32 (reg + 2))) = false).
    { apply Z.eqb_neq. intros E. apply N. right. left. now symmetry. }
    destruct (bus_ret (ntx s) =? 0); cbn [negb value final trace regs ntx];
      [| reflexivity].
    destruct (bus_ret (S (ntx s)) =? 0); unfold store_set;
      now rewrite ?N2, N1.
Qed.

Lemma update_regs_frame (bus_ret : nat -> Z) (reg mask val : Z) (s : bus)
      (a : Z) :
  ~ In a (access_addresses (AUpdate reg mask val)) ->
  regs (final (tc358768_update_bits bus_ret reg mask val s)) a = regs s a.
Proof.
  intros N. rewrite update_bits_run.
  destruct (read_shape bus_ret reg s) as (_ & _ & _ & R4 & _).
  destruct (value (tc358768_read bus_ret reg s)) as [orig | e];
    [| cbn [final]; now rewrite R4].
  cbn zeta. destruct (rmw_value orig mask val =? orig); cbn [final].
  - now rewrite R4.
  - rewrite write_regs_frame by exact N. now rewrite R4.
Qed.

Lemma run_regs_frame (bus_ret : nat -> Z) (l : list access) (a : Z) :
  ~ In a (flat_map access_addresses l) ->
  forall s, regs (final (run_accesses bus_ret l s)) a = regs s a.
Proof.
  induction l as [| acc l IH]; intros N s; [reflexivity |].
  cbn [flat_map] in N. rewrite in_app_iff in N.
  rewrite final_run_cons. rewrite IH by tauto.
  destruct acc as [reg val | reg mask val | e].
  - apply write_regs_frame. tauto.
  - apply update_regs_frame. tauto.
  - reflexivity.
Qed.

(** ** Read-modify-write: fixed points and masks *)

Lemma u16_high_bits (x i : Z) :
  0 <= x < 2 ^ 16 -> 16 <= i -> Z.testbit x i = false.
Proof.
  intros Hx Hi. rewrite <- (Z.mod_small x (2 ^ 16)) by exact Hx.
  apply Z.mod_pow2_bits_high. lia.
Qed.

(** Merging twice under a 16-bit mask gives what merging once gave. *)
Lemma rmw_fixed (orig mask val : Z) :
  0 <= mask < 2 ^ 16 ->
  rmw_value (wrap16 (rmw_value orig mask val)) mask val
  = wrap16 (rmw_value orig mask val).
Proof.
  intros Hm. apply Z.bits_inj'. intros i Hi.
  destruct (Z.ltb_spec i 16) as [L | L].
  - rewrite rmw_bits by lia. rewrite !wrap16_bits by lia.
    rewrite rmw_bits by lia. now destruct (Z.testbit mask i).
  - pose proof (wrap16_range (rmw_value orig mask val)) as R.
    rewrite (u16_high_bits (wrap16 _) i R L).
    unfold rmw_value at 1.
    rewrite Z.lor_spec, !Z.land_spec.
    rewrite (u16_high_bits (wrap16 _) i R L).
    rewrite (u16_high_bits mask i Hm L).
    now rewrite andb_false_r.
Qed.

(** X5.  On a 16-bit register and under a mask of at most 16 bits,
    [tc358768_update_bits] is idempotent on a bus without errors: a
    second call with the same arguments finds the merged value in place,
    puts no write on the bus, returns 0 and leaves every register as
    the first call left it. *)
Theorem update_bits_idempotent (bus_ret : nat -> Z) (reg mask val : Z)
        (s : bus) :
  reg < 0x100 \/ 0x600 <= reg -> 0 <= reg < 2 ^ 16 ->
  0 <= mask < 2 ^ 16 ->
  (forall k, bus_ret k = 0) ->
  let s1 := final (tc358768_update_bits bus_ret reg mask val s) in
  let again := tc358768_update_bits bus_ret reg mask val s1 in
  value again = 0
  /\ bus_writes (trace again) = []
  /\ (forall a, regs (final again) a = regs s1 a).
Proof.
  intros H16 Ha Hm NF s1 again.
  destruct (update_bits16_store bus_ret reg mask val H16 Ha s) as [_ N].
  cbn zeta in N. specialize (N (NF _) (NF _)). fold s1 in N.
  set (orig := wrap16 (regs s reg)) in *.
  set (tmp := rmw_value orig mask val) in *.
  assert (O2 : wrap16 (regs s1 reg) = wrap16 tmp).
  { rewrite N. destruct (tmp =? orig) eqn:T.
    - apply Z.eqb_eq in T. fold orig. rewrite T.
      subst orig. now rewrite (wrap16_small (wrap16 _)) by apply wrap16_range.
    - unfold store_set. rewrite Z.eqb_refl.
      now rewrite (wrap16_small (wrap16 _)) by apply wrap16_range. }
  subst again. rewrite update_bits_run, read16_run by exact H16.
  unfold regmap_read. cbn [value final trace]. rewrite (NF (ntx s1)).
  cbn [Z.eqb]. rewrite (wrap16_small reg) by exact Ha. rewrite O2.
  cbn zeta. subst tmp. rewrite rmw_fixed by exact Hm.
  rewrite Z.eqb_refl. cbn [value final trace regs].
  split; [reflexivity |]. split; [reflexivity |]. reflexivity.
Qed.

Lemma update_bits_idempotent_witness :
  bus_writes
    (trace (tc358768_update_bits no_fault TC358768_CONFCTL 0x40 0x40
              (final (tc358768_update_bits no_fault TC358768_CONFCTL
                                           0x40 0x40 bus0))))
  = [].
Proof.
  apply (update_bits_idempotent no_fault TC358768_CONFCTL 0x40 0x40 bus0);
    [left; unfold TC358768_CONFCTL; lia
    | unfold TC358768_CONFCTL; lia | lia | reflexivity].
Defined.

(** X6.  With an empty mask [tc358768_update_bits] only reads: whatever
    the register, the value and the bus, it puts no write on the bus,
    changes no register, and returns 0 or the error of the read. *)
Theorem update_bits_empty_mask (bus_ret : nat -> Z) (reg val : Z) (s : bus) :
  let ub := tc358768_update_bits bus_ret reg 0 val s in
  bus_writes (trace ub) = []
  /\ (forall a, regs (final ub) a = regs s a)
  /\ value ub = match value (tc358768_read bus_ret reg s) with
                | ReadOk _ => 0
                | ReadErr e => e
                end.
Proof.
  intros ub. subst ub. rewrite update_bits_run.
  destruct (read_shape bus_ret reg s) as (_ & R2 & _ & R4 & _).
  pose proof (read_ok_u32 bus_ret reg s) as Rv.
  destruct (value (tc358768_read bus_ret reg s)) as [orig | e] eqn:V.
  - pose proof (Rv orig eq_refl) as Ro.
    assert (E : rmw_value orig 0 val = orig).
    { unfold rmw_value. rewrite Z.land_0_r, Z.lor_0_r.
      change (not32 0) with (Z.ones 32).
      rewrite Z.land_ones by lia. now apply Z.mod_small. }
    cbn zeta. rewrite E, Z.eqb_refl. cbn [value final trace].
    unfold bus_writes in *. rewrite filter_app, R2. cbn [filter app].
    split; [reflexivity |]. split; [| reflexivity].
    intros a. now rewrite R4.
  - cbn [value final trace]. unfold bus_writes in *.
    split; [exact R2 |]. split; [| reflexivity].
    intros a. now rewrite R4.
Qed.

(** X7.  A mask that reaches above bit 15 defeats the write-back test
    on a 16-bit register: when [val & mask] has a bit above 15, the
    merged value never equals the 16 bits read, so every call whose read
    succeeds puts a write on the bus, even if the register already
    holds the low bits. *)
Theorem update_bits_wide_mask (bus_ret : nat -> Z) (reg mask val : Z)
        (s : bus) :
  reg < 0x100 \/ 0x600 <= reg ->
  2 ^ 16 <= Z.land val mask ->
  bus_ret (ntx s) = 0 ->
  let ub := tc358768_update_bits bus_ret reg mask val s in
  let orig := regs s (wrap16 reg) mod 2 ^ 16 in
  bus_writes (trace ub)
  = [BusWrite (wrap16 reg) (rmw_value orig mask val mod 2 ^ 16)
              (bus_ret (S (ntx s)))]
  /\ value ub = bus_ret (S (ntx s)).
Proof.
  intros H16 Hw F ub orig. subst ub.
  rewrite update_bits_run, read16_run by exact H16.
  unfold regmap_read. cbn [value final trace]. rewrite F. cbn [Z.eqb].
  fold (wrap16 (regs s (wrap16 reg))). fold (wrap16 (regs s (wrap16 reg))) in orig.
  fold orig. cbn zeta.
  assert (N : rmw_value orig mask val <> orig).
  { intros E.
    set (b := Z.land val mask) in *.
    assert (Hb : Z.testbit b (Z.log2 b) = true) by (apply Z.bit_log2; lia).
    assert (Hl : 16 <= Z.log2 b).
    { apply Z.log2_le_pow2; lia. }
    assert (Ho : Z.testbit orig (Z.log2 b) = false).
    { apply u16_high_bits; [apply wrap16_range | exact Hl]. }
    rewrite <- E in Ho. unfold rmw_value in Ho. fold b in Ho.
    rewrite Z.lor_spec, Hb, orb_true_r in Ho. discriminate. }
  apply Z.eqb_neq in N. rewrite N.
  rewrite write16_run by exact H16. cbn [value final trace ntx].
  unfold bus_writes. cbn [filter is_bus_write app].
  split; reflexivity.
Qed.

Lemma update_bits_wide_mask_witness :
  bus_writes (trace (tc358768_update_bits no_fault TC358768_CONFCTL
                                          0x10040 0x10040 bus0))
  = [BusWrite TC358768_CONFCTL 0x40 0]
  /\ bus_writes
       (trace (tc358768_update_bits no_fault TC358768_CONFCTL 0x10040 0x10040
                 (final (tc358768_update_bits no_fault TC358768_CONFCTL
                                              0x10040 0x10040 bus0))))
     = [BusWrite TC358768_CONFCTL 0x40 0].
Proof.
  split.
  - apply (update_bits_wide_mask no_fault TC358768_CONFCTL 0x10040 0x10040
                                 bus0);
      [left; unfold TC358768_CONFCTL; lia | vm_compute; discriminate
      | reflexivity].
  - apply (update_bits_wide_mask no_fault TC358768_CONFCTL 0x10040 0x10040);
      [left; unfold TC358768_CONFCTL; lia | vm_compute; discriminate
      | reflexivity].
Defined.

(** ** The solver: exactness, bounds and degenerate inputs *)

Lemma pll_divisor_exact (frs prd : Z) :
  0 <= frs < 4 -> 0 <= prd < 16 ->
  pll_divisor frs prd = (prd + 1) * 2 ^ frs.
Proof.
  intros Hf Hp. unfold pll_divisor.
  rewrite (wrap32_small (prd + 1)) by lia. rewrite Z.shiftl_1_l.
  assert (F : frs = 0 \/ frs = 1 \/ frs = 2 \/ frs = 3) by lia.
  destruct F as [-> | [-> | [-> | ->]]];
    rewrite wrap32_small; change (2 ^ 0) with 1; change (2 ^ 1) with 2;
    change (2 ^ 2) with 4; change (2 ^ 3) with 8; lia.
Qed.

(** The candidate of line 294 is the low 32 bits of the exact quotient. *)
Lemma pll_candidate_formula (r frs prd fbd : Z) :
  0 <= r < 2 ^ 32 -> 0 <= frs < 4 -> in_grid prd fbd ->
  pll_candidate r frs prd fbd = wrap32 (pll_formula r fbd prd frs)
  /\ 0 <= pll_formula r fbd prd frs <= r * 512.
Proof.
  intros Hr Hf [Hp Hb]. unfold pll_candidate, pll_formula, div_u64.
  rewrite pll_divisor_exact by assumption.
  rewrite (wrap32_small (fbd + 1)) by lia.
  rewrite wrap64_small by nia.
  split; [reflexivity |].
  assert (D : 1 <= (prd + 1) * 2 ^ frs).
  { assert (1 <= 2 ^ frs) by (apply (Z.pow_le_mono_r 2 0 frs); lia). nia. }
  split; [apply Z.div_pos; nia |].
  apply Z.le_trans with (r * (fbd + 1)); [| nia].
  apply Z.div_le_upper_bound; [lia |]. nia.
Qed.

(** X8.  Wherever the frequency of the returned dividers,
    [refclk * (fbd + 1) / ((prd + 1) * 2^frs)], fits 32 bits (as it
    always does for a reference clock below [2^23] Hz), a successful
    solver run returns exactly that frequency: it lies in the selected
    bracket and [bitclk] is half of it. *)
Theorem calc_pll_exact_without_wrap (d d' : tc358768_drv_data) :
  tc358768_calc_pll d = PllOk d' ->
  0 <= refclk d < 2 ^ 32 ->
  let ch := select_frs (tc358768_pclk_to_pll d) in
  let f := pll_formula (refclk d) (fbd d') (prd d') (frs d') in
  (refclk d < 2 ^ 23 -> f < 2 ^ 32)
  /\ (f < 2 ^ 32 ->
      ch_min_pll ch <= f < ch_max_pll ch /\ bitclk d' = f / 2).
Proof.
  intros H Hr ch f.
  destruct (calc_pll_ok d d' H) as (_ & _ & Hf & Hg & Hb & Hk & _).
  destruct (pll_candidate_formula (refclk d) (frs d') (prd d') (fbd d')
              Hr Hf Hg) as [E B].
  fold f in E, B. fold ch in Hb. split; [lia |].
  intros Hs. rewrite E, wrap32_small in Hb, Hk by lia. now split.
Qed.

Lemma calc_pll_exact_without_wrap_witness :
  bitclk (set_pll probe_data 23 0 0 464700000)
  = pll_formula (refclk probe_data) 23 0 0 / 2.
Proof.
  assert (H : tc358768_calc_pll probe_data
              = PllOk (set_pll probe_data 23 0 0 464700000))
    by (vm_compute; reflexivity).
  assert (R : 0 <= refclk probe_data < 2 ^ 32) by u32_const.
  destruct (calc_pll_exact_without_wrap probe_data _ H R) as [_ A].
  apply A. vm_compute. reflexivity.
Defined.

(** X9.  A successful solver run returns [fbd] below 512, [prd] below
    16, [frs] below 4 and a bit clock from 31,250,000 Hz up to, but not
    including, 500,000,000 Hz, within half the selected bracket; it
    changes nothing of the configuration but these four fields. *)
Theorem calc_pll_solution_bounds (d d' : tc358768_drv_data) :
  tc358768_calc_pll d = PllOk d' ->
  (0 <= fbd d' < 512 /\ 0 <= prd d' < 16 /\ 0 <= frs d' < 4)
  /\ (31250000 <= bitclk d' < 500000000
      /\ frs_limit (frs d' + 1) <= 2 * bitclk d' + 1 <= frs_limit (frs d'))
  /\ (reset_gpio d' = reset_gpio d
      /\ pixelclock d' = pixelclock d /\ refclk d' = refclk d
      /\ dpi_ndl d' = dpi_ndl d /\ dsi_ndl d' = dsi_ndl d
      /\ hsw d' = hsw d /\ hbp d' = hbp d
      /\ vsw d' = vsw d /\ vbp d' = vbp d).
Proof.
  intros H.
  destruct (calc_pll_ok d d' H) as (F & Ef & Hf & [Hp Hb] & Hc & Hk & E).
  destruct (select_frs_found _ F) as (_ & Emax & Emin & _).
  rewrite <- Ef in Emax, Emin. rewrite Emax, Emin in Hc.
  split; [tauto |]. split.
  - set (pll := pll_candidate (refclk d) (frs d') (prd d') (fbd d')) in *.
    pose proof (Z.div_mod pll 2) as M.
    pose proof (Z.mod_pos_bound pll 2) as P.
    rewrite Hk.
    assert (C : frs d' = 0 \/ frs d' = 1 \/ frs d' = 2 \/ frs d' = 3) by lia.
    destruct C as [C | [C | [C | C]]]; rewrite C in *;
      change (frs_limit (0 + 1)) with 500000000 in *;
      change (frs_limit (1 + 1)) with 250000000 in *;
      change (frs_limit (2 + 1)) with 125000000 in *;
      change (frs_limit (3 + 1)) with 62500000 in *;
      change (frs_limit 0) with 1000000000 in *;
      change (frs_limit 1) with 500000000 in *;
      change (frs_limit 2) with 250000000 in *;
      change (frs_limit 3) with 125000000 in *; lia.
  - rewrite E. cbn [set_pll reset_gpio pixelclock refclk dpi_ndl dsi_ndl
                    hsw hbp vsw vbp]. repeat split; reflexivity.
Qed.

Lemma calc_pll_solution_bounds_witness :
  31250000 <= bitclk (set_pll probe_data 23 0 0 464700000) < 500000000.
Proof.
  assert (H : tc358768_calc_pll probe_data
              = PllOk (set_pll probe_data 23 0 0 464700000))
    by (vm_compute; reflexivity).
  destruct (calc_pll_solution_bounds probe_data _ H) as (_ & [A _] & _).
  exact A.
Defined.

(** X10.  Degenerate configurations never pass the solver: a zero pixel
    clock or a zero parallel lane count gives a zero target and the
    out-of-range exit, and a reference clock so low that 512 times it
    stays under 62,500,000 Hz leaves no usable candidate in any
    bracket. *)
Theorem calc_pll_degenerate (d : tc358768_drv_data) :
  (wrap32 (8 * dsi_ndl d) <> 0 ->
   pixelclock d = 0 \/ dpi_ndl d = 0 ->
   tc358768_calc_pll d = PllErr OutOfRange)
  /\ (0 <= refclk d -> refclk d * 512 < 62500000 ->
      forall d', tc358768_calc_pll d <> PllOk d').
Proof.
  split.
  - intros _ Z0.
    assert (T : tc358768_pclk_to_pll d = 0).
    { unfold tc358768_pclk_to_pll, div_u64.
      destruct Z0 as [-> | ->]; [| rewrite Z.mul_0_r]; reflexivity. }
    unfold tc358768_calc_pll. rewrite T. reflexivity.
  - intros Hr Hs d' H.
    destruct (calc_pll_ok d d' H) as (F & _ & Hf & Hg & Hb & _).
    destruct (select_frs_found _ F) as (_ & _ & Emin & _).
    assert (R : 0 <= refclk d < 2 ^ 32) by lia.
    destruct (pll_candidate_formula (refclk d) (frs d') (prd d') (fbd d')
                R Hf Hg) as [E B].
    rewrite E, wrap32_small in Hb by lia.
    destruct (select_frs_cases (tc358768_pclk_to_pll d))
      as [[_ X] | [[_ X] | [[_ X] | [[_ X] | [_ X]]]]];
      rewrite X in Hb, F; cbn [ch_frs ch_min_pll ch_max_pll] in Hb, F;
      solve [lia | now apply F].
Qed.

Lemma calc_pll_degenerate_witness :
  tc358768_calc_pll (mk_drv_data true 24 4 0 0 0 0 0 38725000 1 60 1 25)
  = PllErr OutOfRange
  /\ tc358768_calc_pll (mk_drv_data true 24 4 0 0 0 0 154900000 100000
                                    1 60 1 25)
     <> PllOk (mk_drv_data true 24 4 0 0 0 0 154900000 100000 1 60 1 25).
Proof.
  split.
  - apply (calc_pll_degenerate
             (mk_drv_data true 24 4 0 0 0 0 0 38725000 1 60 1 25));
      [vm_compute; discriminate | left; reflexivity].
  - apply (calc_pll_degenerate
             (mk_drv_data true 24 4 0 0 0 0 154900000 100000 1 60 1 25));
      cbn [refclk]; lia.
Defined.

(** X11.  When [pixelclock * dpi_ndl] is a multiple of [8 * dsi_ndl]
    (and the scaled clocks fit 32 bits) the byte clock is exact, and
    transforming the target frequency back returns the pixel clock
    itself. *)
Theorem round_trip_exact (d : tc358768_drv_data) :
  drv_data_u32 d -> valid_config d ->
  8 * dsi_ndl d < 2 ^ 32 ->
  pixelclock d * dpi_ndl d / (8 * dsi_ndl d) < 2 ^ 29 ->
  (pixelclock d * dpi_ndl d) mod (8 * dsi_ndl d) = 0 ->
  tc358768_pll_to_pclk d (tc358768_pclk_to_pll d) = pixelclock d.
Proof.
  intros U (HP & _ & HD & HS) Hs8 Hq Hm.
  rewrite (pclk_to_pll_exact d U HS Hs8 Hq).
  set (q := pixelclock d * dpi_ndl d / (8 * dsi_ndl d)) in *.
  assert (Hq0 : 0 <= q) by (apply Z.div_pos; lia).
  assert (E : q * 8 * dsi_ndl d = pixelclock d * dpi_ndl d).
  { pose proof (Z.div_mod (pixelclock d * dpi_ndl d) (8 * dsi_ndl d)) as M.
    fold q in M. lia. }
  assert (R : q * 8 * dsi_ndl d / dpi_ndl d = pixelclock d).
  { rewrite E. apply Z.div_mul. lia. }
  rewrite pll_to_pclk_exact; try assumption; try lia.
  rewrite R. destruct U. unfold is_u32 in *. lia.
Qed.

Lemma round_trip_exact_witness :
  tc358768_pll_to_pclk probe_data (tc358768_pclk_to_pll probe_data)
  = pixelclock probe_data.
Proof.
  apply round_trip_exact.
  - constructor; u32_const.
  - unfold valid_config. cbn. lia.
  - cbn. lia.
  - vm_compute. reflexivity.
  - vm_compute. reflexivity.
Defined.

(** ** Register words: packing and unpacking *)

(** A field moved up by [k] bits or-ed with a field below [2^k]: both
    can be read back. *)
Lemma lor_shiftl_low (h l k : Z) :
  0 <= k -> 0 <= h -> 0 <= l < 2 ^ k ->
  Z.lor (Z.shiftl h k) l = h * 2 ^ k + l
  /\ Z.shiftr (Z.lor (Z.shiftl h k) l) k = h
  /\ (Z.lor (Z.shiftl h k) l) mod 2 ^ k = l.
Proof.
  intros Hk Hh Hl.
  assert (D : Z.land (Z.shiftl h k) l = 0).
  { apply Z.bits_inj'. intros i Hi. rewrite Z.land_spec, Z.bits_0.
    destruct (Z.ltb_spec i k) as [L | L].
    - now rewrite Z.shiftl_spec_low by lia.
    - rewrite <- (Z.mod_small l (2 ^ k)) by exact Hl.
      rewrite Z.mod_pow2_bits_high by lia. apply andb_false_r. }
  assert (E : Z.lor (Z.shiftl h k) l = h * 2 ^ k + l).
  { pose proof (Z.add_lor_land (Z.shiftl h k) l) as A.
    rewrite D in A. rewrite <- (Z.shiftl_mul_pow2 h k) by lia. lia. }
  assert (P : 0 < 2 ^ k) by (apply Z.pow_pos_nonneg; lia).
  split; [exact E |]. rewrite E. split.
  - rewrite Z.shiftr_div_pow2 by lia.
    rewrite Z.div_add_l by lia. rewrite Z.div_small by lia. lia.
  - rewrite Z.add_comm, Z.mod_add by lia. now apply Z.mod_small.
Qed.

Lemma wrap8_range (x : Z) : 0 <= wrap8 x < 2 ^ 8.
Proof. unfold wrap8. apply Z.mod_pos_bound. lia. Qed.

(** X12.  The short-packet transfer returns 0 whatever the bus does and
    always puts four writes on the bus, in the order packet type, word
    count, payload, trigger: the trigger is written even when the
    header or the payload failed to go out.  The header word is
    [0x1000 + data_id] and the payload word [data1 * 256 + data0] (on
    bytes), so that both fit their 16-bit registers and the three bytes
    can be read off them. *)
Theorem dsi_xfer_short_sends (bus_ret : nat -> Z) (data_id data0 data1 : Z)
        (s : bus) :
  let o := tc358768_dsi_xfer_short bus_ret data_id data0 data1 s in
  let id := data_id mod 2 ^ 8 in
  let b0 := data0 mod 2 ^ 8 in
  let b1 := data1 mod 2 ^ 8 in
  let n := ntx s in
  value o = 0
  /\ bus_writes (trace o)
     = [BusWrite TC358768_DSICMD_TYPE (0x1000 + id) (bus_ret n);
        BusWrite TC358768_DSICMD_WC 0 (bus_ret (S n));
        BusWrite TC358768_DSICMD_WD0 (b1 * 256 + b0) (bus_ret (S (S n)));
        BusWrite TC358768_DSICMD_TX 1 (bus_ret (S (S (S n))))]
  /\ ntx (final o) = S (S (S (S n)))
  /\ ((0x1000 + id) mod 256 = id /\ (0x1000 + id) / 256 = 0x10
      /\ (b1 * 256 + b0) mod 256 = b0 /\ (b1 * 256 + b0) / 256 = b1).
Proof.
  intros o id b0 b1 n. subst o.
  pose proof (wrap8_range data_id) as R0.
  pose proof (wrap8_range data0) as R1.
  pose proof (wrap8_range data1) as R2.
  fold (wrap8 data_id) in id. fold (wrap8 data0) in b0.
  fold (wrap8 data1) in b1. fold id in R0. fold b0 in R1. fold b1 in R2.
  destruct (lor_shiftl_low 0x10 id 8) as (E1 & _); try lia.
  destruct (lor_shiftl_low b1 b0 8) as (E2 & _); try lia.
  unfold tc358768_dsi_xfer_short. cbv zeta. fold id. fold b0. fold b1.
  unfold bind.
  rewrite !write16_run by (right; vm_compute; discriminate).
  cbn [value final trace ntx ret app]. unfold bus_writes.
  cbn [filter is_bus_write app]. fold n.
  rewrite E1, E2. change (Z.land 0 15) with 0.
  change (16 * 2 ^ 8) with 4096. change (2 ^ 8) with 256 in *.
  rewrite (wrap16_small (4096 + id)) by lia.
  rewrite (wrap16_small (b1 * 256 + b0)) by lia.
  split; [reflexivity |]. split; [reflexivity |]. split; [reflexivity |].
  repeat split.
  - rewrite Z.add_comm. change 4096 with (16 * 256).
    rewrite Z.mod_add by lia. apply Z.mod_small. lia.
  - change 4096 with (16 * 256). rewrite Z.div_add_l by lia.
    rewrite Z.div_small by lia. reflexivity.
  - rewrite Z.add_comm, Z.mod_add by lia. apply Z.mod_small. lia.
  - rewrite Z.div_add_l by lia. rewrite Z.div_small by lia. lia.
Qed.

(** X13.  The software reset requests both writes whatever the first
    returns and reports nothing.  It touches the reset register only;
    without bus errors, or when only the asserting write fails, the
    register ends at 0, but when the asserting write goes through and
    the releasing one fails the device is left with reset asserted. *)
Theorem sw_reset_outcomes (bus_ret : nat -> Z) (s : bus) :
  let o := tc358768_sw_reset bus_ret s in
  let n := ntx s in
  bus_writes (trace o)
  = [BusWrite TC358768_SYSCTL 1 (bus_ret n);
     BusWrite TC358768_SYSCTL 0 (bus_ret (S n))]
  /\ (forall a, a <> TC358768_SYSCTL -> regs (final o) a = regs s a)
  /\ (bus_ret (S n) = 0 -> regs (final o) TC358768_SYSCTL = 0)
  /\ (bus_ret n = 0 -> bus_ret (S n) <> 0 ->
      regs (final o) TC358768_SYSCTL = 1)
  /\ (bus_ret n <> 0 -> bus_ret (S n) <> 0 ->
      regs (final o) TC358768_SYSCTL = regs s TC358768_SYSCTL).
Proof.
  intros o n. subst o. unfold tc358768_sw_reset, bind.
  rewrite !write16_run by (left; vm_compute; reflexivity).
  cbn [value final trace ntx regs ret app]. fold n.
  change (wrap16 TC358768_SYSCTL) with TC358768_SYSCTL.
  change (wrap16 1) with 1. change (wrap16 0) with 0.
  unfold bus_writes. cbn [filter is_bus_write app].
  split; [reflexivity |].
  destruct (Z.eqb_spec (bus_ret n) 0) as [E1 | E1],
           (Z.eqb_spec (bus_ret (S n)) 0) as [E2 | E2];
    unfold store_set; rewrite ?Z.eqb_refl;
    (split; [intros a Ha;
             now replace (a =? TC358768_SYSCTL) with false
               by (symmetry; now apply Z.eqb_neq) |]);
    repeat split; intros; try reflexivity; contradiction.
Qed.

Lemma sw_reset_outcomes_witness :
  regs (final (tc358768_sw_reset (fault_at 1) bus0)) TC358768_SYSCTL = 1
  /\ regs (final (tc358768_sw_reset no_fault bus0)) TC358768_SYSCTL = 0.
Proof.
  destruct (sw_reset_outcomes (fault_at 1) bus0) as (_ & _ & _ & A & _).
  destruct (sw_reset_outcomes no_fault bus0) as (_ & _ & B & _).
  split; [apply A; [reflexivity | discriminate] | apply B; reflexivity].
Defined.

(** X14.  For dividers in range the two PLL control words written by
    [tc358768_setup_pll] pack the solution without loss:
    PLLCTL0 is [prd * 4096 + fbd], from which [prd] and [fbd] are read
    back as bits 15:12 and 8:0; PLLCTL1 is [frs * 1024 + 0x203] and then
    [frs * 1024 + 0x213]; all three fit 16 bits, so the bus carries them
    whole, and all three writes are attempted whatever the bus
    returns. *)
Theorem setup_pll_words (bus_ret : nat -> Z) (d : tc358768_drv_data)
        (s : bus) :
  in_grid (prd d) (fbd d) -> 0 <= frs d < 4 ->
  let w0 := prd d * 4096 + fbd d in
  let v0 := frs d * 1024 + 0x203 in
  let n := ntx s in
  bus_writes (trace (tc358768_setup_pll bus_ret d s))
  = [BusWrite TC358768_PLLCTL0 w0 (bus_ret n);
     BusWrite TC358768_PLLCTL1 v0 (bus_ret (S n));
     BusWrite TC358768_PLLCTL1 (v0 + 16) (bus_ret (S (S n)))]
  /\ (w0 / 4096 = prd d /\ w0 mod 512 = fbd d /\ w0 < 2 ^ 16)
  /\ (v0 / 1024 = frs d /\ (v0 + 16) / 1024 = frs d
      /\ v0 mod 1024 = 0x203 /\ (v0 + 16) mod 1024 = 0x213).
Proof.
  intros [Hp Hf] Hs w0 v0 n.
  assert (Sh : 0 <= Z.shiftl (prd d) 12 < 2 ^ 32).
  { rewrite Z.shiftl_mul_pow2 by lia. lia. }
  assert (B9 : 0 <= fbd d < 2 ^ 12) by lia.
  destruct (lor_shiftl_low (prd d) (fbd d) 12) as (E0 & _); try lia.
  change (2 ^ 12) with 4096 in E0. fold w0 in E0.
  assert (V : pllctl1 (frs d) 0 = v0 /\ pllctl1 (frs d) 1 = v0 + 16).
  { subst v0.
    assert (C : frs d = 0 \/ frs d = 1 \/ frs d = 2 \/ frs d = 3) by lia.
    destruct C as [-> | [-> | [-> | ->]]]; split; reflexivity. }
  destruct V as [V0 V1].
  unfold tc358768_setup_pll. cbv zeta. unfold bind, dev_dbg, usleep_range, emit.
  cbn [value final trace].
  rewrite !write16_run by (left; vm_compute; reflexivity).
  cbn [value final trace ntx ret app]. unfold bus_writes.
  cbn [filter is_bus_write app]. fold n.
  rewrite (wrap32_small (Z.shiftl (prd d) 12)) by exact Sh.
  rewrite E0, V0, V1.
  rewrite (wrap16_small w0) by (subst w0; lia).
  rewrite (wrap16_small v0) by (subst v0; lia).
  rewrite (wrap16_small (v0 + 16)) by (subst v0; lia).
  split; [reflexivity |]. subst w0 v0. cbv zeta.
  clear E0 V0 V1 Sh B9.
  refine (conj (conj _ (conj _ _)) (conj _ (conj _ (conj _ _))));
    try lia; Z.div_mod_to_equations; lia.
Qed.

Lemma setup_pll_words_witness :
  bus_writes
    (trace (tc358768_setup_pll no_fault
              (set_pll data_99mhz 504 3 0 297031977) bus0))
  = [BusWrite TC358768_PLLCTL0 (3 * 4096 + 504) 0;
     BusWrite TC358768_PLLCTL1 0x203 0;
     BusWrite TC358768_PLLCTL1 0x213 0].
Proof.
  apply (setup_pll_words no_fault (set_pll data_99mhz 504 3 0 297031977)
                         bus0).
  - unfold in_grid. cbn. lia.
  - cbn. lia.
Defined.

(** ** Bring-up and teardown as runs *)

Lemma enable_final (bus_ret : nat -> Z) (mipi : mipi_display)
      (d d' : tc358768_drv_data) (s : bus) :
  tc358768_calc_pll d = PllOk d' ->
  value (tc358768_enable bus_ret mipi d s) = (0, d')
  /\ trace (tc358768_enable bus_ret mipi d s)
     = trace (run_accesses bus_ret (enable_accesses mipi d') s)
  /\ final (tc358768_enable bus_ret mipi d s)
     = final (run_accesses bus_ret (enable_accesses mipi d') s).
Proof.
  intros H. unfold tc358768_enable. rewrite H.
  split; [reflexivity |].
  assert (G : agrees bus_ret
                ((if reset_gpio d' then gpiod_set_value_cansleep 1
                  else ret tt) ;;
                 usleep_range 1000 2000 ;;
                 tc358768_power_on bus_ret mipi d' ;;
                 tc358768_dsi_xfer_short bus_ret
                   (MIPI_DSI_TURN_ON_PERIPHERAL mipi) 0 0 ;;
                 tc358768_dsi_xfer_short bus_ret
                   (MIPI_DSI_DCS_SHORT_WRITE_PARAM mipi)
                   (MIPI_DCS_SET_PIXEL_FORMAT mipi)
                   (MIPI_DCS_PIXEL_FMT_24BIT mipi) ;;
                 ret (0, d'))
                (enable_accesses mipi d')).
  { unfold enable_accesses, panel_accesses.
    apply agrees_seq.
    { destruct (reset_gpio d'); [apply agrees_emit | apply agrees_ret]. }
    apply agrees_seq; [apply agrees_emit |].
    apply agrees_seq; [apply power_on_runs |].
    apply agrees_seq; [apply xfer_short_runs |].
    rewrite <- (app_nil_r (xfer_short_accesses _ _ _)).
    apply agrees_seq; [apply xfer_short_runs | apply agrees_ret]. }
  apply G.
Qed.

Lemma disable_runs (bus_ret : nat -> Z) (d : tc358768_drv_data) :
  agrees bus_ret (tc358768_disable bus_ret d) (disable_accesses d).
Proof.
  unfold tc358768_disable, disable_accesses.
  apply agrees_seq.
  - unfold tc358768_power_off, power_off_accesses, msleep.
    apply agrees_cons; [apply agrees_update |].
    apply agrees_cons; [apply agrees_emit |].
    apply agrees_cons; [apply agrees_update |].
    apply agrees_cons; [apply agrees_update |]. apply agrees_ret.
  - rewrite <- (app_nil_r (if reset_gpio d then [AEmit (GpioSet 0)] else [])).
    apply agrees_seq; [| apply agrees_ret].
    destruct (reset_gpio d); [apply agrees_emit | apply agrees_ret].
Qed.

Lemma enable_split_reset (mipi : mipi_display) (d : tc358768_drv_data) :
  enable_accesses mipi d
  = ((if reset_gpio d then [AEmit (GpioSet 1)] else [])
     ++ [AEmit (Usleep 1000 2000)])
    ++ reset_accesses ++ after_reset_accesses mipi d.
Proof.
  unfold enable_accesses, power_on_accesses, after_reset_accesses.
  now rewrite <- !app_assoc.
Qed.

Lemma not_in_addresses (a : Z) (l : list Z) :
  existsb (Z.eqb a) l = false -> ~ In a l.
Proof.
  intros E H.
  assert (T : existsb (Z.eqb a) l = true).
  { apply existsb_exists. exists a. split; [exact H | apply Z.eqb_refl]. }
  congruence.
Qed.

Lemma addresses_incl (l1 l2 : list Z) :
  forallb (fun x => existsb (Z.eqb x) l2) l1 = true ->
  forall a, In a l1 -> In a l2.
Proof.
  intros H a Ha. rewrite forallb_forall in H. specialize (H a Ha).
  apply existsb_exists in H. destruct H as (y & Hy & E).
  apply Z.eqb_eq in E. now subst.
Qed.

Lemma enable_addresses (mipi : mipi_display) (d : tc358768_drv_data) :
  forall a, In a (flat_map access_addresses (enable_accesses mipi d)) ->
            In a enable_registers.
Proof.
  apply addresses_incl. unfold enable_accesses.
  destruct (reset_gpio d); reflexivity.
Qed.

Lemma disable_addresses (d : tc358768_drv_data) :
  forall a, In a (flat_map access_addresses (disable_accesses d)) ->
            In a enable_registers.
Proof.
  apply addresses_incl. unfold disable_accesses.
  destruct (reset_gpio d); reflexivity.
Qed.

Lemma shiftl3_bits (i : Z) :
  0 <= i < 16 ->
  Z.testbit (Z.shiftl 0x3 14) i = (14 <=? i).
Proof.
  intros Hi.
  assert (C : i < 14 \/ i = 14 \/ i = 15) by lia.
  destruct C as [C | [-> | ->]]; [| reflexivity | reflexivity].
  rewrite Z.shiftl_spec_low by lia. symmetry. apply Z.leb_gt. lia.
Qed.

Section PipeState.
Variable bus_ret : nat -> Z.

Local Abbreviation run := (run_accesses bus_ret).

(** The two read-modify-writes that close bring-up. *)
Lemma pipe_on_bits (s : bus) :
  let s' := final (run pipe_accesses s) in
  (forall i, 0 <= i < 16 -> i <> 6 ->
   Z.testbit (regs s' TC358768_CONFCTL) i
   = Z.testbit (regs s TC358768_CONFCTL) i)
  /\ (forall i, 0 <= i < 14 ->
      Z.testbit (regs s' TC358768_PP_MISC) i
      = Z.testbit (regs s TC358768_PP_MISC) i)
  /\ ((forall k, bus_ret k = 0) ->
      Z.testbit (regs s' TC358768_CONFCTL) 6 = true
      /\ Z.testbit (regs s' TC358768_PP_MISC) 15 = false
      /\ Z.testbit (regs s' TC358768_PP_MISC) 14 = false).
Proof.
  intros s'.
  assert (Hm : TC358768_PP_MISC < 0x100 \/ 0x600 <= TC358768_PP_MISC)
    by (unfold TC358768_PP_MISC; lia).
  assert (Hc : TC358768_CONFCTL < 0x100 \/ 0x600 <= TC358768_CONFCTL)
    by (unfold TC358768_CONFCTL; lia).
  assert (Am : 0 <= TC358768_PP_MISC < 2 ^ 16)
    by (unfold TC358768_PP_MISC; lia).
  assert (Ac : 0 <= TC358768_CONFCTL < 2 ^ 16)
    by (unfold TC358768_CONFCTL; lia).
  assert (Ne : TC358768_CONFCTL <> TC358768_PP_MISC) by discriminate.
  assert (Ne' : TC358768_PP_MISC <> TC358768_CONFCTL) by discriminate.
  set (s1 := final (tc358768_update_bits bus_ret TC358768_PP_MISC
                      (Z.shiftl 0x3 14) 0 s)).
  assert (E : s' = final (tc358768_update_bits bus_ret TC358768_CONFCTL
                            (Z.shiftl 1 6) (Z.shiftl 1 6) s1))
    by reflexivity.
  destruct (update_bits16_frame bus_ret TC358768_PP_MISC (Z.shiftl 0x3 14)
              0 Hm Am s) as (F1 & B1 & N1).
  fold s1 in F1, B1, N1.
  destruct (update_bits16_frame bus_ret TC358768_CONFCTL (Z.shiftl 1 6)
              (Z.shiftl 1 6) Hc Ac s1) as (F2 & B2 & N2).
  rewrite <- E in F2, B2, N2.
  refine (conj _ (conj _ _)).
  - intros i Hi H6.
    rewrite B2; [| exact Hi | rewrite shiftl1_bit by lia; apply Z.eqb_neq; lia].
    now rewrite F1 by exact Ne.
  - intros i Hi. rewrite F2 by exact Ne'.
    apply B1; [lia |]. rewrite shiftl3_bits by lia. apply Z.leb_gt. lia.
  - intros NF. refine (conj _ (conj _ _)).
    + rewrite N2; auto; try lia; reflexivity.
    + rewrite F2 by exact Ne'. rewrite N1; auto; try lia; reflexivity.
    + rewrite F2 by exact Ne'. rewrite N1; auto; try lia; reflexivity.
Qed.

(** The three read-modify-writes of teardown. *)
Lemma pipe_off_bits (s : bus) :
  let s' := final (run power_off_accesses s) in
  (forall i, 0 <= i < 16 -> i <> 6 ->
   Z.testbit (regs s' TC358768_CONFCTL) i
   = Z.testbit (regs s TC358768_CONFCTL) i)
  /\ (forall i, 0 <= i < 14 ->
      Z.testbit (regs s' TC358768_PP_MISC) i
      = Z.testbit (regs s TC358768_PP_MISC) i)
  /\ ((forall k, bus_ret k = 0) ->
      Z.testbit (regs s' TC358768_CONFCTL) 6 = false
      /\ Z.testbit (regs s' TC358768_PP_MISC) 15 = true
      /\ Z.testbit (regs s' TC358768_PP_MISC) 14 = true).
Proof.
  intros s'.
  assert (Hm : TC358768_PP_MISC < 0x100 \/ 0x600 <= TC358768_PP_MISC)
    by (unfold TC358768_PP_MISC; lia).
  assert (Hc : TC358768_CONFCTL < 0x100 \/ 0x600 <= TC358768_CONFCTL)
    by (unfold TC358768_CONFCTL; lia).
  assert (Am : 0 <= TC358768_PP_MISC < 2 ^ 16)
    by (unfold TC358768_PP_MISC; lia).
  assert (Ac : 0 <= TC358768_CONFCTL < 2 ^ 16)
    by (unfold TC358768_CONFCTL; lia).
  assert (Ne : TC358768_CONFCTL <> TC358768_PP_MISC) by discriminate.
  assert (Ne' : TC358768_PP_MISC <> TC358768_CONFCTL) by discriminate.
  set (s1 := final (tc358768_update_bits bus_ret TC358768_PP_MISC
                      (Z.shiftl 1 15) (Z.shiftl 1 15) s)).
  set (s2 := final (tc358768_update_bits bus_ret TC358768_CONFCTL
                      (Z.shiftl 1 6) 0 s1)).
  assert (E : s' = final (tc358768_update_bits bus_ret TC358768_PP_MISC
                            (Z.shiftl 1 14) (Z.shiftl 1 14) s2))
    by reflexivity.
  destruct (update_bits16_frame bus_ret TC358768_PP_MISC (Z.shiftl 1 15)
              (Z.shiftl 1 15) Hm Am s) as (F1 & B1 & N1).
  fold s1 in F1, B1, N1.
  destruct (update_bits16_frame bus_ret TC358768_CONFCTL (Z.shiftl 1 6)
              0 Hc Ac s1) as (F2 & B2 & N2).
  fold s2 in F2, B2, N2.
  destruct (update_bits16_frame bus_ret TC358768_PP_MISC (Z.shiftl 1 14)
              (Z.shiftl 1 14) Hm Am s2) as (F3 & B3 & N3).
  rewrite <- E in F3, B3, N3.
  refine (conj _ (conj _ _)).
  - intros i Hi H6. rewrite F3 by exact Ne.
    rewrite B2; [| exact Hi | rewrite shiftl1_bit by lia; apply Z.eqb_neq; lia].
    now rewrite F1 by exact Ne.
  - intros i Hi.
    rewrite B3; [| lia | rewrite shiftl1_bit by lia; apply Z.eqb_neq; lia].
    rewrite F2 by exact Ne'.
    apply B1; [lia |]. rewrite shiftl1_bit by lia. apply Z.eqb_neq. lia.
  - intros NF. refine (conj _ (conj _ _)).
    + rewrite F3 by exact Ne. rewrite N2; auto; try lia; reflexivity.
    + rewrite B3 by (try lia; reflexivity).
      rewrite F2 by exact Ne'.
      rewrite N1; auto; try lia; reflexivity.
    + rewrite N3; auto; try lia; reflexivity.
Qed.

(** Bring-up changes the two pipe registers through its closing
    read-modify-writes only. *)
Lemma enable_pipe_registers (mipi : mipi_display) (d : tc358768_drv_data)
      (s : bus) (r : Z) :
  r = TC358768_CONFCTL \/ r = TC358768_PP_MISC ->
  regs (final (run (enable_accesses mipi d) s)) r
  = regs (final (run pipe_accesses
                     (final (run (before_pipe_accesses mipi d) s)))) r
  /\ regs (final (run (before_pipe_accesses mipi d) s)) r = regs s r.
Proof.
  intros Hr. rewrite enable_split_pipe, !final_run_app. split.
  - apply run_regs_frame. apply not_in_addresses.
    destruct Hr as [-> | ->]; reflexivity.
  - apply run_regs_frame. apply not_in_addresses.
    unfold before_pipe_accesses.
    destruct Hr as [-> | ->]; destruct (reset_gpio d); reflexivity.
Qed.
End PipeState.

Lemma enable_run_bits (bus_ret : nat -> Z) (mipi : mipi_display)
      (d : tc358768_drv_data) (s : bus) :
  let s' := final (run_accesses bus_ret (enable_accesses mipi d) s) in
  (forall i, 0 <= i < 16 -> i <> 6 ->
   Z.testbit (regs s' TC358768_CONFCTL) i
   = Z.testbit (regs s TC358768_CONFCTL) i)
  /\ (forall i, 0 <= i < 14 ->
      Z.testbit (regs s' TC358768_PP_MISC) i
      = Z.testbit (regs s TC358768_PP_MISC) i)
  /\ ((forall k, bus_ret k = 0) ->
      Z.testbit (regs s' TC358768_CONFCTL) 6 = true
      /\ Z.testbit (regs s' TC358768_PP_MISC) 15 = false
      /\ Z.testbit (regs s' TC358768_PP_MISC) 14 = false).
Proof.
  intros s'. subst s'.
  destruct (enable_pipe_registers bus_ret mipi d s TC358768_CONFCTL
              (or_introl eq_refl)) as [C1 C2].
  destruct (enable_pipe_registers bus_ret mipi d s TC358768_PP_MISC
              (or_intror eq_refl)) as [P1 P2].
  destruct (pipe_on_bits bus_ret
              (final (run_accesses bus_ret (before_pipe_accesses mipi d) s)))
    as (B1 & B2 & N).
  cbv zeta in B1, B2, N. rewrite C1, P1.
  refine (conj _ (conj _ _)).
  - intros i Hi H6. now rewrite (B1 i Hi H6), C2.
  - intros i Hi. now rewrite (B2 i Hi), P2.
  - exact N.
Qed.

Lemma final_run_line (bus_ret : nat -> Z) (b : bool) (e : event) (s : bus) :
  final (run_accesses bus_ret (if b then [AEmit e] else []) s) = s.
Proof. destruct b; reflexivity. Qed.

Lemma trace_run_line (bus_ret : nat -> Z) (b : bool) (e : event) (s : bus) :
  trace (run_accesses bus_ret (if b then [AEmit e] else []) s)
  = if b then [e] else [].
Proof. destruct b; reflexivity. Qed.

Lemma is_gpio_view (t : list event) : filter is_gpio t = filter gpio_view t.
Proof. apply filter_ext. intros []; reflexivity. Qed.

(** ** Bring-up and teardown: registers and the reset line *)

(** X15.  Whatever the bus returns and whether or not a PLL solution is
    found, [tc358768_enable] leaves every register whose address is not
    among the 57 it names (with the high halves of the 32-bit ones)
    holding what it held before. *)
Theorem enable_register_frame (bus_ret : nat -> Z) (mipi : mipi_display)
        (d : tc358768_drv_data) (s : bus) (a : Z) :
  ~ In a enable_registers ->
  regs (final (tc358768_enable bus_ret mipi d s)) a = regs s a.
Proof.
  intros N. destruct (tc358768_calc_pll d) as [d' | e] eqn:H.
  - destruct (enable_final bus_ret mipi d d' s H) as (_ & _ & F). rewrite F.
    apply run_regs_frame. intros I. apply N.
    eapply enable_addresses; eassumption.
  - unfold tc358768_enable. rewrite H. reflexivity.
Qed.

Lemma enable_register_frame_witness :
  regs (final (tc358768_enable no_fault mipi_std data_99mhz bus0)) 0x0010
  = regs bus0 0x0010.
Proof.
  apply (enable_register_frame no_fault mipi_std data_99mhz bus0 0x0010).
  apply not_in_addresses. reflexivity.
Defined.

(** X16.  After [tc358768_enable] found a PLL solution, every bit of
    CONFCTL other than bit 6 and every bit of PP_MISC below bit 14 is as
    before, whatever the bus returned.  When no bus transaction failed
    the chip is left streaming: CONFCTL bit 6 (pixel pipe enable) set,
    PP_MISC bits 15 and 14 (frame stop, pointer reset) clear, and SYSCTL
    holding 0 (out of software reset). *)
Theorem enable_streaming_state (bus_ret : nat -> Z) (mipi : mipi_display)
        (d d' : tc358768_drv_data) (s : bus) :
  tc358768_calc_pll d = PllOk d' ->
  let s' := final (tc358768_enable bus_ret mipi d s) in
  (forall i, 0 <= i < 16 -> i <> 6 ->
   Z.testbit (regs s' TC358768_CONFCTL) i
   = Z.testbit (regs s TC358768_CONFCTL) i)
  /\ (forall i, 0 <= i < 14 ->
      Z.testbit (regs s' TC358768_PP_MISC) i
      = Z.testbit (regs s TC358768_PP_MISC) i)
  /\ ((forall k, bus_ret k = 0) ->
      Z.testbit (regs s' TC358768_CONFCTL) 6 = true
      /\ Z.testbit (regs s' TC358768_PP_MISC) 15 = false
      /\ Z.testbit (regs s' TC358768_PP_MISC) 14 = false
      /\ regs s' TC358768_SYSCTL = 0).
Proof.
  intros H s'. subst s'.
  destruct (enable_final bus_ret mipi d d' s H) as (_ & _ & F). rewrite F.
  destruct (enable_run_bits bus_ret mipi d' s) as (B1 & B2 & N).
  cbv zeta in B1, B2, N.
  refine (conj B1 (conj B2 _)). intros NF.
  destruct (N NF) as (N1 & N2 & N3).
  refine (conj N1 (conj N2 (conj N3 _))).
  rewrite enable_split_reset, !final_run_app.
  rewrite run_regs_frame by (apply not_in_addresses; reflexivity).
  unfold reset_accesses. rewrite !final_run_cons.
  cbn [run_accesses run_access ret final].
  rewrite (write16_run bus_ret TC358768_SYSCTL 0)
    by (left; vm_compute; reflexivity).
  cbn [final regs ntx]. rewrite NF. reflexivity.
Qed.

Lemma enable_streaming_state_witness :
  Z.testbit (regs (final (tc358768_enable no_fault mipi_std data_99mhz bus0))
                  TC358768_CONFCTL) 6 = true
  /\ regs (final (tc358768_enable no_fault mipi_std data_99mhz bus0))
          TC358768_SYSCTL = 0.
Proof.
  destruct (enable_streaming_state no_fault mipi_std data_99mhz
              (set_pll data_99mhz 504 3 0 297031977) bus0)
    as (_ & _ & N); [vm_compute; reflexivity |].
  destruct N as (N1 & _ & _ & N4); [intros k; reflexivity |].
  split; [exact N1 | exact N4].
Defined.

(** X17.  [tc358768_disable] after a successful [tc358768_enable], on
    the same bus: the reset line, when wired, is driven to 1 at bring-up
    and to 0 at teardown and nowhere else; registers outside the named
    ones are as before bring-up, as are the bits of CONFCTL other than
    bit 6 and the bits of PP_MISC below bit 14, whatever the bus
    returned.  Without bus errors the pair ends with the pixel pipe off
    (CONFCTL bit 6 clear) and frame stop and pointer reset asserted
    (PP_MISC bits 15 and 14 set). *)
Theorem disable_after_enable (bus_ret : nat -> Z) (mipi : mipi_display)
        (d d' : tc358768_drv_data) (s : bus) :
  tc358768_calc_pll d = PllOk d' ->
  let o1 := tc358768_enable bus_ret mipi d s in
  let o2 := tc358768_disable bus_ret (snd (value o1)) (final o1) in
  filter is_gpio (trace o1 ++ trace o2)
  = (if reset_gpio d then [GpioSet 1; GpioSet 0] else [])
  /\ (forall a, ~ In a enable_registers -> regs (final o2) a = regs s a)
  /\ (forall i, 0 <= i < 16 -> i <> 6 ->
      Z.testbit (regs (final o2) TC358768_CONFCTL) i
      = Z.testbit (regs s TC358768_CONFCTL) i)
  /\ (forall i, 0 <= i < 14 ->
      Z.testbit (regs (final o2) TC358768_PP_MISC) i
      = Z.testbit (regs s TC358768_PP_MISC) i)
  /\ ((forall k, bus_ret k = 0) ->
      Z.testbit (regs (final o2) TC358768_CONFCTL) 6 = false
      /\ Z.testbit (regs (final o2) TC358768_PP_MISC) 15 = true
      /\ Z.testbit (regs (final o2) TC358768_PP_MISC) 14 = true).
Proof.
  intros H o1 o2.
  destruct (enable_final bus_ret mipi d d' s H) as (V & T & F).
  fold o1 in V, T, F.
  assert (G : reset_gpio d' = reset_gpio d).
  { pose proof (calc_pll_ok d d' H) as K. cbv zeta in K.
    destruct K as (_ & _ & _ & _ & _ & _ & E). rewrite E. reflexivity. }
  destruct (disable_runs bus_ret d' (final o1)) as [T2 F2].
  assert (D : o2 = tc358768_disable bus_ret d' (final o1))
    by (subst o2; now rewrite V).
  rewrite <- D in T2, F2. clearbody o1 o2.
  assert (P : regs (final o2)
              = regs (final (run_accesses bus_ret power_off_accesses
                                          (final o1)))).
  { rewrite F2. unfold disable_accesses.
    now rewrite final_run_app, final_run_line. }
  destruct (enable_run_bits bus_ret mipi d' s) as (B1 & B2 & _).
  destruct (pipe_off_bits bus_ret (final o1)) as (Q1 & Q2 & N).
  cbv zeta in B1, B2, Q1, Q2, N. rewrite <- F in B1, B2. rewrite <- P in Q1, Q2, N.
  refine (conj _ (conj _ (conj _ (conj _ N)))).
  - rewrite filter_app, !is_gpio_view, T, T2. unfold gpio_view.
    unfold enable_accesses, disable_accesses.
    rewrite (trace_run_app bus_ret
               (if reset_gpio d' then [AEmit (GpioSet 1)] else [])).
    rewrite (trace_run_app bus_ret power_off_accesses), !filter_app.
    rewrite (filter_run_hidden bus_ret (fun _ => false) is_gpio
               ([AEmit (Usleep 1000 2000)] ++ power_on_accesses mipi d'
                ++ panel_accesses mipi)) by reflexivity.
    rewrite (filter_run_hidden bus_ret (fun _ => false) is_gpio
               power_off_accesses) by reflexivity.
    rewrite !trace_run_line, <- G. destruct (reset_gpio d'); reflexivity.
  - intros a Na. rewrite F2.
    rewrite run_regs_frame
      by (intros I; apply Na; eapply disable_addresses; eassumption).
    rewrite F. apply run_regs_frame. intros I. apply Na.
    eapply enable_addresses; eassumption.
  - intros i Hi H6. now rewrite (Q1 i Hi H6), (B1 i Hi H6).
  - intros i Hi. now rewrite (Q2 i Hi), (B2 i Hi).
Qed.

Lemma disable_after_enable_witness :
  filter is_gpio
    (trace (tc358768_enable no_fault mipi_std data_99mhz bus0)
     ++ trace (tc358768_disable no_fault
                 (snd (value (tc358768_enable no_fault mipi_std data_99mhz
                                              bus0)))
                 (final (tc358768_enable no_fault mipi_std data_99mhz bus0))))
  = [GpioSet 1; GpioSet 0].
Proof.
  apply (disable_after_enable no_fault mipi_std data_99mhz
           (set_pll data_99mhz 504 3 0 297031977) bus0).
  vm_compute. reflexivity.
Defined.

(** ** Bus transactions of a run *)

Section Counting.
Variable bus_ret : nat -> Z.

Local Abbreviation run := (run_accesses bus_ret).
Local Abbreviation count := (fun t : list event =>
                               length (filter is_bus_event t)).

Lemma count_write (reg val : Z) (s : bus) :
  let n := count (trace (tc358768_write bus_ret reg val s)) in
  (tx_min (AWrite reg val) <= n <= tx_max (AWrite reg val))%nat
  /\ ((forall k, bus_ret k = 0) -> n = tx_max (AWrite reg val)).
Proof.
  rewrite trace_write. unfold write_events, tx_min, tx_max.
  destruct ((reg <? 256) || (reg >=? 1536)).
  - cbn. split; [lia | reflexivity].
  - destruct (bus_ret (ntx s) =? 0) eqn:E; cbn; (split; [lia |]);
      [reflexivity |].
    intros NF. rewrite NF in E. discriminate E.
Qed.

Lemma count_read (reg : Z) (s : bus) :
  let n := count (trace (tc358768_read bus_ret reg s)) in
  let w := if (reg <? 0x100) || (reg >=? 0x600) then 1%nat else 2%nat in
  (1 <= n <= w)%nat /\ ((forall k, bus_ret k = 0) -> n = w).
Proof.
  unfold tc358768_read, bind, regmap_read, ret.
  destruct ((reg <? 256) || (reg >=? 1536));
    cbn [value final trace regs ntx app].
  - cbn. split; [lia | reflexivity].
  - destruct (bus_ret (ntx s) =? 0) eqn:E;
      cbn [value final trace regs ntx app].
    + destruct (bus_ret (S (ntx s)) =? 0);
        cbn; (split; [lia | reflexivity]).
    + cbn. split; [lia |]. intros NF. rewrite NF in E. discriminate E.
Qed.

Lemma count_update (reg mask val : Z) (s : bus) :
  let n := count (trace (tc358768_update_bits bus_ret reg mask val s)) in
  (tx_min (AUpdate reg mask val) <= n <= tx_max (AUpdate reg mask val))%nat
  /\ ((forall k, bus_ret k = 0) ->
      (tx_clean (AUpdate reg mask val) <= n)%nat).
Proof.
  rewrite update_bits_run.
  pose proof (count_read reg s) as R. cbv zeta in R.
  unfold tx_min, tx_max, tx_clean.
  destruct (value (tc358768_read bus_ret reg s)) as [orig | e].
  - cbn zeta. destruct (rmw_value orig mask val =? orig); cbn [trace].
    + rewrite filter_app, length_app. cbn [filter is_bus_event is_bus_write
        is_bus_read orb length].
      destruct ((reg <? 256) || (reg >=? 1536)); destruct R as [R1 R2];
        (split; [lia |]); intros NF; rewrite (R2 NF); lia.
    + rewrite filter_app, length_app. cbn [filter is_bus_event is_bus_write
        is_bus_read orb].
      pose proof (count_write reg (rmw_value orig mask val)
                    (final (tc358768_read bus_ret reg s))) as W.
      cbv zeta in W. unfold tx_min, tx_max in W.
      destruct ((reg <? 256) || (reg >=? 1536)); destruct R as [R1 R2];
        destruct W as [W1 W2]; (split; [lia |]); intros NF;
        rewrite (R2 NF); lia.
  - cbn [trace].
    destruct ((reg <? 256) || (reg >=? 1536)); destruct R as [R1 R2];
      (split; [lia |]); intros NF; rewrite (R2 NF); lia.
Qed.

Lemma count_run (l : list access) (s : bus) :
  let n := count (trace (run l s)) in
  (sum_nat (map tx_min l) <= n <= sum_nat (map tx_max l))%nat
  /\ ((forall k, bus_ret k = 0) -> (sum_nat (map tx_clean l) <= n)%nat).
Proof.
  revert s. induction l as [| a l IH]; intros s.
  - cbn. split; [lia |]. intros _. lia.
  - cbv zeta. rewrite trace_run_cons, filter_app, length_app.
    specialize (IH (final (run_access bus_ret a s))). cbv zeta in IH.
    destruct IH as [I1 I2]. cbn [map sum_nat fold_right].
    fold (sum_nat (map tx_min l)). fold (sum_nat (map tx_max l)).
    fold (sum_nat (map tx_clean l)).
    assert (A : (tx_min a
                 <= length (filter is_bus_event
                              (trace (run_access bus_ret a s)))
                 <= tx_max a)%nat
                /\ ((forall k, bus_ret k = 0) ->
                    (tx_clean a
                     <= length (filter is_bus_event
                                  (trace (run_access bus_ret a s))))%nat)).
    { destruct a as [reg val | reg mask val | e].
      - destruct (count_write reg val s) as [W1 W2]. cbv zeta in W1, W2.
        split; [exact W1 |]. intros NF.
        change (tx_clean (AWrite reg val)) with (tx_max (AWrite reg val)).
        cbn [run_access trace]. rewrite (W2 NF). lia.
      - apply count_update.
      - rewrite trace_run_emit. cbn [filter tx_min tx_max tx_clean].
        destruct (is_bus_event e); cbn; split; try lia; intros _; lia. }
    destruct A as [A1 A2]. split; [lia |].
    intros NF. specialize (I2 NF). specialize (A2 NF). lia.
Qed.
End Counting.

Lemma enable_tx_sums (mipi : mipi_display) (d : tc358768_drv_data) :
  sum_nat (map tx_min (enable_accesses mipi d)) = 49%nat
  /\ sum_nat (map tx_max (enable_accesses mipi d)) = 71%nat
  /\ sum_nat (map tx_clean (enable_accesses mipi d)) = 69%nat.
Proof.
  unfold enable_accesses.
  destruct (reset_gpio d); refine (conj _ (conj _ _)); reflexivity.
Qed.

(** X18.  A bring-up that found a PLL solution puts between 49 and 71
    transactions on the bus, whatever the bus returns: one per 16-bit
    write, one or two per 32-bit write, and one or two for each of the
    two closing read-modify-writes.  When no transaction fails there
    are at least 69. *)
Theorem enable_bus_transactions (bus_ret : nat -> Z) (mipi : mipi_display)
        (d d' : tc358768_drv_data) (s : bus) :
  tc358768_calc_pll d = PllOk d' ->
  let n := length (filter is_bus_event
                     (trace (tc358768_enable bus_ret mipi d s))) in
  (49 <= n <= 71)%nat
  /\ ((forall k, bus_ret k = 0) -> (69 <= n)%nat).
Proof.
  intros H n. subst n.
  destruct (enable_final bus_ret mipi d d' s H) as (_ & T & _). rewrite T.
  destruct (count_run bus_ret (enable_accesses mipi d') s) as [C1 C2].
  cbv zeta in C1, C2.
  destruct (enable_tx_sums mipi d') as (E1 & E2 & E3).
  rewrite E1, E2 in C1. rewrite E3 in C2. split; [exact C1 | exact C2].
Qed.

Lemma enable_bus_transactions_witness :
  (49 <= length (filter is_bus_event
                   (trace (tc358768_enable no_fault mipi_std data_99mhz
                                           bus0)))
   <= 71)%nat.
Proof.
  apply (enable_bus_transactions no_fault mipi_std data_99mhz
           (set_pll data_99mhz 504 3 0 297031977) bus0).
  vm_compute. reflexivity.
Defined.

(** ** The solver and the device context *)

Lemma pclk_to_pll_set_pll (d : tc358768_drv_data) (f p r b : Z) :
  tc358768_pclk_to_pll (set_pll d f p r b) = tc358768_pclk_to_pll d.
Proof. reflexivity. Qed.

(** X19.  [tc358768_calc_pll] reads none of the four PLL fields it
    writes: solving again from the context a successful run returned
    finds the same solution and returns that context unchanged, so that
    a second bring-up programs the same PLL. *)
Theorem calc_pll_idempotent (d d' : tc358768_drv_data) :
  tc358768_calc_pll d = PllOk d' ->
  tc358768_calc_pll d' = PllOk d'.
Proof.
  intros H. unfold tc358768_calc_pll in H. cbv zeta in H.
  destruct (ch_frs (select_frs (tc358768_pclk_to_pll d)) =? UINT_MAX) eqn:E1;
    [discriminate H |].
  destruct (best_diff
              (pll_search_run (refclk d)
                 (ch_frs (select_frs (tc358768_pclk_to_pll d)))
                 (ch_max_pll (select_frs (tc358768_pclk_to_pll d)))
                 (ch_min_pll (select_frs (tc358768_pclk_to_pll d)))
                 (tc358768_pclk_to_pll d)) =? UINT_MAX) eqn:E2;
    [discriminate H |].
  injection H as <-.
  unfold tc358768_calc_pll. cbv zeta.
  rewrite pclk_to_pll_set_pll. cbn [refclk set_pll].
  rewrite E1, E2. reflexivity.
Qed.

Lemma calc_pll_idempotent_witness :
  tc358768_calc_pll (set_pll data_99mhz 504 3 0 297031977)
  = PllOk (set_pll data_99mhz 504 3 0 297031977).
Proof.
  apply (calc_pll_idempotent data_99mhz
           (set_pll data_99mhz 504 3 0 297031977)).
  vm_compute. reflexivity.
Defined.

(** ** The search on true frequencies *)

(** On the grid the candidate of line 294 is the frequency of the
    formula whenever that frequency fits 32 bits. *)
Lemma cand_formula (r s p f : Z) :
  0 <= r < 2 ^ 32 -> 0 <= s < 4 -> in_grid p f ->
  pll_formula r f p s < 2 ^ 32 ->
  cand r s p f = pll_formula r f p s.
Proof.
  intros Hr Hs G Fit. unfold cand.
  destruct (pll_candidate_formula r s p f Hr Hs G) as [E [L _]].
  rewrite E. apply wrap32_small. lia.
Qed.

(** X20.  Whenever the frequency of the dividers a successful run
    returns fits 32 bits, the result is the closest-first pair of the
    design description on true frequencies: its frequency
    [refclk * (fbd + 1) / ((prd + 1) * 2^frs)] lies in the selected
    bracket, no pair of the grid with its frequency in the bracket is
    closer to the target, and among equally close ones it is the first
    in loop order.  The no-solution exit is taken only when no pair of
    the grid has its frequency in the bracket. *)
Theorem calc_pll_closest_by_formula (d : tc358768_drv_data) :
  0 <= refclk d < 2 ^ 32 ->
  let t := tc358768_pclk_to_pll d in
  let ch := select_frs t in
  (forall d', tc358768_calc_pll d = PllOk d' ->
     pll_formula (refclk d) (fbd d') (prd d') (frs d') < 2 ^ 32 ->
     frs d' = ch_frs ch
     /\ formula_closest_first (refclk d) (frs d') (ch_max_pll ch)
                              (ch_min_pll ch) t (prd d') (fbd d'))
  /\ (tc358768_calc_pll d = PllErr NoSolution ->
      forall p f, in_grid p f ->
        ~ in_bracket (ch_min_pll ch) (ch_max_pll ch)
                     (pll_formula (refclk d) f p (ch_frs ch))).
Proof.
  intros Hr t ch.
  assert (Bridge : ch_frs ch <> UINT_MAX ->
            forall p f, in_grid p f ->
              in_bracket (ch_min_pll ch) (ch_max_pll ch)
                         (pll_formula (refclk d) f p (ch_frs ch)) ->
              cand (refclk d) (ch_frs ch) p f
              = pll_formula (refclk d) f p (ch_frs ch)).
  { intros F p f G [_ B].
    destruct (select_frs_found _ F) as (Hs & _ & _ & _ & Hmax & _).
    fold t in Hs, Hmax. fold ch in Hs, Hmax.
    apply cand_formula; try assumption. unfold UINT_MAX in Hmax. lia. }
  split.
  - intros d' H Fit.
    pose proof (calc_pll_ok d d' H) as K. cbv zeta in K.
    fold t in K. fold ch in K.
    destruct K as (F & Es & Hs & G & B & _ & _).
    split; [exact Es |].
    pose proof (calc_pll_closest_first d) as C. cbv zeta in C.
    fold t in C. fold ch in C. destruct (C F) as (_ & C2 & _).
    assert (U : usable (refclk d) (ch_frs ch) (ch_max_pll ch)
                       (ch_min_pll ch) (prd d') (fbd d')).
    { unfold usable, cand, in_bracket. rewrite <- Es. exact B. }
    destruct (C2 _ _ G U) as (d'' & E & _ & _ & Q).
    rewrite H in E. injection E as <-.
    rewrite Es in Fit |- *.
    assert (Eb : cand (refclk d) (ch_frs ch) (prd d') (fbd d')
                 = pll_formula (refclk d) (fbd d') (prd d') (ch_frs ch)).
    { apply cand_formula; try assumption. now rewrite <- Es. }
    refine (conj G (conj _ _)).
    + unfold usable in U. now rewrite Eb in U.
    + intros p f G' B'.
      assert (Ec := Bridge F p f G' B').
      assert (U' : usable (refclk d) (ch_frs ch) (ch_max_pll ch)
                          (ch_min_pll ch) p f).
      { unfold usable. now rewrite Ec. }
      specialize (Q p f G' U'). unfold dist in Q.
      rewrite Eb, Ec in Q. exact Q.
  - intros H p f G B.
    destruct (calc_pll_cases d) as [[_ E] | (F & _)];
      [rewrite E in H; discriminate H |].
    fold t in F. fold ch in F.
    pose proof (calc_pll_closest_first d) as C. cbv zeta in C.
    fold t in C. fold ch in C. destruct (C F) as (_ & C2 & _).
    assert (U : usable (refclk d) (ch_frs ch) (ch_max_pll ch)
                       (ch_min_pll ch) p f).
    { unfold usable. now rewrite (Bridge F p f G B). }
    destruct (C2 p f G U) as (d' & E & _).
    rewrite E in H. discriminate H.
Qed.

Lemma calc_pll_closest_by_formula_witness :
  formula_closest_first (refclk probe_data) 0 1000000000 500000000
                        929400000 0 23.
Proof.
  assert (Hr : 0 <= refclk probe_data < 2 ^ 32) by (cbn; lia).
  destruct (calc_pll_closest_by_formula probe_data Hr) as [A _].
  destruct (A (set_pll probe_data 23 0 0 464700000)) as [_ CF].
  - vm_compute. reflexivity.
  - vm_compute. reflexivity.
  - exact CF.
Defined.
